(** * BioValue-AI: the durable orchestration layer, embedded in Rocq

    A shallow embedding of the Go sources of the workflow layer
    (internal/workflow: the main workflow, the per-pipeline child workflow,
    the valuation child workflow, the Saga compensator), of pkg/errors
    (ClassifyError) and of the cacheable activities of internal/activity.

    Conventions.
    - float64 is Rocq's primitive binary64 [float]; int and time values are [Z].
    - A Go [error] is a value of the inductive [error] below; a nil error is
      [None] of [option error].
    - Everything a workflow cannot decide itself (the outcome of an activity
      after its retry policy, the order in which a selector delivers futures,
      the signals and the cancellation that arrive) is read from an
      environment record, so that a statement quantified over the environment
      holds for every run.
    - A workflow appends to its event history, a [list Event]; an activity
      threads a [World] (the cache store, the metric counters, the LLM calls).
    - An error crosses from an activity or a child workflow to the workflow
      that waits for it as Temporal delivers it ([temporal]); the cache store
      holds the keys Redis has at the moment, with the time each has left to
      live ([cache.elapse] lets time pass). *)

From Stdlib Require Import ZArith Floats Uint63.
From stdpp Require Import gmap strings pretty list fin_maps sorting.

Set Warnings "-inexact-float,-register-all,-clear-no-such-hyp".
Set Default Proof Using "Type".
Local Open Scope string_scope.
Local Open Scope Z_scope.
Local Open Scope list_scope.

(** ** Go values *)

(** [float64(n)] for an [int] n. *)
Definition float64_of_int (n : Z) : float := PrimFloat.of_uint63 (Uint63.of_Z n).

(** [len(l)] as an [int]. *)
Definition len {A} (l : list A) : Z := Z.of_nat (length l).

(** ** pkg/errors *)

Module errors.

(** The package-level error values ([errors.New]) that [ClassifyError]
    compares against, and [context.DeadlineExceeded]. *)
Inductive Sentinel :=
| DeadlineExceeded
| ErrRateLimited
| ErrValidationFailed
| ErrHallucination
| ErrConfigInvalid
| ErrAuthFailed
| ErrCacheUnavailable
| ErrLLMUnavailable
| ErrToolFailed.

#[export] Instance Sentinel_eq_dec : EqDecision Sentinel.
Proof. solve_decision. Defined.

Inductive MetaValue :=
| MetaString (s : string)
| MetaBool (b : bool).

(** A Go error value: a sentinel, any other leaf error, an error wrapped by
    [fmt.Errorf("msg: %w", cause)], or a [*ClassifiedError] (whose [Unwrap]
    is its [Cause]). *)
Inductive error :=
| New (s : Sentinel)
| Other (msg : string)
| Wrap (msg : string) (cause : error)
| Classified (level : Z) (code message : string) (cause : option error)
    (retryable : bool) (maxRetries : Z) (metadata : list (string * MetaValue)).

(** type ErrorLevel int; L1Recoverable = iota + 1. *)
Definition ErrorLevel := Z.
Definition L1Recoverable : ErrorLevel := 1.
Definition L2Intervention : ErrorLevel := 2.
Definition L3Fatal : ErrorLevel := 3.

Record ClassifiedError := {
  Level : ErrorLevel;
  Code : string;
  Message : string;
  Cause : option error;
  Retryable : bool;
  MaxRetries : Z;
  Metadata : list (string * MetaValue)
}.

Definition sentinelMessage (s : Sentinel) : string :=
  match s with
  | DeadlineExceeded => "context deadline exceeded"
  | ErrRateLimited => "rate limited"
  | ErrValidationFailed => "validation failed"
  | ErrHallucination => "LLM hallucination detected"
  | ErrConfigInvalid => "invalid configuration"
  | ErrAuthFailed => "authentication failed"
  | ErrCacheUnavailable => "cache unavailable"
  | ErrLLMUnavailable => "LLM service unavailable"
  | ErrToolFailed => "tool execution failed"
  end.

(** [err.Error()]. *)
Fixpoint Error (e : error) : string :=
  match e with
  | New s => sentinelMessage s
  | Other msg => msg
  | Wrap msg cause => msg +:+ ": " +:+ Error cause
  | Classified _ _ message cause _ _ _ =>
      match cause with
      | Some c => message +:+ ": " +:+ Error c
      | None => message
      end
  end.

(** [errors.Is(err, target)] for a sentinel target: walks the Unwrap chain. *)
Fixpoint Is (e : error) (target : Sentinel) : bool :=
  match e with
  | New s => bool_decide (s = target)
  | Other _ => false
  | Wrap _ cause => Is cause target
  | Classified _ _ _ cause _ _ _ =>
      match cause with
      | Some c => Is c target
      | None => false
      end
  end.

(** [errors.As(err, &classifiedErr)]: the first [*ClassifiedError] of the
    Unwrap chain. *)
Fixpoint As (e : error) : option ClassifiedError :=
  match e with
  | New _ => None
  | Other _ => None
  | Wrap _ cause => As cause
  | Classified level code message cause retryable maxRetries metadata =>
      Some {| Level := level; Code := code; Message := message; Cause := cause;
              Retryable := retryable; MaxRetries := maxRetries;
              Metadata := metadata |}
  end.

(** The switch of ClassifyError, for a non-nil error that neither is nor wraps
    a ClassifiedError: the first matching case. *)
Definition classifySwitch (e : error) : ClassifiedError :=
  if Is e DeadlineExceeded then
    {| Level := L1Recoverable; Code := "TIMEOUT";
       Message := "Operation timed out"; Cause := Some e;
       Retryable := true; MaxRetries := 3; Metadata := [] |}
  else if Is e ErrRateLimited then
    {| Level := L1Recoverable; Code := "RATE_LIMITED";
       Message := "Rate limit exceeded"; Cause := Some e;
       Retryable := true; MaxRetries := 5;
       Metadata := [("backoff", MetaString "exponential")] |}
  else if Is e ErrCacheUnavailable then
    {| Level := L1Recoverable; Code := "CACHE_UNAVAILABLE";
       Message := "Cache service unavailable"; Cause := Some e;
       Retryable := true; MaxRetries := 3; Metadata := [] |}
  else if Is e ErrValidationFailed then
    {| Level := L2Intervention; Code := "VALIDATION_FAILED";
       Message := "Data validation failed"; Cause := Some e;
       Retryable := false; MaxRetries := 0; Metadata := [] |}
  else if Is e ErrHallucination then
    {| Level := L2Intervention; Code := "LLM_HALLUCINATION";
       Message := "LLM output verification failed"; Cause := Some e;
       Retryable := true; MaxRetries := 2;
       Metadata := [("require_human_review", MetaBool true)] |}
  else if Is e ErrLLMUnavailable then
    {| Level := L1Recoverable; Code := "LLM_UNAVAILABLE";
       Message := "LLM service unavailable"; Cause := Some e;
       Retryable := true; MaxRetries := 3;
       Metadata := [("try_fallback", MetaBool true)] |}
  else if Is e ErrToolFailed then
    {| Level := L1Recoverable; Code := "TOOL_FAILED";
       Message := "Tool execution failed"; Cause := Some e;
       Retryable := true; MaxRetries := 2; Metadata := [] |}
  else if Is e ErrConfigInvalid || Is e ErrAuthFailed then
    {| Level := L3Fatal; Code := "FATAL_CONFIG";
       Message := "Fatal configuration or authentication error";
       Cause := Some e;
       Retryable := false; MaxRetries := 0; Metadata := [] |}
  else
    {| Level := L1Recoverable; Code := "UNKNOWN";
       Message := "Unknown error"; Cause := Some e;
       Retryable := true; MaxRetries := 1; Metadata := [] |}.

(** ClassifyError on a non-nil error: an error that already is (or wraps) a
    ClassifiedError is returned as it is; otherwise the switch decides. *)
Definition classify (e : error) : ClassifiedError :=
  match As e with
  | Some classifiedErr => classifiedErr
  | None => classifySwitch e
  end.

(** ClassifyError: nil for a nil error. *)
Definition ClassifyError (err : option error) : option ClassifiedError :=
  match err with
  | None => None
  | Some e => Some (classify e)
  end.

End errors.

Import errors.

(** The outcome of a call that returns [(T, error)]. *)
Inductive result (T : Type) :=
| Ok (v : T)
| Err (e : error).
Arguments Ok {T} v.
Arguments Err {T} e.

(** ** internal/activity/types.go

    One module per struct, so that fields keep their Go names; [zero] is the
    struct's zero value. A [time.Time] is a [Z]. *)

Module FinancialAuditorInput.
Record t := { Ticker : string; ReportPath : string }.
End FinancialAuditorInput.

Module FinancialMetrics.
Record t := {
  CashOnHand : float;
  AnnualBurnRate : float;
  CashRunwayMonths : float;
  RAndDExpenses : float;
  OperatingCashFlow : float
}.
Definition zero : t :=
  {| CashOnHand := 0; AnnualBurnRate := 0; CashRunwayMonths := 0;
     RAndDExpenses := 0; OperatingCashFlow := 0 |}.
End FinancialMetrics.

Module FinancialResult.
Record t := {
  Ticker : string;
  Metrics : FinancialMetrics.t;
  HealthScore : Z;
  RiskWarning : string;
  SourceURL : string;
  UpdatedAt : Z
}.
Definition zero : t :=
  {| Ticker := ""; Metrics := FinancialMetrics.zero; HealthScore := 0;
     RiskWarning := ""; SourceURL := ""; UpdatedAt := 0 |}.
End FinancialResult.

Module PipelineScoutInput.
Record t := { Ticker : string; CompanyURL : string }.
End PipelineScoutInput.

Module DrugPipeline.
Record t := {
  DrugName : string;
  Target : string;
  Indication : string;
  Phase : string;
  Modality : string;
  NCTID : string
}.
Definition zero : t :=
  {| DrugName := ""; Target := ""; Indication := ""; Phase := "";
     Modality := ""; NCTID := "" |}.
End DrugPipeline.

Module PipelineResult.
Record t := {
  Ticker : string;
  Pipelines : list DrugPipeline.t;
  DataAsOf : Z
}.
Definition zero : t := {| Ticker := ""; Pipelines := []; DataAsOf := 0 |}.
End PipelineResult.

Module ClinicalAssessorInput.
Record t := { Ticker : string; Pipeline : DrugPipeline.t }.
End ClinicalAssessorInput.

Module ClinicalAssessment.
Record t := {
  DrugName : string;
  Target : string;
  Indication : string;
  Phase : string;
  POSScore : float;
  CompetitiveLandscape : string;
  ClinicalAdvantage : string;
  Rating : string;
  KeyCompetitors : list string;
  DataSources : list string
}.
Definition zero : t :=
  {| DrugName := ""; Target := ""; Indication := ""; Phase := "";
     POSScore := 0; CompetitiveLandscape := ""; ClinicalAdvantage := "";
     Rating := ""; KeyCompetitors := []; DataSources := [] |}.
End ClinicalAssessment.

Module ClinicalResult.
Record t := {
  Ticker : string;
  Assessments : list ClinicalAssessment.t;
  UpdatedAt : Z
}.
Definition zero : t := {| Ticker := ""; Assessments := []; UpdatedAt := 0 |}.
End ClinicalResult.

Module MarketStrategistInput.
Record t := {
  Ticker : string;
  Pipeline : DrugPipeline.t;
  Clinical : ClinicalAssessment.t
}.
End MarketStrategistInput.

Module MarketForecast.
Record t := {
  TAM : float;
  PenetrationRate : float;
  PeakSales : float;
  Currency : string
}.
Definition zero : t :=
  {| TAM := 0; PenetrationRate := 0; PeakSales := 0; Currency := "" |}.
End MarketForecast.

Module BDForecast.
Record t := {
  UpfrontPotential : float;
  MilestonePotential : float;
  RoyaltyRate : float;
  TargetRegion : string;
  ComparableDeals : list string
}.
Definition zero : t :=
  {| UpfrontPotential := 0; MilestonePotential := 0; RoyaltyRate := 0;
     TargetRegion := ""; ComparableDeals := [] |}.
End BDForecast.

Module MarketAssessment.
Record t := {
  DrugName : string;
  Target : string;
  Indication : string;
  Domestic : MarketForecast.t;
  BDOutlook : BDForecast.t;
  RiskAdjustedRevenue : float;
  Assumptions : list string
}.
Definition zero : t :=
  {| DrugName := ""; Target := ""; Indication := "";
     Domestic := MarketForecast.zero; BDOutlook := BDForecast.zero;
     RiskAdjustedRevenue := 0; Assumptions := [] |}.
End MarketAssessment.

Module MarketResult.
Record t := {
  Ticker : string;
  Assessments : list MarketAssessment.t;
  TotalRiskAdjustedRevenue : float;
  UpdatedAt : Z
}.
Definition zero : t :=
  {| Ticker := ""; Assessments := []; TotalRiskAdjustedRevenue := 0;
     UpdatedAt := 0 |}.
End MarketResult.

Module PipelineAnalysisInput.
Record t := { Ticker : string; Pipeline : DrugPipeline.t }.
End PipelineAnalysisInput.

Module PipelineAnalysisResult.
Record t := {
  Pipeline : DrugPipeline.t;
  Clinical : ClinicalAssessment.t;
  Market : MarketAssessment.t
}.
Definition zero : t :=
  {| Pipeline := DrugPipeline.zero; Clinical := ClinicalAssessment.zero;
     Market := MarketAssessment.zero |}.
End PipelineAnalysisResult.

Module ValuationActuaryInput.
Record t := {
  Ticker : string;
  Financial : FinancialResult.t;
  Clinical : ClinicalResult.t;
  Market : MarketResult.t
}.
End ValuationActuaryInput.

Module ValuationScenario.
Record t := {
  Value1Y : float;
  Value3Y : float;
  Value5Y : float;
  Value10Y : float;
  Rationale : string
}.
Definition zero : t :=
  {| Value1Y := 0; Value3Y := 0; Value5Y := 0; Value10Y := 0; Rationale := "" |}.
End ValuationScenario.

Module ValuationAssumptions.
Record t := {
  WACC : float;
  TerminalGrowth : float;
  AvgPOS : float;
  Methodology : string
}.
Definition zero : t :=
  {| WACC := 0; TerminalGrowth := 0; AvgPOS := 0; Methodology := "" |}.
End ValuationAssumptions.

Module ValuationResult.
Record t := {
  BullCase : ValuationScenario.t;
  BaseCase : ValuationScenario.t;
  BearCase : ValuationScenario.t;
  Assumptions : ValuationAssumptions.t
}.
Definition zero : t :=
  {| BullCase := ValuationScenario.zero; BaseCase := ValuationScenario.zero;
     BearCase := ValuationScenario.zero;
     Assumptions := ValuationAssumptions.zero |}.
End ValuationResult.

Module ReportGeneratorInput.
Record t := {
  Ticker : string;
  Financial : FinancialResult.t;
  Pipeline : PipelineResult.t;
  PipelineAnalyses : list PipelineAnalysisResult.t;
  Clinical : ClinicalResult.t;
  Market : MarketResult.t;
  Valuation : ValuationResult.t
}.
End ReportGeneratorInput.

Module ReportResult.
Record t := {
  Ticker : string;
  MarkdownContent : string;
  KeyRisks : list string;
  Recommendation : string;
  GeneratedAt : Z
}.
Definition zero : t :=
  {| Ticker := ""; MarkdownContent := ""; KeyRisks := [];
     Recommendation := ""; GeneratedAt := 0 |}.
End ReportResult.

(** ** internal/workflow: inputs, events and the environment of a workflow *)

Module ValuationInput.
Record t := {
  Ticker : string;
  Financial : FinancialResult.t;
  Clinical : ClinicalResult.t;
  Market : MarketResult.t
}.
End ValuationInput.

(** [workflow.ExecuteActivity(ctx, name, args...)]: the activity and its
    arguments. *)
Inductive ActivityCall :=
| FinancialAuditorCall (i : FinancialAuditorInput.t)
| PipelineScoutCall (i : PipelineScoutInput.t)
| ClinicalAssessorCall (i : ClinicalAssessorInput.t)
| MarketStrategistCall (i : MarketStrategistInput.t)
| ValuationActuaryCall (i : ValuationActuaryInput.t)
| ReportGeneratorCall (i : ReportGeneratorInput.t)
| CleanupCacheCall (ticker kind : string)
| NotifyCompensationFailureCall (stepName errorMsg : string).

(** [workflow.ExecuteChildWorkflow(childCtx, wf, input)]. *)
Inductive ChildCall :=
| PipelineAnalysisChild (i : PipelineAnalysisInput.t)
| ValuationChild (i : ValuationInput.t).

(** What a workflow appends to its history. Logger calls are not part of it
    and are left out of the workflow bodies below. *)
Inductive Event :=
| ExecuteActivity (call : ActivityCall)
| ExecuteChildWorkflow (workflowID : string) (call : ChildCall).

Definition History := list Event.

(** ** internal/workflow/saga.go *)

Record CompensationStep := {
  Name : string;
  (** [Fn(ctx)]: from the history so far, the error returned and the events
      the step appends. *)
  Fn : History -> option error * list Event
}.

Record SagaCompensation := { steps : list CompensationStep }.

Definition NewSagaCompensation : SagaCompensation := {| steps := [] |}.

(** s.steps = append([]CompensationStep{{Name: name, Fn: fn}}, s.steps...) *)
Definition AddCompensation (s : SagaCompensation) (name : string)
    (fn : History -> option error * list Event) : SagaCompensation :=
  {| steps := [{| Name := name; Fn := fn |}] ++ steps s |}.

(** The body of the loop of [Execute] for one step: the events it appends.
    The result of the NotifyCompensationFailure activity is discarded. *)
Definition executeStep (step : CompensationStep) (h : History) : list Event :=
  let '(err, evs) := Fn step h in
  match err with
  | Some e =>
      evs ++ [ExecuteActivity (NotifyCompensationFailureCall (Name step) (Error e))]
  | None => evs
  end.

Fixpoint executeLoop (l : list CompensationStep) (h : History) : History :=
  match l with
  | [] => h
  | step :: rest => executeLoop rest (h ++ executeStep step h)
  end.

Definition Execute (s : SagaCompensation) (h : History) : option error * History :=
  (None, executeLoop (steps s) h).

Definition Clear (s : SagaCompensation) : SagaCompensation := {| steps := [] |}.

Definition Len (s : SagaCompensation) : Z := len (steps s).

(** ** The per-pipeline child workflow *)

(** What [ExecuteActivity(...).Get] yields for the two activities of the
    child workflow, once the retry policy is exhausted. *)
Record PipelineActivities := {
  ClinicalAssessorOutcome : ClinicalAssessorInput.t -> result ClinicalAssessment.t;
  MarketStrategistOutcome : MarketStrategistInput.t -> result MarketAssessment.t
}.

(** getDefaultPOS *)
Definition getDefaultPOS (phase : string) : float :=
  if String.eqb phase "Preclinical" then 0.05%float
  else if String.eqb phase "Phase1" then 0.10%float
  else if String.eqb phase "Phase1_2" then 0.15%float
  else if String.eqb phase "Phase2" then 0.30%float
  else if String.eqb phase "Phase2_3" then 0.50%float
  else if String.eqb phase "Phase3" then 0.60%float
  else if String.eqb phase "Approved" then 1.0%float
  else 0.20%float.

(** The ClinicalAssessment substituted when the clinical activity fails. *)
Definition defaultClinical (p : DrugPipeline.t) : ClinicalAssessment.t :=
  {| ClinicalAssessment.DrugName := DrugPipeline.DrugName p;
     ClinicalAssessment.Target := DrugPipeline.Target p;
     ClinicalAssessment.Indication := DrugPipeline.Indication p;
     ClinicalAssessment.Phase := DrugPipeline.Phase p;
     ClinicalAssessment.POSScore := getDefaultPOS (DrugPipeline.Phase p);
     ClinicalAssessment.CompetitiveLandscape := "Unable to assess";
     ClinicalAssessment.ClinicalAdvantage := "Unable to assess";
     ClinicalAssessment.Rating := "Unknown";
     ClinicalAssessment.KeyCompetitors := [];
     ClinicalAssessment.DataSources := [] |}.

(** The MarketAssessment substituted when the market activity fails. *)
Definition defaultMarket (p : DrugPipeline.t) : MarketAssessment.t :=
  {| MarketAssessment.DrugName := DrugPipeline.DrugName p;
     MarketAssessment.Target := DrugPipeline.Target p;
     MarketAssessment.Indication := DrugPipeline.Indication p;
     MarketAssessment.Domestic :=
       {| MarketForecast.TAM := 0; MarketForecast.PenetrationRate := 0;
          MarketForecast.PeakSales := 0; MarketForecast.Currency := "USD" |};
     MarketAssessment.BDOutlook :=
       {| BDForecast.UpfrontPotential := 0; BDForecast.MilestonePotential := 0;
          BDForecast.RoyaltyRate := 0; BDForecast.TargetRegion := "Unknown";
          BDForecast.ComparableDeals := [] |};
     MarketAssessment.RiskAdjustedRevenue := 0;
     MarketAssessment.Assumptions := [] |}.

(** A workflow function returns a pointer (nil or not) and an error, and
    leaves a history. *)
Record Returned (T : Type) := {
  ret : option T;
  err : option error;
  hist : History
}.
Arguments ret {T} _.
Arguments err {T} _.
Arguments hist {T} _.

(** PipelineAnalysisWorkflow *)
Definition PipelineAnalysisWorkflow (acts : PipelineActivities)
    (input : PipelineAnalysisInput.t) : Returned PipelineAnalysisResult.t :=
  let pipeline := PipelineAnalysisInput.Pipeline input in
  (* Step 1: clinical assessment *)
  let clinicalInput :=
    {| ClinicalAssessorInput.Ticker := PipelineAnalysisInput.Ticker input;
       ClinicalAssessorInput.Pipeline := pipeline |} in
  let h1 := [ExecuteActivity (ClinicalAssessorCall clinicalInput)] in
  let clinicalResult :=
    match ClinicalAssessorOutcome acts clinicalInput with
    | Err _ => defaultClinical pipeline
    | Ok r => r
    end in
  (* Step 2: market analysis, fed with the clinical result *)
  let marketInput :=
    {| MarketStrategistInput.Ticker := PipelineAnalysisInput.Ticker input;
       MarketStrategistInput.Pipeline := pipeline;
       MarketStrategistInput.Clinical := clinicalResult |} in
  let h2 := h1 ++ [ExecuteActivity (MarketStrategistCall marketInput)] in
  let marketResult :=
    match MarketStrategistOutcome acts marketInput with
    | Err _ => defaultMarket pipeline
    | Ok r => r
    end in
  {| ret := Some {| PipelineAnalysisResult.Pipeline := pipeline;
                    PipelineAnalysisResult.Clinical := clinicalResult;
                    PipelineAnalysisResult.Market := marketResult |};
     err := None;
     hist := h2 |}.

(** ** internal/workflow/valuation.go *)

(** ValuationWorkflow: one activity call, whose error is returned as it is. *)
Definition ValuationWorkflow
    (ValuationActuaryOutcome : ValuationActuaryInput.t -> result ValuationResult.t)
    (input : ValuationInput.t) : Returned ValuationResult.t :=
  let actuaryInput :=
    {| ValuationActuaryInput.Ticker := ValuationInput.Ticker input;
       ValuationActuaryInput.Financial := ValuationInput.Financial input;
       ValuationActuaryInput.Clinical := ValuationInput.Clinical input;
       ValuationActuaryInput.Market := ValuationInput.Market input |} in
  let h := [ExecuteActivity (ValuationActuaryCall actuaryInput)] in
  match ValuationActuaryOutcome actuaryInput with
  | Err e => {| ret := None; err := Some e; hist := h |}
  | Ok r => {| ret := Some r; err := None; hist := h |}
  end.

(** ** Aggregation *)

(** aggregateClinicalResults *)
Definition aggregateClinicalResults (ticker : string)
    (analyses : list PipelineAnalysisResult.t) : ClinicalResult.t :=
  let assessments :=
    foldl (fun acc a => acc ++ [PipelineAnalysisResult.Clinical a]) [] analyses in
  {| ClinicalResult.Ticker := ticker;
     ClinicalResult.Assessments := assessments;
     ClinicalResult.UpdatedAt := 0 |}.

(** aggregateMarketResults: one pass that appends the assessment and adds its
    revenue to the running total, starting from 0.0. *)
Definition aggregateMarketResults (ticker : string)
    (analyses : list PipelineAnalysisResult.t) : MarketResult.t :=
  let '(assessments, totalRevenue) :=
    foldl (fun '(acc, total) a =>
             (acc ++ [PipelineAnalysisResult.Market a],
              (total + MarketAssessment.RiskAdjustedRevenue
                         (PipelineAnalysisResult.Market a))%float))
          ([], 0%float) analyses in
  {| MarketResult.Ticker := ticker;
     MarketResult.Assessments := assessments;
     MarketResult.TotalRiskAdjustedRevenue := totalRevenue;
     MarketResult.UpdatedAt := 0 |}.

(** ** The main workflow *)

Module WorkflowInput.
Record t := {
  Ticker : string;
  ReportPath : string;
  Options : gmap string string
}.
End WorkflowInput.

Module WorkflowOutput.
Record t := {
  Ticker : string;
  Financial : option FinancialResult.t;
  Pipeline : option PipelineResult.t;
  PipelineAnalyses : list PipelineAnalysisResult.t;
  Clinical : option ClinicalResult.t;
  Market : option MarketResult.t;
  Valuation : option ValuationResult.t;
  Report : option ReportResult.t;
  TraceID : string;
  CompletedAt : Z
}.
End WorkflowOutput.

Module ProgressInfo.
Record t := {
  CurrentAgent : string;
  CompletedSteps : list string;
  TotalSteps : Z;
  Progress : float;
  PipelineProgress : gmap string string
}.
End ProgressInfo.

Module InterventionSignal.
Record t := {
  Type_ : string;
  AgentID : string;
  Data : gmap string string
}.
End InterventionSignal.

(** *** The Temporal boundary

    An error that an activity or a child workflow function returns reaches
    the workflow that waits on its future through Temporal: the SDK
    serialises it as a failure (its message and the name of its type), and
    the future delivers Temporal's own error values, rebuilt from that
    failure. The chain of the Go error stays in the process that returned
    it: what arrives is none of the sentinels of package errors and holds no
    ClassifiedError. The identifiers Temporal prints in its messages are
    left out. *)
Module temporal.

(** The ApplicationError made of an error that is not one of Temporal's: it
    keeps the message, and has no cause. *)
Definition ApplicationError (e : error) : error := Other (Error e).

(** What the future of an activity carries when the activity function
    returned [e]. *)
Definition ActivityError (e : error) : error :=
  Wrap "activity error" (ApplicationError e).

(** What the future of a child workflow carries when the child function
    returned [e], an error it got from a future of its own (the child
    workflow functions of this repository return no other error). *)
Definition ChildWorkflowExecutionError (e : error) : error :=
  Wrap "child workflow execution error" e.

End temporal.

(** What one workflow task brings to a running workflow from outside: a
    batch of human-intervention signals, which are buffered in the signal
    channel and which the listening coroutine drains, one after the other,
    before the main coroutine runs again; or the request to cancel the
    workflow, which closes ctx.Done(). *)
Inductive Arrival :=
| Signals (batch : list InterventionSignal.t)
| Cancellation.

(** Everything the main workflow reads from outside. *)
Record Env := {
  (** workflow.GetInfo(ctx).WorkflowExecution.RunID *)
  RunID : string;
  (** workflow.Now(ctx) when the workflow stamps its output *)
  Now : Z;
  (** what workflow.SetQueryHandler returns *)
  SetQueryHandlerError : option error;
  (** what Get on the future of an activity yields, after the retries of
      its policy; an error is the one the future delivers (see [temporal]) *)
  FinancialAuditorOutcome : FinancialAuditorInput.t -> result FinancialResult.t;
  PipelineScoutOutcome : PipelineScoutInput.t -> result PipelineResult.t;
  (** whether the selector of the parallel phase delivers the financial
      future before the pipeline future *)
  financialFirst : bool;
  (** the activities as the i-th per-pipeline child workflow meets them *)
  childActivities : nat -> PipelineActivities;
  (** a failure of the i-th child workflow execution itself (timeout,
      termination, ...), as opposed to an error its function returns *)
  childFailure : nat -> option error;
  (** for each Select of the fan-in loop, which of the pending futures the
      selector delivers *)
  selectorPicks : list nat;
  ValuationActuaryOutcome : ValuationActuaryInput.t -> result ValuationResult.t;
  valuationFailure : option error;
  (** the error a parent's future carries when its child workflow function
      returns the given error *)
  ChildWorkflowError : error -> error;
  ReportGeneratorOutcome : ReportGeneratorInput.t -> result ReportResult.t;
  (** CleanupCacheActivity(ticker, kind) *)
  CleanupCacheOutcome : string -> string -> option error;
  (** what arrives from outside, by segment of the run: 0, 2, 4 while the
      phases before the three pause checks run; 1, 3, 5 while the workflow
      waits at the first, second and third pause check *)
  arrivals : nat -> list Arrival
}.

(** The variables of the workflow closure, and the history. *)
Record State := {
  saga : SagaCompensation;
  currentAgent : string;
  completedSteps : list string;
  pipelineProgress : gmap string string;
  isPaused : bool;
  (** the signal-listening coroutine has not returned *)
  listening : bool;
  (** ctx.Done() is closed: the cancellation of the workflow was requested *)
  cancelled : bool;
  financialResult : FinancialResult.t;
  pipelineResult : PipelineResult.t;
  pipelineAnalyses : list PipelineAnalysisResult.t;
  clinicalResult : ClinicalResult.t;
  marketResult : MarketResult.t;
  valuationResult : ValuationResult.t;
  output : WorkflowOutput.t;
  history : History
}.

Definition set_saga (v : SagaCompensation) (st : State) : State :=
  {| saga := v; currentAgent := currentAgent st;
     completedSteps := completedSteps st;
     pipelineProgress := pipelineProgress st; isPaused := isPaused st;
     listening := listening st; cancelled := cancelled st;
     financialResult := financialResult st;
     pipelineResult := pipelineResult st;
     pipelineAnalyses := pipelineAnalyses st;
     clinicalResult := clinicalResult st; marketResult := marketResult st;
     valuationResult := valuationResult st; output := output st;
     history := history st |}.

Definition set_currentAgent (v : string) (st : State) : State :=
  {| saga := saga st; currentAgent := v;
     completedSteps := completedSteps st;
     pipelineProgress := pipelineProgress st; isPaused := isPaused st;
     listening := listening st; cancelled := cancelled st;
     financialResult := financialResult st;
     pipelineResult := pipelineResult st;
     pipelineAnalyses := pipelineAnalyses st;
     clinicalResult := clinicalResult st; marketResult := marketResult st;
     valuationResult := valuationResult st; output := output st;
     history := history st |}.

Definition set_completedSteps (v : list string) (st : State) : State :=
  {| saga := saga st; currentAgent := currentAgent st;
     completedSteps := v;
     pipelineProgress := pipelineProgress st; isPaused := isPaused st;
     listening := listening st; cancelled := cancelled st;
     financialResult := financialResult st;
     pipelineResult := pipelineResult st;
     pipelineAnalyses := pipelineAnalyses st;
     clinicalResult := clinicalResult st; marketResult := marketResult st;
     valuationResult := valuationResult st; output := output st;
     history := history st |}.

Definition set_pipelineProgress (v : gmap string string) (st : State) : State :=
  {| saga := saga st; currentAgent := currentAgent st;
     completedSteps := completedSteps st;
     pipelineProgress := v; isPaused := isPaused st;
     listening := listening st; cancelled := cancelled st;
     financialResult := financialResult st;
     pipelineResult := pipelineResult st;
     pipelineAnalyses := pipelineAnalyses st;
     clinicalResult := clinicalResult st; marketResult := marketResult st;
     valuationResult := valuationResult st; output := output st;
     history := history st |}.

Definition set_isPaused (v : bool) (st : State) : State :=
  {| saga := saga st; currentAgent := currentAgent st;
     completedSteps := completedSteps st;
     pipelineProgress := pipelineProgress st; isPaused := v;
     listening := listening st; cancelled := cancelled st;
     financialResult := financialResult st;
     pipelineResult := pipelineResult st;
     pipelineAnalyses := pipelineAnalyses st;
     clinicalResult := clinicalResult st; marketResult := marketResult st;
     valuationResult := valuationResult st; output := output st;
     history := history st |}.

Definition set_listening (v : bool) (st : State) : State :=
  {| saga := saga st; currentAgent := currentAgent st;
     completedSteps := completedSteps st;
     pipelineProgress := pipelineProgress st; isPaused := isPaused st;
     listening := v; cancelled := cancelled st;
     financialResult := financialResult st;
     pipelineResult := pipelineResult st;
     pipelineAnalyses := pipelineAnalyses st;
     clinicalResult := clinicalResult st; marketResult := marketResult st;
     valuationResult := valuationResult st; output := output st;
     history := history st |}.

Definition set_cancelled (v : bool) (st : State) : State :=
  {| saga := saga st; currentAgent := currentAgent st;
     completedSteps := completedSteps st;
     pipelineProgress := pipelineProgress st; isPaused := isPaused st;
     listening := listening st; cancelled := v;
     financialResult := financialResult st;
     pipelineResult := pipelineResult st;
     pipelineAnalyses := pipelineAnalyses st;
     clinicalResult := clinicalResult st; marketResult := marketResult st;
     valuationResult := valuationResult st; output := output st;
     history := history st |}.

Definition set_financialResult (v : FinancialResult.t) (st : State) : State :=
  {| saga := saga st; currentAgent := currentAgent st;
     completedSteps := completedSteps st;
     pipelineProgress := pipelineProgress st; isPaused := isPaused st;
     listening := listening st; cancelled := cancelled st;
     financialResult := v;
     pipelineResult := pipelineResult st;
     pipelineAnalyses := pipelineAnalyses st;
     clinicalResult := clinicalResult st; marketResult := marketResult st;
     valuationResult := valuationResult st; output := output st;
     history := history st |}.

Definition set_pipelineResult (v : PipelineResult.t) (st : State) : State :=
  {| saga := saga st; currentAgent := currentAgent st;
     completedSteps := completedSteps st;
     pipelineProgress := pipelineProgress st; isPaused := isPaused st;
     listening := listening st; cancelled := cancelled st;
     financialResult := financialResult st;
     pipelineResult := v;
     pipelineAnalyses := pipelineAnalyses st;
     clinicalResult := clinicalResult st; marketResult := marketResult st;
     valuationResult := valuationResult st; output := output st;
     history := history st |}.

Definition set_pipelineAnalyses (v : list PipelineAnalysisResult.t) (st : State)
    : State :=
  {| saga := saga st; currentAgent := currentAgent st;
     completedSteps := completedSteps st;
     pipelineProgress := pipelineProgress st; isPaused := isPaused st;
     listening := listening st; cancelled := cancelled st;
     financialResult := financialResult st;
     pipelineResult := pipelineResult st;
     pipelineAnalyses := v;
     clinicalResult := clinicalResult st; marketResult := marketResult st;
     valuationResult := valuationResult st; output := output st;
     history := history st |}.

Definition set_clinicalResult (v : ClinicalResult.t) (st : State) : State :=
  {| saga := saga st; currentAgent := currentAgent st;
     completedSteps := completedSteps st;
     pipelineProgress := pipelineProgress st; isPaused := isPaused st;
     listening := listening st; cancelled := cancelled st;
     financialResult := financialResult st;
     pipelineResult := pipelineResult st;
     pipelineAnalyses := pipelineAnalyses st;
     clinicalResult := v; marketResult := marketResult st;
     valuationResult := valuationResult st; output := output st;
     history := history st |}.

Definition set_marketResult (v : MarketResult.t) (st : State) : State :=
  {| saga := saga st; currentAgent := currentAgent st;
     completedSteps := completedSteps st;
     pipelineProgress := pipelineProgress st; isPaused := isPaused st;
     listening := listening st; cancelled := cancelled st;
     financialResult := financialResult st;
     pipelineResult := pipelineResult st;
     pipelineAnalyses := pipelineAnalyses st;
     clinicalResult := clinicalResult st; marketResult := v;
     valuationResult := valuationResult st; output := output st;
     history := history st |}.

Definition set_valuationResult (v : ValuationResult.t) (st : State) : State :=
  {| saga := saga st; currentAgent := currentAgent st;
     completedSteps := completedSteps st;
     pipelineProgress := pipelineProgress st; isPaused := isPaused st;
     listening := listening st; cancelled := cancelled st;
     financialResult := financialResult st;
     pipelineResult := pipelineResult st;
     pipelineAnalyses := pipelineAnalyses st;
     clinicalResult := clinicalResult st; marketResult := marketResult st;
     valuationResult := v; output := output st;
     history := history st |}.

Definition set_output (v : WorkflowOutput.t) (st : State) : State :=
  {| saga := saga st; currentAgent := currentAgent st;
     completedSteps := completedSteps st;
     pipelineProgress := pipelineProgress st; isPaused := isPaused st;
     listening := listening st; cancelled := cancelled st;
     financialResult := financialResult st;
     pipelineResult := pipelineResult st;
     pipelineAnalyses := pipelineAnalyses st;
     clinicalResult := clinicalResult st; marketResult := marketResult st;
     valuationResult := valuationResult st; output := v;
     history := history st |}.

Definition set_history (v : History) (st : State) : State :=
  {| saga := saga st; currentAgent := currentAgent st;
     completedSteps := completedSteps st;
     pipelineProgress := pipelineProgress st; isPaused := isPaused st;
     listening := listening st; cancelled := cancelled st;
     financialResult := financialResult st;
     pipelineResult := pipelineResult st;
     pipelineAnalyses := pipelineAnalyses st;
     clinicalResult := clinicalResult st; marketResult := marketResult st;
     valuationResult := valuationResult st; output := output st;
     history := v |}.

(** Updates of single fields of the output. *)
Definition out_Financial (v : FinancialResult.t) (o : WorkflowOutput.t)
    : WorkflowOutput.t :=
  {| WorkflowOutput.Ticker := WorkflowOutput.Ticker o;
     WorkflowOutput.Financial := Some v;
     WorkflowOutput.Pipeline := WorkflowOutput.Pipeline o;
     WorkflowOutput.PipelineAnalyses := WorkflowOutput.PipelineAnalyses o;
     WorkflowOutput.Clinical := WorkflowOutput.Clinical o;
     WorkflowOutput.Market := WorkflowOutput.Market o;
     WorkflowOutput.Valuation := WorkflowOutput.Valuation o;
     WorkflowOutput.Report := WorkflowOutput.Report o;
     WorkflowOutput.TraceID := WorkflowOutput.TraceID o;
     WorkflowOutput.CompletedAt := WorkflowOutput.CompletedAt o |}.

Definition out_Pipeline (v : PipelineResult.t) (o : WorkflowOutput.t)
    : WorkflowOutput.t :=
  {| WorkflowOutput.Ticker := WorkflowOutput.Ticker o;
     WorkflowOutput.Financial := WorkflowOutput.Financial o;
     WorkflowOutput.Pipeline := Some v;
     WorkflowOutput.PipelineAnalyses := WorkflowOutput.PipelineAnalyses o;
     WorkflowOutput.Clinical := WorkflowOutput.Clinical o;
     WorkflowOutput.Market := WorkflowOutput.Market o;
     WorkflowOutput.Valuation := WorkflowOutput.Valuation o;
     WorkflowOutput.Report := WorkflowOutput.Report o;
     WorkflowOutput.TraceID := WorkflowOutput.TraceID o;
     WorkflowOutput.CompletedAt := WorkflowOutput.CompletedAt o |}.

Definition out_PipelineAnalyses (v : list PipelineAnalysisResult.t)
    (o : WorkflowOutput.t) : WorkflowOutput.t :=
  {| WorkflowOutput.Ticker := WorkflowOutput.Ticker o;
     WorkflowOutput.Financial := WorkflowOutput.Financial o;
     WorkflowOutput.Pipeline := WorkflowOutput.Pipeline o;
     WorkflowOutput.PipelineAnalyses := v;
     WorkflowOutput.Clinical := WorkflowOutput.Clinical o;
     WorkflowOutput.Market := WorkflowOutput.Market o;
     WorkflowOutput.Valuation := WorkflowOutput.Valuation o;
     WorkflowOutput.Report := WorkflowOutput.Report o;
     WorkflowOutput.TraceID := WorkflowOutput.TraceID o;
     WorkflowOutput.CompletedAt := WorkflowOutput.CompletedAt o |}.

Definition out_Clinical (v : ClinicalResult.t) (o : WorkflowOutput.t)
    : WorkflowOutput.t :=
  {| WorkflowOutput.Ticker := WorkflowOutput.Ticker o;
     WorkflowOutput.Financial := WorkflowOutput.Financial o;
     WorkflowOutput.Pipeline := WorkflowOutput.Pipeline o;
     WorkflowOutput.PipelineAnalyses := WorkflowOutput.PipelineAnalyses o;
     WorkflowOutput.Clinical := Some v;
     WorkflowOutput.Market := WorkflowOutput.Market o;
     WorkflowOutput.Valuation := WorkflowOutput.Valuation o;
     WorkflowOutput.Report := WorkflowOutput.Report o;
     WorkflowOutput.TraceID := WorkflowOutput.TraceID o;
     WorkflowOutput.CompletedAt := WorkflowOutput.CompletedAt o |}.

Definition out_Market (v : MarketResult.t) (o : WorkflowOutput.t)
    : WorkflowOutput.t :=
  {| WorkflowOutput.Ticker := WorkflowOutput.Ticker o;
     WorkflowOutput.Financial := WorkflowOutput.Financial o;
     WorkflowOutput.Pipeline := WorkflowOutput.Pipeline o;
     WorkflowOutput.PipelineAnalyses := WorkflowOutput.PipelineAnalyses o;
     WorkflowOutput.Clinical := WorkflowOutput.Clinical o;
     WorkflowOutput.Market := Some v;
     WorkflowOutput.Valuation := WorkflowOutput.Valuation o;
     WorkflowOutput.Report := WorkflowOutput.Report o;
     WorkflowOutput.TraceID := WorkflowOutput.TraceID o;
     WorkflowOutput.CompletedAt := WorkflowOutput.CompletedAt o |}.

Definition out_Valuation (v : ValuationResult.t) (o : WorkflowOutput.t)
    : WorkflowOutput.t :=
  {| WorkflowOutput.Ticker := WorkflowOutput.Ticker o;
     WorkflowOutput.Financial := WorkflowOutput.Financial o;
     WorkflowOutput.Pipeline := WorkflowOutput.Pipeline o;
     WorkflowOutput.PipelineAnalyses := WorkflowOutput.PipelineAnalyses o;
     WorkflowOutput.Clinical := WorkflowOutput.Clinical o;
     WorkflowOutput.Market := WorkflowOutput.Market o;
     WorkflowOutput.Valuation := Some v;
     WorkflowOutput.Report := WorkflowOutput.Report o;
     WorkflowOutput.TraceID := WorkflowOutput.TraceID o;
     WorkflowOutput.CompletedAt := WorkflowOutput.CompletedAt o |}.

Definition out_Report (v : ReportResult.t) (o : WorkflowOutput.t)
    : WorkflowOutput.t :=
  {| WorkflowOutput.Ticker := WorkflowOutput.Ticker o;
     WorkflowOutput.Financial := WorkflowOutput.Financial o;
     WorkflowOutput.Pipeline := WorkflowOutput.Pipeline o;
     WorkflowOutput.PipelineAnalyses := WorkflowOutput.PipelineAnalyses o;
     WorkflowOutput.Clinical := WorkflowOutput.Clinical o;
     WorkflowOutput.Market := WorkflowOutput.Market o;
     WorkflowOutput.Valuation := WorkflowOutput.Valuation o;
     WorkflowOutput.Report := Some v;
     WorkflowOutput.TraceID := WorkflowOutput.TraceID o;
     WorkflowOutput.CompletedAt := WorkflowOutput.CompletedAt o |}.

Definition out_CompletedAt (v : Z) (o : WorkflowOutput.t) : WorkflowOutput.t :=
  {| WorkflowOutput.Ticker := WorkflowOutput.Ticker o;
     WorkflowOutput.Financial := WorkflowOutput.Financial o;
     WorkflowOutput.Pipeline := WorkflowOutput.Pipeline o;
     WorkflowOutput.PipelineAnalyses := WorkflowOutput.PipelineAnalyses o;
     WorkflowOutput.Clinical := WorkflowOutput.Clinical o;
     WorkflowOutput.Market := WorkflowOutput.Market o;
     WorkflowOutput.Valuation := WorkflowOutput.Valuation o;
     WorkflowOutput.Report := WorkflowOutput.Report o;
     WorkflowOutput.TraceID := WorkflowOutput.TraceID o;
     WorkflowOutput.CompletedAt := v |}.

(** *** The progress query *)

(** The handler registered under the name progress. It reads the closure
    variables; the state it returns is the state it was given. *)
Definition progressQuery (st : State) : (ProgressInfo.t * option error) * State :=
  let totalSteps := 4 + Z.of_nat (size (pipelineProgress st)) * 2 in
  (({| ProgressInfo.CurrentAgent := currentAgent st;
       ProgressInfo.CompletedSteps := completedSteps st;
       ProgressInfo.TotalSteps := totalSteps;
       ProgressInfo.Progress :=
         (float64_of_int (len (completedSteps st)) / float64_of_int totalSteps
          * 100)%float;
       ProgressInfo.PipelineProgress := pipelineProgress st |}, None), st).

(** *** Signals *)

(** The body of the listening coroutine for one received signal. After a
    cancel the coroutine has returned and receives nothing more. *)
Definition handleSignal (st : State) (signal : InterventionSignal.t) : State :=
  if listening st then
    let ty := InterventionSignal.Type_ signal in
    if String.eqb ty "pause" then set_isPaused true st
    else if String.eqb ty "resume" then set_isPaused false st
    else if String.eqb ty "cancel" then set_listening false st
    else st
  else st.

Definition deliver (sigs : list InterventionSignal.t) (st : State) : State :=
  foldl handleSignal st sigs.

(** What a pause check leaves: the state with which the workflow goes on, or
    the state in which it waits when nothing more arrives. *)
Inductive Checked :=
| Proceed (st : State)
| Stuck (st : State).

(** What one arrival changes: the listening coroutine handles the signals
    of a batch in order; a cancellation closes ctx.Done(). *)
Definition handleArrival (st : State) (a : Arrival) : State :=
  match a with
  | Signals batch => deliver batch st
  | Cancellation => set_cancelled true st
  end.

Definition arrive (tasks : list Arrival) (st : State) : State :=
  foldl handleArrival st tasks.

(** waitForResume, that is
    _ = workflow.Await(ctx, func() bool { return !isPaused })
    while [tasks] arrive. Await tests the predicate, returns nil when it
    holds, returns a CanceledError when it does not hold and ctx.Done() is
    closed, and yields otherwise; it is woken after each workflow task, once
    the listening coroutine has drained the batch of that task. The error is
    discarded, so that a cancelled workflow goes on although it is paused. *)
Fixpoint waitForResume (tasks : list Arrival) (st : State) : Checked :=
  if negb (isPaused st) then Proceed st
  else if cancelled st then Proceed st
  else
    match tasks with
    | [] => Stuck st
    | task :: rest => waitForResume rest (handleArrival st task)
    end.

(** if isPaused { waitForResume() }, after the phase during which
    [arrivals env k] arrived. *)
Definition pauseCheck (env : Env) (k : nat) (st : State) : Checked :=
  let st := arrive (arrivals env k) st in
  if isPaused st then waitForResume (arrivals env (S k)) st else Proceed st.

(** *** Steps 1 and 2: financial audit and pipeline scan in parallel *)

Definition cleanupFinancialData (env : Env) (ticker : string)
    : History -> option error * list Event :=
  fun _ => (CleanupCacheOutcome env ticker "financials",
            [ExecuteActivity (CleanupCacheCall ticker "financials")]).

Definition cleanupPipelineData (env : Env) (ticker : string)
    : History -> option error * list Event :=
  fun _ => (CleanupCacheOutcome env ticker "pipeline",
            [ExecuteActivity (CleanupCacheCall ticker "pipeline")]).

Definition financialInput (input : WorkflowInput.t) : FinancialAuditorInput.t :=
  {| FinancialAuditorInput.Ticker := WorkflowInput.Ticker input;
     FinancialAuditorInput.ReportPath := WorkflowInput.ReportPath input |}.

Definition scoutInput (input : WorkflowInput.t) : PipelineScoutInput.t :=
  {| PipelineScoutInput.Ticker := WorkflowInput.Ticker input;
     PipelineScoutInput.CompanyURL := "" |}.

(** The selector callback of the financial future. *)
Definition onFinancial (env : Env) (input : WorkflowInput.t) (st : State) : State :=
  match FinancialAuditorOutcome env (financialInput input) with
  | Err _ => st
  | Ok r =>
      let st := set_financialResult r st in
      let st := set_completedSteps (completedSteps st ++ ["FinancialAuditor"]) st in
      let st := set_output (out_Financial r (output st)) st in
      set_saga (AddCompensation (saga st) "financial"
                  (cleanupFinancialData env (WorkflowInput.Ticker input))) st
  end.

(** The selector callback of the pipeline future. *)
Definition onPipeline (env : Env) (input : WorkflowInput.t) (st : State) : State :=
  match PipelineScoutOutcome env (scoutInput input) with
  | Err _ => st
  | Ok r =>
      let st := set_pipelineResult r st in
      let st := set_completedSteps (completedSteps st ++ ["PipelineScout"]) st in
      let st := set_output (out_Pipeline r (output st)) st in
      set_saga (AddCompensation (saga st) "pipeline"
                  (cleanupPipelineData env (WorkflowInput.Ticker input))) st
  end.

Definition phaseA (env : Env) (input : WorkflowInput.t) (st : State) : State :=
  let st := set_currentAgent "FinancialAuditor,PipelineScout" st in
  let st := set_history
              (history st ++
               [ExecuteActivity (FinancialAuditorCall (financialInput input));
                ExecuteActivity (PipelineScoutCall (scoutInput input))]) st in
  (* for i := 0; i < 2; i++ { selector.Select(ctx) } *)
  if financialFirst env then onPipeline env input (onFinancial env input st)
  else onFinancial env input (onPipeline env input st).

(** *** Step 3: one child workflow per pipeline *)

Definition analysisInput (input : WorkflowInput.t) (p : DrugPipeline.t)
    : PipelineAnalysisInput.t :=
  {| PipelineAnalysisInput.Ticker := WorkflowInput.Ticker input;
     PipelineAnalysisInput.Pipeline := p |}.

Definition analysisWorkflowID (env : Env) (input : WorkflowInput.t) (i : nat)
    : string :=
  "pipeline-analysis-" +:+ WorkflowInput.Ticker input +:+ "-" +:+ RunID env
  +:+ "-" +:+ pretty (Z.of_nat i).

(** What [Get] on the future of a child workflow yields: the failure of the
    execution if there is one, else the error the child function returned,
    else its result (the zero value when the child returned a nil pointer). *)
Definition childGet {T} (env : Env) (failure : option error) (zero : T)
    (r : Returned T) : result T :=
  match failure with
  | Some e => Err e
  | None =>
      match err r with
      | Some e => Err (ChildWorkflowError env e)
      | None => Ok (default zero (ret r))
      end
  end.

(** The future of the i-th per-pipeline child workflow. *)
Definition analysisFuture (env : Env) (input : WorkflowInput.t) (i : nat)
    (p : DrugPipeline.t) : result PipelineAnalysisResult.t :=
  childGet env (childFailure env i) PipelineAnalysisResult.zero
    (PipelineAnalysisWorkflow (childActivities env i) (analysisInput input p)).

(** for _, p := range pipelineResult.Pipelines { pipelineProgress[p.DrugName] = "pending" } *)
Definition initProgress (ps : list DrugPipeline.t) (m : gmap string string)
    : gmap string string :=
  foldl (fun m p => <[DrugPipeline.DrugName p := "pending"]> m) m ps.

(** The loop that starts the child workflows, from index i on: the futures,
    the progress map and the history it leaves. *)
Fixpoint launch (env : Env) (input : WorkflowInput.t) (i : nat)
    (ps : list DrugPipeline.t)
    (acc : list (result PipelineAnalysisResult.t) * gmap string string * History)
    : list (result PipelineAnalysisResult.t) * gmap string string * History :=
  match ps with
  | [] => acc
  | pipeline :: rest =>
      let '(pipelineFutures, progress, h) := acc in
      launch env input (S i) rest
        (pipelineFutures ++ [analysisFuture env input i pipeline],
         <[DrugPipeline.DrugName pipeline := "in_progress"]> progress,
         h ++ [ExecuteChildWorkflow (analysisWorkflowID env input i)
                 (PipelineAnalysisChild (analysisInput input pipeline))])
  end.

(** The futures as registered with the selector: each with the name of the
    drug at its index, pipelineResult.Pipelines[idx].DrugName. *)
Definition register (ps : list DrugPipeline.t)
    (pipelineFutures : list (result PipelineAnalysisResult.t))
    : list (string * result PipelineAnalysisResult.t) :=
  zip_with (fun p future => (DrugPipeline.DrugName p, future)) ps pipelineFutures.

(** The callback of one registered future. *)
Definition onAnalysis (drugName : string)
    (future : result PipelineAnalysisResult.t) (st : State) : State :=
  match future with
  | Err _ => set_pipelineProgress (<[drugName := "failed"]> (pipelineProgress st)) st
  | Ok r =>
      let st := set_pipelineAnalyses (pipelineAnalyses st ++ [r]) st in
      let st := set_pipelineProgress
                  (<[drugName := "completed"]> (pipelineProgress st)) st in
      set_completedSteps
        (completedSteps st ++ ["PipelineAnalysis:" +:+ drugName]) st
  end.

(** One Select: the selector delivers one of the pending futures, the one the
    environment picks, and forgets it. *)
Definition selectOne {A} (pick : nat) (pending : list A) : option (A * list A) :=
  let k := (pick mod length pending)%nat in
  match pending !! k with
  | Some x => Some (x, delete k pending)
  | None => None
  end.

(** for range pipelineFutures { pipelineSelector.Select(ctx) } *)
Fixpoint collect (n : nat) (picks : list nat)
    (pending : list (string * result PipelineAnalysisResult.t)) (st : State)
    : State :=
  match n with
  | O => st
  | S n' =>
      match selectOne (hd O picks) pending with
      | Some ((drugName, future), rest) =>
          collect n' (tl picks) rest (onAnalysis drugName future st)
      | None => st
      end
  end.

(** The fan-out and fan-in of step 3, up to the aggregation. *)
Definition fanOut (env : Env) (input : WorkflowInput.t) (st : State) : State :=
  let st := set_currentAgent "PipelineAnalysis" st in
  let ps := PipelineResult.Pipelines (pipelineResult st) in
  let st := set_pipelineProgress (initProgress ps (pipelineProgress st)) st in
  let '(pipelineFutures, progress, h) :=
    launch env input O ps ([], pipelineProgress st, history st) in
  let st := set_history h (set_pipelineProgress progress st) in
  let st := set_pipelineAnalyses [] st in
  collect (length pipelineFutures) (selectorPicks env)
    (register ps pipelineFutures) st.

Definition aggregate (input : WorkflowInput.t) (st : State) : State :=
  let st := set_output (out_PipelineAnalyses (pipelineAnalyses st) (output st)) st in
  let clinical :=
    aggregateClinicalResults (WorkflowInput.Ticker input) (pipelineAnalyses st) in
  let st := set_clinicalResult clinical st in
  let st := set_output (out_Clinical clinical (output st)) st in
  let st := set_completedSteps (completedSteps st ++ ["ClinicalAggregation"]) st in
  let market :=
    aggregateMarketResults (WorkflowInput.Ticker input) (pipelineAnalyses st) in
  let st := set_marketResult market st in
  let st := set_output (out_Market market (output st)) st in
  set_completedSteps (completedSteps st ++ ["MarketAggregation"]) st.

(** *** Step 4: valuation in a child workflow *)

Definition valuationInput (input : WorkflowInput.t) (st : State) : ValuationInput.t :=
  {| ValuationInput.Ticker := WorkflowInput.Ticker input;
     ValuationInput.Financial := financialResult st;
     ValuationInput.Clinical := clinicalResult st;
     ValuationInput.Market := marketResult st |}.

Definition valuationFuture (env : Env) (input : WorkflowInput.t) (st : State)
    : result ValuationResult.t :=
  childGet env (valuationFailure env) ValuationResult.zero
    (ValuationWorkflow (ValuationActuaryOutcome env) (valuationInput input st)).

(** The valuation phase: the state it leaves and, when the workflow aborts
    here, the error it returns. *)
Definition valuationPhase (env : Env) (input : WorkflowInput.t) (st : State)
    : State * option error :=
  let st := set_currentAgent "ValuationActuary" st in
  let st := set_history
              (history st ++
               [ExecuteChildWorkflow
                  ("valuation-" +:+ WorkflowInput.Ticker input +:+ "-"
                   +:+ RunID env)
                  (ValuationChild (valuationInput input st))]) st in
  match valuationFuture env input st with
  | Err e =>
      let classifiedErr := classify e in
      if Level classifiedErr >=? L2Intervention then
        let '(_, h) := Execute (saga st) (history st) in
        (set_history h st, Some (Wrap "valuation workflow failed" e))
      else (st, None)
  | Ok r =>
      let st := set_valuationResult r st in
      let st := set_completedSteps (completedSteps st ++ ["ValuationActuary"]) st in
      (set_output (out_Valuation r (output st)) st, None)
  end.

(** *** Step 5: the report *)

Definition reportInput (input : WorkflowInput.t) (st : State)
    : ReportGeneratorInput.t :=
  {| ReportGeneratorInput.Ticker := WorkflowInput.Ticker input;
     ReportGeneratorInput.Financial := financialResult st;
     ReportGeneratorInput.Pipeline := pipelineResult st;
     ReportGeneratorInput.PipelineAnalyses := pipelineAnalyses st;
     ReportGeneratorInput.Clinical := clinicalResult st;
     ReportGeneratorInput.Market := marketResult st;
     ReportGeneratorInput.Valuation := valuationResult st |}.

Definition reportPhase (env : Env) (input : WorkflowInput.t) (st : State) : State :=
  let st := set_currentAgent "ReportGenerator" st in
  let st := set_history
              (history st ++
               [ExecuteActivity (ReportGeneratorCall (reportInput input st))]) st in
  let st :=
    match ReportGeneratorOutcome env (reportInput input st) with
    | Err _ => st
    | Ok r =>
        let st := set_completedSteps (completedSteps st ++ ["ReportGenerator"]) st in
        set_output (out_Report r (output st)) st
    end in
  set_output (out_CompletedAt (Now env) (output st)) st.

(** *** BioValueWorkflow *)

(** How a run ends: with an output and a nil error, with a nil output and an
    error, or waiting at a pause check when nothing more arrives. *)
Inductive Outcome :=
| Completed (out : WorkflowOutput.t)
| Aborted (e : error)
| Suspended.

Record Run := {
  outcome : Outcome;
  (** the closure variables and the history where the run ended *)
  final : State
}.

(** A part of the workflow body either ends the run or hands its state on. *)
Inductive Step :=
| Continue (st : State)
| Stop (r : Run).

Definition initialState (env : Env) (input : WorkflowInput.t) : State :=
  {| saga := NewSagaCompensation;
     currentAgent := "";
     completedSteps := [];
     pipelineProgress := ∅;
     isPaused := false;
     listening := true;
     cancelled := false;
     financialResult := FinancialResult.zero;
     pipelineResult := PipelineResult.zero;
     pipelineAnalyses := [];
     clinicalResult := ClinicalResult.zero;
     marketResult := MarketResult.zero;
     valuationResult := ValuationResult.zero;
     output :=
       {| WorkflowOutput.Ticker := WorkflowInput.Ticker input;
          WorkflowOutput.Financial := None;
          WorkflowOutput.Pipeline := None;
          WorkflowOutput.PipelineAnalyses := [];
          WorkflowOutput.Clinical := None;
          WorkflowOutput.Market := None;
          WorkflowOutput.Valuation := None;
          WorkflowOutput.Report := None;
          WorkflowOutput.TraceID := RunID env;
          WorkflowOutput.CompletedAt := 0 |};
     history := [] |}.

Definition checked (c : Checked) : Step :=
  match c with
  | Proceed st => Continue st
  | Stuck st => Stop {| outcome := Suspended; final := st |}
  end.

(** From the start of the workflow to the end of the fan-in loop. *)
Definition throughFanOut (env : Env) (input : WorkflowInput.t) : Step :=
  let st := initialState env input in
  match SetQueryHandlerError env with
  | Some e =>
      Stop {| outcome := Aborted (Wrap "failed to set query handler" e);
              final := st |}
  | None =>
      match checked (pauseCheck env 0 (phaseA env input st)) with
      | Stop r => Stop r
      | Continue st => Continue (fanOut env input st)
      end
  end.

(** From the aggregation to the end of the valuation phase. *)
Definition throughValuation (env : Env) (input : WorkflowInput.t) (st : State)
    : Step :=
  match checked (pauseCheck env 2 (aggregate input st)) with
  | Stop r => Stop r
  | Continue st =>
      match valuationPhase env input st with
      | (st, Some e) => Stop {| outcome := Aborted e; final := st |}
      | (st, None) => Continue st
      end
  end.

Definition BioValueWorkflow (env : Env) (input : WorkflowInput.t) : Run :=
  match throughFanOut env input with
  | Stop r => r
  | Continue st =>
      match throughValuation env input st with
      | Stop r => r
      | Continue st =>
          match checked (pauseCheck env 4 st) with
          | Stop r => r
          | Continue st =>
              let st := reportPhase env input st in
              {| outcome := Completed (output st); final := st |}
          end
      end
  end.

(** ** pkg/llm and pkg/cache, as the activities use them *)

Module llm.

Record Tool := { Name : string; MCPServer : string }.

(** The user prompt of a request, by the values formatted into its template. *)
Inductive Prompt :=
| FinancialPrompt (ticker reportPath : string)
| PipelinePrompt (ticker : string)
| ClinicalPrompt (ticker : string) (pipeline : DrugPipeline.t)
| MarketPrompt (ticker : string) (pipeline : DrugPipeline.t)
    (clinical : ClinicalAssessment.t)
| ValuationPrompt (ticker : string) (financial : FinancialResult.t)
    (clinical : ClinicalResult.t) (market : MarketResult.t)
| ReportPrompt (input : ReportGeneratorInput.t).

Record InferRequest := {
  TraceID : string;
  AgentID : string;
  UserPrompt : Prompt;
  ImagePaths : list string;
  EnableTools : bool;
  Tools : list Tool
}.

Record InferResponse := {
  RespTraceID : string;
  FinalAnswer : string
}.

Definition dq : string := String (Ascii.ascii_of_nat 34) EmptyString.

(** The body Client.Infer has in the repository: the call to the bridge is
    still to be written, and every request is answered with the same JSON
    object, with the keys status and message. *)
Definition placeholderAnswer : string :=
  "{" +:+ dq +:+ "status" +:+ dq +:+ ": " +:+ dq +:+ "success" +:+ dq +:+ ", "
  +:+ dq +:+ "message" +:+ dq +:+ ": " +:+ dq
  +:+ "This is a placeholder response" +:+ dq +:+ "}".

Definition Infer (req : InferRequest) : result InferResponse :=
  Ok {| RespTraceID := TraceID req; FinalAnswer := placeholderAnswer |}.

End llm.

(** encoding/json for one Go type. *)
Class JSON (T : Type) := {
  Marshal : T -> string;
  Unmarshal : string -> result T
}.

(** What an activity works on: the keys Redis holds at this moment, each
    with its value and the time it has left to live, in nanoseconds (a time
    that is not positive: the key does not expire); the error every Redis
    command fails with while the store is unreachable; the cache hit and
    miss counters; and the requests sent to the LLM client. Redis drops a
    key when its time to live has run out: see [cache.elapse]. *)
Record World := {
  store : gmap string (string * Z);
  cacheError : option error;
  cacheHits : nat;
  cacheMisses : nat;
  llmCalls : list llm.InferRequest
}.

Definition set_store (v : gmap string (string * Z)) (w : World) : World :=
  {| store := v; cacheError := cacheError w; cacheHits := cacheHits w;
     cacheMisses := cacheMisses w; llmCalls := llmCalls w |}.

(** metrics.CacheHitRate.WithLabelValues("get", "hit").Inc() *)
Definition incHit (w : World) : World :=
  {| store := store w; cacheError := cacheError w; cacheHits := S (cacheHits w);
     cacheMisses := cacheMisses w; llmCalls := llmCalls w |}.

(** metrics.CacheHitRate.WithLabelValues("get", "miss").Inc() *)
Definition incMiss (w : World) : World :=
  {| store := store w; cacheError := cacheError w; cacheHits := cacheHits w;
     cacheMisses := S (cacheMisses w); llmCalls := llmCalls w |}.

Definition sent (req : llm.InferRequest) (w : World) : World :=
  {| store := store w; cacheError := cacheError w; cacheHits := cacheHits w;
     cacheMisses := cacheMisses w; llmCalls := llmCalls w ++ [req] |}.

Module cache.

(** RedisCache.Get: the empty string and a nil error for a key Redis does
    not hold (never set, deleted, or expired). *)
Definition Get (w : World) (key : string) : string * option error :=
  match cacheError w with
  | Some e => ("", Some e)
  | None =>
      match store w !! key with
      | Some (value, _) => (value, None)
      | None => ("", None)
      end
  end.

(** RedisCache.Set: the key gets the value and [ttl] to live. The client
    sends no expiry for a [ttl] that is not positive, so that the key does
    not expire (redis.KeepTTL apart, which the repository does not pass:
    every call of Set has a positive constant). *)
Definition Set_ (w : World) (key value : string) (ttl : Z) : option error * World :=
  match cacheError w with
  | Some e => (Some e, w)
  | None => (None, set_store (<[key := (value, ttl)]> (store w)) w)
  end.

(** What is left of an entry after [d] nanoseconds. *)
Definition age (d : Z) (entry : string * Z) : option (string * Z) :=
  let '(value, ttl) := entry in
  if ttl <=? 0 then Some (value, ttl)
  else if d <? ttl then Some (value, ttl - d)
  else None.

(** Redis [d] nanoseconds later, nothing else having written to it: the
    keys whose time to live has run out are gone. *)
Definition elapse (d : Z) (w : World) : World :=
  set_store (omap (age d) (store w)) w.

End cache.

(** time.Hour, in nanoseconds *)
Definition Hour : Z := 3600 * 1000000000.

(** ** internal/activity/activities.go *)

Module Activities.
Section Activities.

(** time.Now() and activity.GetInfo(ctx).WorkflowExecution.RunID during the
    activity, and the LLM client. Heartbeats and duration metrics are left
    out. *)
Context (now : Z) (RunID : string).
Context (Infer : llm.InferRequest -> result llm.InferResponse).
Context {jsonFinancial : JSON FinancialResult.t}
        {jsonPipelineResult : JSON PipelineResult.t}
        {jsonPipelines : JSON (list DrugPipeline.t)}
        {jsonClinical : JSON ClinicalAssessment.t}
        {jsonMarket : JSON MarketAssessment.t}
        {jsonValuation : JSON ValuationResult.t}.

Definition webSearch : list llm.Tool :=
  [{| llm.Name := "web_search"; llm.MCPServer := "mcp-web-search" |}].

Definition financialKey (ticker : string) : string :=
  "company:" +:+ ticker +:+ ":financials".

Definition financialRequest (input : FinancialAuditorInput.t) : llm.InferRequest :=
  {| llm.TraceID := RunID;
     llm.AgentID := "A1_FinancialAuditor";
     llm.UserPrompt :=
       llm.FinancialPrompt (FinancialAuditorInput.Ticker input)
         (FinancialAuditorInput.ReportPath input);
     llm.ImagePaths := [FinancialAuditorInput.ReportPath input];
     llm.EnableTools := false;
     llm.Tools := [] |}.

(** FinancialAuditorActivity *)
Definition FinancialAuditorActivity (input : FinancialAuditorInput.t)
    (w : World) : result FinancialResult.t * World :=
  let cacheKey := financialKey (FinancialAuditorInput.Ticker input) in
  let '(cached, err) := cache.Get w cacheKey in
  let hit := bool_decide (err = None) && negb (String.eqb cached "") in
  let w := if hit then incHit w else w in
  let parsed :=
    if hit then
      match Unmarshal cached with
      | Ok result => Some result
      | Err _ => None
      end
    else None in
  match parsed with
  | Some result => (Ok result, w)
  | None =>
      let w := incMiss w in
      let w := sent (financialRequest input) w in
      match Infer (financialRequest input) with
      | Err e => (Err (Wrap "LLM inference failed" e), w)
      | Ok response =>
          match Unmarshal (llm.FinalAnswer response) with
          | Err e => (Err (Wrap "failed to parse LLM response" e), w)
          | Ok result =>
              let result :=
                {| FinancialResult.Ticker := FinancialAuditorInput.Ticker input;
                   FinancialResult.Metrics := FinancialResult.Metrics result;
                   FinancialResult.HealthScore := FinancialResult.HealthScore result;
                   FinancialResult.RiskWarning := FinancialResult.RiskWarning result;
                   FinancialResult.SourceURL := FinancialResult.SourceURL result;
                   FinancialResult.UpdatedAt := now |} in
              let '(_, w) := cache.Set_ w cacheKey (Marshal result) (24 * Hour) in
              (Ok result, w)
          end
      end
  end.

Definition pipelineKey (ticker : string) : string :=
  "company:" +:+ ticker +:+ ":pipeline:raw".

Definition pipelineRequest (input : PipelineScoutInput.t) : llm.InferRequest :=
  {| llm.TraceID := RunID;
     llm.AgentID := "A2_PipelineScout";
     llm.UserPrompt := llm.PipelinePrompt (PipelineScoutInput.Ticker input);
     llm.ImagePaths := [];
     llm.EnableTools := true;
     llm.Tools := webSearch |}.

(** PipelineScoutActivity: a cached value is used only if it parses and its
    DataAsOf is less than 24 hours old. *)
Definition PipelineScoutActivity (input : PipelineScoutInput.t)
    (w : World) : result PipelineResult.t * World :=
  let cacheKey := pipelineKey (PipelineScoutInput.Ticker input) in
  let '(cached, err) := cache.Get w cacheKey in
  let hit := bool_decide (err = None) && negb (String.eqb cached "") in
  let w := if hit then incHit w else w in
  let fresh :=
    if hit then
      match Unmarshal cached with
      | Ok result =>
          if now - PipelineResult.DataAsOf result <? 24 * Hour then Some result
          else None
      | Err _ => None
      end
    else None in
  match fresh with
  | Some result => (Ok result, w)
  | None =>
      let w := incMiss w in
      let w := sent (pipelineRequest input) w in
      match Infer (pipelineRequest input) with
      | Err e => (Err (Wrap "LLM inference failed" e), w)
      | Ok response =>
          match Unmarshal (llm.FinalAnswer response) with
          | Err e => (Err (Wrap "failed to parse pipeline data" e), w)
          | Ok pipelines =>
              let result :=
                {| PipelineResult.Ticker := PipelineScoutInput.Ticker input;
                   PipelineResult.Pipelines := pipelines;
                   PipelineResult.DataAsOf := now |} in
              let '(_, w) := cache.Set_ w cacheKey (Marshal result) (24 * Hour) in
              (Ok result, w)
          end
      end
  end.

Definition clinicalKey (ticker drug : string) : string :=
  "company:" +:+ ticker +:+ ":pipeline:" +:+ drug +:+ ":clinical".

Definition clinicalRequest (input : ClinicalAssessorInput.t) : llm.InferRequest :=
  {| llm.TraceID := RunID;
     llm.AgentID :=
       "A3_ClinicalAssessor_"
       +:+ DrugPipeline.DrugName (ClinicalAssessorInput.Pipeline input);
     llm.UserPrompt :=
       llm.ClinicalPrompt (ClinicalAssessorInput.Ticker input)
         (ClinicalAssessorInput.Pipeline input);
     llm.ImagePaths := [];
     llm.EnableTools := true;
     llm.Tools := webSearch |}.

(** ClinicalAssessorActivity *)
Definition ClinicalAssessorActivity (input : ClinicalAssessorInput.t)
    (w : World) : result ClinicalAssessment.t * World :=
  let pipeline := ClinicalAssessorInput.Pipeline input in
  let cacheKey :=
    clinicalKey (ClinicalAssessorInput.Ticker input) (DrugPipeline.DrugName pipeline) in
  let '(cached, err) := cache.Get w cacheKey in
  let hit := bool_decide (err = None) && negb (String.eqb cached "") in
  let parsed :=
    if hit then
      match Unmarshal cached with
      | Ok result => Some result
      | Err _ => None
      end
    else None in
  match parsed with
  | Some result => (Ok result, incHit w)
  | None =>
      let w := incMiss w in
      let w := sent (clinicalRequest input) w in
      match Infer (clinicalRequest input) with
      | Err e =>
          (Err (Wrap ("LLM inference failed for " +:+ DrugPipeline.DrugName pipeline) e),
           w)
      | Ok response =>
          match Unmarshal (llm.FinalAnswer response) with
          | Err e =>
              (Err (Wrap ("failed to parse clinical assessment for "
                          +:+ DrugPipeline.DrugName pipeline) e), w)
          | Ok result =>
              let result :=
                {| ClinicalAssessment.DrugName := DrugPipeline.DrugName pipeline;
                   ClinicalAssessment.Target := DrugPipeline.Target pipeline;
                   ClinicalAssessment.Indication := DrugPipeline.Indication pipeline;
                   ClinicalAssessment.Phase := DrugPipeline.Phase pipeline;
                   ClinicalAssessment.POSScore := ClinicalAssessment.POSScore result;
                   ClinicalAssessment.CompetitiveLandscape :=
                     ClinicalAssessment.CompetitiveLandscape result;
                   ClinicalAssessment.ClinicalAdvantage :=
                     ClinicalAssessment.ClinicalAdvantage result;
                   ClinicalAssessment.Rating := ClinicalAssessment.Rating result;
                   ClinicalAssessment.KeyCompetitors :=
                     ClinicalAssessment.KeyCompetitors result;
                   ClinicalAssessment.DataSources :=
                     ClinicalAssessment.DataSources result |} in
              let '(_, w) := cache.Set_ w cacheKey (Marshal result) (12 * Hour) in
              (Ok result, w)
          end
      end
  end.

Definition marketKey (ticker drug : string) : string :=
  "company:" +:+ ticker +:+ ":pipeline:" +:+ drug +:+ ":market".

Definition marketRequest (input : MarketStrategistInput.t) : llm.InferRequest :=
  {| llm.TraceID := RunID;
     llm.AgentID :=
       "A4_A5_MarketStrategist_"
       +:+ DrugPipeline.DrugName (MarketStrategistInput.Pipeline input);
     llm.UserPrompt :=
       llm.MarketPrompt (MarketStrategistInput.Ticker input)
         (MarketStrategistInput.Pipeline input)
         (MarketStrategistInput.Clinical input);
     llm.ImagePaths := [];
     llm.EnableTools := true;
     llm.Tools := webSearch |}.

(** MarketStrategistActivity *)
Definition MarketStrategistActivity (input : MarketStrategistInput.t)
    (w : World) : result MarketAssessment.t * World :=
  let pipeline := MarketStrategistInput.Pipeline input in
  let cacheKey :=
    marketKey (MarketStrategistInput.Ticker input) (DrugPipeline.DrugName pipeline) in
  let '(cached, err) := cache.Get w cacheKey in
  let hit := bool_decide (err = None) && negb (String.eqb cached "") in
  let parsed :=
    if hit then
      match Unmarshal cached with
      | Ok result => Some result
      | Err _ => None
      end
    else None in
  match parsed with
  | Some result => (Ok result, incHit w)
  | None =>
      let w := incMiss w in
      let w := sent (marketRequest input) w in
      match Infer (marketRequest input) with
      | Err e =>
          (Err (Wrap ("LLM inference failed for " +:+ DrugPipeline.DrugName pipeline) e),
           w)
      | Ok response =>
          match Unmarshal (llm.FinalAnswer response) with
          | Err e =>
              (Err (Wrap ("failed to parse market assessment for "
                          +:+ DrugPipeline.DrugName pipeline) e), w)
          | Ok result =>
              let result :=
                {| MarketAssessment.DrugName := DrugPipeline.DrugName pipeline;
                   MarketAssessment.Target := DrugPipeline.Target pipeline;
                   MarketAssessment.Indication := DrugPipeline.Indication pipeline;
                   MarketAssessment.Domestic := MarketAssessment.Domestic result;
                   MarketAssessment.BDOutlook := MarketAssessment.BDOutlook result;
                   MarketAssessment.RiskAdjustedRevenue :=
                     MarketAssessment.RiskAdjustedRevenue result;
                   MarketAssessment.Assumptions :=
                     MarketAssessment.Assumptions result |} in
              let '(_, w) := cache.Set_ w cacheKey (Marshal result) (6 * Hour) in
              (Ok result, w)
          end
      end
  end.

Definition valuationRequest (input : ValuationActuaryInput.t) : llm.InferRequest :=
  {| llm.TraceID := RunID;
     llm.AgentID := "A7_ValuationActuary";
     llm.UserPrompt :=
       llm.ValuationPrompt (ValuationActuaryInput.Ticker input)
         (ValuationActuaryInput.Financial input)
         (ValuationActuaryInput.Clinical input)
         (ValuationActuaryInput.Market input);
     llm.ImagePaths := [];
     llm.EnableTools := true;
     llm.Tools :=
       [{| llm.Name := "code_execute"; llm.MCPServer := "sandbox-fusion" |}] |}.

(** ValuationActuaryActivity: no cache; the decoded answer is returned as it
    is. *)
Definition ValuationActuaryActivity (input : ValuationActuaryInput.t)
    (w : World) : result ValuationResult.t * World :=
  let w := sent (valuationRequest input) w in
  match Infer (valuationRequest input) with
  | Err e => (Err (Wrap "LLM inference failed" e), w)
  | Ok response =>
      match Unmarshal (llm.FinalAnswer response) with
      | Err e => (Err (Wrap "failed to parse valuation result" e), w)
      | Ok result => (Ok result, w)
      end
  end.

End Activities.
End Activities.

(** ** Specification vocabulary *)

(** The steps added to a fresh Saga, in the order of the list. *)
Definition addAll (added : list CompensationStep) : SagaCompensation :=
  foldl (fun s step => AddCompensation s (Name step) (Fn step))
    NewSagaCompensation added.

(** What one step of Execute appends when it runs from history [h]: the
    step's own events, then the notification if the step failed. *)
Definition stepSegment (step : CompensationStep) (h : History) : list Event :=
  (Fn step h).2 ++
  match (Fn step h).1 with
  | Some e => [ExecuteActivity (NotifyCompensationFailureCall (Name step) (Error e))]
  | None => []
  end.

(** [h'] extends [h] by one segment per step of [l], in the order of [l],
    each step run from the history the steps before it left. *)
Definition ranInOrder (l : list CompensationStep) (h h' : History) : Prop :=
  exists segs : list (list Event),
    h' = h ++ concat segs /\
    length segs = length l /\
    forall i step, l !! i = Some step ->
      segs !! i = Some (stepSegment step (h ++ concat (take i segs))).

(** The seven phases of the default-POS table. *)
Definition knownPhases : list string :=
  ["Preclinical"; "Phase1"; "Phase1_2"; "Phase2"; "Phase2_3"; "Phase3"; "Approved"].

(** The results of the futures that resolved without error. *)
Definition succeeded {T} (futures : list (result T)) : list T :=
  omap (fun f => match f with Ok r => Some r | Err _ => None end) futures.

(** The futures of the per-pipeline child workflows of a run, by index. *)
Definition analysisFutures (env : Env) (input : WorkflowInput.t)
    (ps : list DrugPipeline.t) : list (result PipelineAnalysisResult.t) :=
  imap (analysisFuture env input) ps.

(** The marker the callback of a future writes. *)
Definition marker {T} (future : result T) : string :=
  match future with
  | Ok _ => "completed"
  | Err _ => "failed"
  end.

(** The variables that nothing arriving from outside writes: all but the
    pause flag, the state of the listening coroutine and the cancellation. *)
Definition unsignalled (st : State) :=
  (saga st, currentAgent st, completedSteps st, pipelineProgress st,
   financialResult st, pipelineResult st, pipelineAnalyses st,
   clinicalResult st, marketResult st, valuationResult st, output st,
   history st).



(** A task that is a batch of signals. *)
Definition isSignals (a : Arrival) : Prop :=
  match a with
  | Signals _ => True
  | Cancellation => False
  end.

(** The error [e] wrapped by fmt.Errorf once per message of [msgs], the
    first message outermost. *)
Definition wrapChain (msgs : list string) (e : error) : error :=
  foldr Wrap e msgs.

(** The variables the fan-in loop does not write. *)
Definition uncollected (st : State) :=
  (saga st, currentAgent st, isPaused st, listening st, cancelled st,
   financialResult st, pipelineResult st, clinicalResult st, marketResult st,
   valuationResult st, output st, history st).

(** The state in which the fan-in loop starts. *)
Definition launched (env : Env) (input : WorkflowInput.t) (st : State) : State :=
  let ps := PipelineResult.Pipelines (pipelineResult st) in
  set_pipelineAnalyses []
    (set_history
       (history st ++
        imap (fun j p =>
                ExecuteChildWorkflow (analysisWorkflowID env input j)
                  (PipelineAnalysisChild (analysisInput input p))) ps)
       (set_pipelineProgress
          (foldl (fun m p => <[DrugPipeline.DrugName p := "in_progress"]> m)
             (initProgress ps (pipelineProgress st)) ps)
          (set_currentAgent "PipelineAnalysis" st))).

(** From [st] to [st'] at most [k] completed steps were added, and the
    PipelineResult is the same. *)
Definition addsAtMost (k : nat) (st st' : State) : Prop :=
  (length (completedSteps st') <= length (completedSteps st) + k)%nat /\
  pipelineResult st' = pipelineResult st.

(** The progress query, asked in state [st]. *)
Definition progressOf (st : State) : ProgressInfo.t := (progressQuery st).1.1.

(** What a cacheable activity computes when it does not answer from the
    cache: it asks the LLM client and decodes the final answer, and [build]
    makes the result of the decoded answer; an error of the client or of
    the decoding is returned wrapped in the activity's message for it. *)
Definition recomputed {I A T : Type} `{!JSON A}
    (Infer : llm.InferRequest -> result llm.InferResponse)
    (request : I -> llm.InferRequest) (inferMsg parseMsg : I -> string)
    (build : I -> A -> T) (input : I) : result T :=
  match Infer (request input) with
  | Err e => Err (Wrap (inferMsg input) e)
  | Ok response =>
      match Unmarshal (llm.FinalAnswer response) with
      | Err e => Err (Wrap (parseMsg input) e)
      | Ok answer => Ok (build input answer)
      end
  end.

(** The result of the financial audit for a decoded answer: the answer, with
    the ticker of the input and the current time. *)
Definition financialOf (now : Z) (input : FinancialAuditorInput.t)
    (answer : FinancialResult.t) : FinancialResult.t :=
  {| FinancialResult.Ticker := FinancialAuditorInput.Ticker input;
     FinancialResult.Metrics := FinancialResult.Metrics answer;
     FinancialResult.HealthScore := FinancialResult.HealthScore answer;
     FinancialResult.RiskWarning := FinancialResult.RiskWarning answer;
     FinancialResult.SourceURL := FinancialResult.SourceURL answer;
     FinancialResult.UpdatedAt := now |}.

(** The result of the pipeline scan for a decoded list of pipelines. *)
Definition scanOf (now : Z) (input : PipelineScoutInput.t)
    (pipelines : list DrugPipeline.t) : PipelineResult.t :=
  {| PipelineResult.Ticker := PipelineScoutInput.Ticker input;
     PipelineResult.Pipelines := pipelines;
     PipelineResult.DataAsOf := now |}.

(** The clinical assessment for a decoded answer: the answer, with the name,
    target, indication and phase of the pipeline of the input. *)
Definition clinicalOf (input : ClinicalAssessorInput.t)
    (answer : ClinicalAssessment.t) : ClinicalAssessment.t :=
  let pipeline := ClinicalAssessorInput.Pipeline input in
  {| ClinicalAssessment.DrugName := DrugPipeline.DrugName pipeline;
     ClinicalAssessment.Target := DrugPipeline.Target pipeline;
     ClinicalAssessment.Indication := DrugPipeline.Indication pipeline;
     ClinicalAssessment.Phase := DrugPipeline.Phase pipeline;
     ClinicalAssessment.POSScore := ClinicalAssessment.POSScore answer;
     ClinicalAssessment.CompetitiveLandscape :=
       ClinicalAssessment.CompetitiveLandscape answer;
     ClinicalAssessment.ClinicalAdvantage :=
       ClinicalAssessment.ClinicalAdvantage answer;
     ClinicalAssessment.Rating := ClinicalAssessment.Rating answer;
     ClinicalAssessment.KeyCompetitors := ClinicalAssessment.KeyCompetitors answer;
     ClinicalAssessment.DataSources := ClinicalAssessment.DataSources answer |}.

(** The market assessment for a decoded answer: the answer, with the name,
    target and indication of the pipeline of the input. *)
Definition marketOf (input : MarketStrategistInput.t)
    (answer : MarketAssessment.t) : MarketAssessment.t :=
  let pipeline := MarketStrategistInput.Pipeline input in
  {| MarketAssessment.DrugName := DrugPipeline.DrugName pipeline;
     MarketAssessment.Target := DrugPipeline.Target pipeline;
     MarketAssessment.Indication := DrugPipeline.Indication pipeline;
     MarketAssessment.Domestic := MarketAssessment.Domestic answer;
     MarketAssessment.BDOutlook := MarketAssessment.BDOutlook answer;
     MarketAssessment.RiskAdjustedRevenue :=
       MarketAssessment.RiskAdjustedRevenue answer;
     MarketAssessment.Assumptions := MarketAssessment.Assumptions answer |}.

(** The messages of the four activities for a failed inference and for an
    answer that does not decode. *)
Definition plainInferMsg {I : Type} (input : I) : string := "LLM inference failed".

Definition financialParseMsg (input : FinancialAuditorInput.t) : string :=
  "failed to parse LLM response".

Definition pipelineParseMsg (input : PipelineScoutInput.t) : string :=
  "failed to parse pipeline data".

Definition clinicalInferMsg (input : ClinicalAssessorInput.t) : string :=
  "LLM inference failed for "
  +:+ DrugPipeline.DrugName (ClinicalAssessorInput.Pipeline input).

Definition clinicalParseMsg (input : ClinicalAssessorInput.t) : string :=
  "failed to parse clinical assessment for "
  +:+ DrugPipeline.DrugName (ClinicalAssessorInput.Pipeline input).

Definition marketInferMsg (input : MarketStrategistInput.t) : string :=
  "LLM inference failed for "
  +:+ DrugPipeline.DrugName (MarketStrategistInput.Pipeline input).

Definition marketParseMsg (input : MarketStrategistInput.t) : string :=
  "failed to parse market assessment for "
  +:+ DrugPipeline.DrugName (MarketStrategistInput.Pipeline input).

(** The keys of the four activities, by input. *)
Definition financialKeyOf (input : FinancialAuditorInput.t) : string :=
  Activities.financialKey (FinancialAuditorInput.Ticker input).

Definition pipelineKeyOf (input : PipelineScoutInput.t) : string :=
  Activities.pipelineKey (PipelineScoutInput.Ticker input).

Definition clinicalKeyOf (input : ClinicalAssessorInput.t) : string :=
  Activities.clinicalKey (ClinicalAssessorInput.Ticker input)
    (DrugPipeline.DrugName (ClinicalAssessorInput.Pipeline input)).

Definition marketKeyOf (input : MarketStrategistInput.t) : string :=
  Activities.marketKey (MarketStrategistInput.Ticker input)
    (DrugPipeline.DrugName (MarketStrategistInput.Pipeline input)).

(** A cacheable activity treats a cached value that does not parse as a
    miss: on a store that answers and holds such a value under the
    activity's key, the activity sends its request to the LLM client and
    returns the result recomputed from the client's answer, [recompute
    input], which is also what it returns when the key is absent; so it
    fails only if the inference or the decoding of the answer fails, and
    never returns the cached value. On success it leaves the new result
    under the key, with [ttl] to live; on failure it leaves the store as it
    is. *)
Definition missOnCorruption {I T : Type} `{!JSON T}
    (activity : I -> World -> result T * World) (key : I -> string)
    (request : I -> llm.InferRequest) (recompute : I -> result T) (ttl : Z)
    : Prop :=
  forall (input : I) (w : World) (cached : string) (ttl0 : Z) (e : error),
    cacheError w = None ->
    store w !! key input = Some (cached, ttl0) ->
    Unmarshal (T := T) cached = Err e ->
    let miss := set_store (delete (key input) (store w)) w in
    (activity input w).1 = recompute input /\
    (activity input w).1 = (activity input miss).1 /\
    llmCalls (activity input w).2 = llmCalls w ++ [request input] /\
    (forall v, (activity input w).1 = Ok v ->
       store (activity input w).2 = <[key input := (Marshal v, ttl)]> (store w)) /\
    (forall e', (activity input w).1 = Err e' ->
       store (activity input w).2 = store w).

(** The drugs of the PipelineResult whose progress marker is failed. *)
Definition failedDrugs (st : State) : list DrugPipeline.t :=
  filter (fun p => pipelineProgress st !! DrugPipeline.DrugName p = Some "failed")
    (PipelineResult.Pipelines (pipelineResult st)).

(** The drug names of the progress map whose marker is failed. *)
Definition failedMarkers (st : State) : gmap string string :=
  filter (fun kv => kv.2 = "failed") (pipelineProgress st).

(** ** Concrete runs *)

Definition drug (name indication phase : string) : DrugPipeline.t :=
  {| DrugPipeline.DrugName := name; DrugPipeline.Target := "PD-1";
     DrugPipeline.Indication := indication; DrugPipeline.Phase := phase;
     DrugPipeline.Modality := "antibody"; DrugPipeline.NCTID := "" |}.

Definition sampleInput : WorkflowInput.t :=
  {| WorkflowInput.Ticker := "BGNE"; WorkflowInput.ReportPath := "/r/bgne.pdf";
     WorkflowInput.Options := ∅ |}.

Definition sampleClinical (i : ClinicalAssessorInput.t) : ClinicalAssessment.t :=
  let p := ClinicalAssessorInput.Pipeline i in
  {| ClinicalAssessment.DrugName := DrugPipeline.DrugName p;
     ClinicalAssessment.Target := DrugPipeline.Target p;
     ClinicalAssessment.Indication := DrugPipeline.Indication p;
     ClinicalAssessment.Phase := DrugPipeline.Phase p;
     ClinicalAssessment.POSScore := 0.45;
     ClinicalAssessment.CompetitiveLandscape := "crowded";
     ClinicalAssessment.ClinicalAdvantage := "safety";
     ClinicalAssessment.Rating := "MeToo";
     ClinicalAssessment.KeyCompetitors := [];
     ClinicalAssessment.DataSources := [] |}.

Definition sampleMarket (i : MarketStrategistInput.t) : MarketAssessment.t :=
  let p := MarketStrategistInput.Pipeline i in
  {| MarketAssessment.DrugName := DrugPipeline.DrugName p;
     MarketAssessment.Target := DrugPipeline.Target p;
     MarketAssessment.Indication := DrugPipeline.Indication p;
     MarketAssessment.Domestic := MarketForecast.zero;
     MarketAssessment.BDOutlook := BDForecast.zero;
     MarketAssessment.RiskAdjustedRevenue := 120.5;
     MarketAssessment.Assumptions := [] |}.

(** Both activities of a child workflow succeed. *)
Definition workingActivities : PipelineActivities :=
  {| ClinicalAssessorOutcome := fun i => Ok (sampleClinical i);
     MarketStrategistOutcome := fun i => Ok (sampleMarket i) |}.

(** The clinical activity exhausts its retries; the market activity works. *)
Definition clinicalDown : PipelineActivities :=
  {| ClinicalAssessorOutcome := fun _ => Err (New DeadlineExceeded);
     MarketStrategistOutcome := fun i => Ok (sampleMarket i) |}.

(** A run in which the scout finds the pipelines [ps], every activity and
    both kinds of child workflow function work, the i-th per-pipeline child
    execution fails as [failure i] says, the selector delivers as [picks]
    says, and no signal arrives. *)
Definition runWith (ps : list DrugPipeline.t) (failure : nat -> option error)
    (picks : list nat) (valuation : result ValuationResult.t) : Env :=
  {| RunID := "run-1";
     Now := 1767225600;
     SetQueryHandlerError := None;
     FinancialAuditorOutcome := fun _ => Ok FinancialResult.zero;
     PipelineScoutOutcome := fun i =>
       Ok {| PipelineResult.Ticker := PipelineScoutInput.Ticker i;
             PipelineResult.Pipelines := ps;
             PipelineResult.DataAsOf := 1767225000 |};
     financialFirst := true;
     childActivities := fun _ => workingActivities;
     childFailure := failure;
     selectorPicks := picks;
     ValuationActuaryOutcome := fun _ => valuation;
     valuationFailure := None;
     ChildWorkflowError := temporal.ChildWorkflowExecutionError;
     ReportGeneratorOutcome := fun _ => Ok ReportResult.zero;
     CleanupCacheOutcome := fun _ _ => None;
     arrivals := fun _ => [] |}.

Definition noFailure : nat -> option error := fun _ => None.

(** Every child workflow execution works, whatever the pipelines. *)
Definition happyRun (ps : list DrugPipeline.t) : Env :=
  runWith ps noFailure [] (Ok ValuationResult.zero).

(** The same drug in two indications: the first child workflow execution
    times out, the second one works; the selector delivers them in this
    order. *)
Definition twoIndications : list DrugPipeline.t :=
  [drug "DrugA" "NSCLC" "Phase3"; drug "DrugA" "HCC" "Phase2"].

Definition firstChildFails : nat -> option error :=
  fun i => match i with
           | O => Some (Other "child workflow execution timed out")
           | S _ => None
           end.

Definition duplicateNameRun : Env :=
  runWith twoIndications firstChildFails [0%nat; 0%nat] (Ok ValuationResult.zero).

(** Two drugs with distinct names, the first child execution failing. *)
Definition twoDrugs : list DrugPipeline.t :=
  [drug "DrugA" "NSCLC" "Phase3"; drug "DrugB" "BC" "Phase2"].

Definition distinctNameRun : Env :=
  runWith twoDrugs firstChildFails [1%nat; 0%nat] (Ok ValuationResult.zero).

(** The error ValuationActuaryActivity returns when the LLM client reports
    an invalid configuration: in the process of the activity, ClassifyError
    puts it at L3. *)
Definition fatalInActivity : error :=
  Wrap "LLM inference failed" (New ErrConfigInvalid).

(** The valuation activity fails with that error; the valuation child
    workflow gets it from the future of the activity and returns it. *)
Definition valuationFatalRun : Env :=
  runWith twoDrugs noFailure [] (Err (temporal.ActivityError fatalInActivity)).

(** The registration of the query handler fails. *)
Definition queryHandlerFailsRun : Env :=
  {| RunID := "run-1";
     Now := 1767225600;
     SetQueryHandlerError := Some (Other "query handler rejected");
     FinancialAuditorOutcome := fun _ => Ok FinancialResult.zero;
     PipelineScoutOutcome := fun _ => Ok PipelineResult.zero;
     financialFirst := true;
     childActivities := fun _ => workingActivities;
     childFailure := noFailure;
     selectorPicks := [];
     ValuationActuaryOutcome := fun _ => Ok ValuationResult.zero;
     valuationFailure := None;
     ChildWorkflowError := temporal.ChildWorkflowExecutionError;
     ReportGeneratorOutcome := fun _ => Ok ReportResult.zero;
     CleanupCacheOutcome := fun _ _ => None;
     arrivals := fun _ => [] |}.

(** The signals of the intervention channel. *)
Definition signalOf (type_ : string) : InterventionSignal.t :=
  {| InterventionSignal.Type_ := type_; InterventionSignal.AgentID := "";
     InterventionSignal.Data := ∅ |}.

(** A run of [happyRun] on [twoDrugs] that is paused during the parallel
    phase; at the first pause check one task brings a resume followed by a
    pause, and the next task a resume. *)
Definition pausedRun : Env :=
  {| RunID := "run-1";
     Now := 1767225600;
     SetQueryHandlerError := None;
     FinancialAuditorOutcome := fun _ => Ok FinancialResult.zero;
     PipelineScoutOutcome := fun i =>
       Ok {| PipelineResult.Ticker := PipelineScoutInput.Ticker i;
             PipelineResult.Pipelines := twoDrugs;
             PipelineResult.DataAsOf := 1767225000 |};
     financialFirst := true;
     childActivities := fun _ => workingActivities;
     childFailure := noFailure;
     selectorPicks := [];
     ValuationActuaryOutcome := fun _ => Ok ValuationResult.zero;
     valuationFailure := None;
     ChildWorkflowError := temporal.ChildWorkflowExecutionError;
     ReportGeneratorOutcome := fun _ => Ok ReportResult.zero;
     CleanupCacheOutcome := fun _ _ => None;
     arrivals := fun k =>
       match k with
       | 0%nat => [Signals [signalOf "pause"]]
       | 1%nat => [Signals [signalOf "resume"; signalOf "pause"];
                   Signals [signalOf "resume"]]
       | _ => []
       end |}.

(** The same run, cancelled instead of resumed: at the first pause check a
    cancel signal arrives, then a resume signal, then the cancellation of
    the workflow. *)
Definition cancelledWhilePausedRun : Env :=
  {| RunID := "run-1";
     Now := 1767225600;
     SetQueryHandlerError := None;
     FinancialAuditorOutcome := fun _ => Ok FinancialResult.zero;
     PipelineScoutOutcome := fun i =>
       Ok {| PipelineResult.Ticker := PipelineScoutInput.Ticker i;
             PipelineResult.Pipelines := twoDrugs;
             PipelineResult.DataAsOf := 1767225000 |};
     financialFirst := true;
     childActivities := fun _ => workingActivities;
     childFailure := noFailure;
     selectorPicks := [];
     ValuationActuaryOutcome := fun _ => Ok ValuationResult.zero;
     valuationFailure := None;
     ChildWorkflowError := temporal.ChildWorkflowExecutionError;
     ReportGeneratorOutcome := fun _ => Ok ReportResult.zero;
     CleanupCacheOutcome := fun _ _ => None;
     arrivals := fun k =>
       match k with
       | 0%nat => [Signals [signalOf "pause"]]
       | 1%nat => [Signals [signalOf "cancel"]; Signals [signalOf "resume"];
                   Cancellation]
       | _ => []
       end |}.

(** Three compensation steps; the second one fails. *)
Definition stepA : CompensationStep :=
  {| Name := "a";
     Fn := fun _ => (None, [ExecuteActivity (CleanupCacheCall "BGNE" "a")]) |}.
Definition stepB : CompensationStep :=
  {| Name := "b";
     Fn := fun _ => (Some (New ErrCacheUnavailable),
                     [ExecuteActivity (CleanupCacheCall "BGNE" "b")]) |}.
Definition stepC : CompensationStep :=
  {| Name := "c";
     Fn := fun _ => (None, [ExecuteActivity (CleanupCacheCall "BGNE" "c")]) |}.

(** encoding/json on the placeholder answer of the LLM client, for a struct
    none of whose fields is named status or message: the keys are ignored,
    the struct keeps its zero value and the error is nil. Any other text is
    taken not to parse. *)
Definition unmarshalPlaceholder {T} (zero : T) (s : string) : result T :=
  if String.eqb s llm.placeholderAnswer then Ok zero
  else Err (Other "invalid character looking for beginning of value").

Definition placeholderJSON {T} (zero : T) : JSON T :=
  {| Marshal := fun _ => llm.placeholderAnswer;
     Unmarshal := unmarshalPlaceholder zero |}.

(** A JSON array is not decoded from a JSON object. *)
Definition pipelinesJSON : JSON (list DrugPipeline.t) :=
  {| Marshal := fun _ => "[]";
     Unmarshal := fun s =>
       if String.eqb s "[]" then Ok []
       else Err (Other "json: cannot unmarshal object into Go value") |}.

Definition sampleValuationInput : ValuationActuaryInput.t :=
  {| ValuationActuaryInput.Ticker := "BGNE";
     ValuationActuaryInput.Financial := FinancialResult.zero;
     ValuationActuaryInput.Clinical := ClinicalResult.zero;
     ValuationActuaryInput.Market := MarketResult.zero |}.

Definition emptyWorld : World :=
  {| store := ∅; cacheError := None; cacheHits := 0; cacheMisses := 0;
     llmCalls := [] |}.

(** A store in which the four cacheable artifacts of BGNE and DrugA hold
    bytes that do not parse. *)
Definition corruptedWorld : World :=
  {| store :=
       <["company:BGNE:financials" := ("corrupted", 24 * Hour)]>
       (<["company:BGNE:pipeline:raw" := ("corrupted", 24 * Hour)]>
       (<["company:BGNE:pipeline:DrugA:clinical" := ("corrupted", 12 * Hour)]>
       (<["company:BGNE:pipeline:DrugA:market" := ("corrupted", 6 * Hour)]> ∅)));
     cacheError := None; cacheHits := 0; cacheMisses := 0; llmCalls := [] |}.

(** The six codecs of the activities, as encoding/json behaves on the
    placeholder answer. *)
Definition sampleNow : Z := 1767225600.

Definition stubValuation (input : ValuationActuaryInput.t)
    : result ValuationResult.t :=
  (Activities.ValuationActuaryActivity (jsonValuation := placeholderJSON ValuationResult.zero)
     "run-1" llm.Infer input emptyWorld).1.

(** A run without pipelines in which the valuation activity is the
    repository's, on top of its placeholder LLM client. *)
Definition placeholderRun : Env :=
  {| RunID := "run-1";
     Now := sampleNow;
     SetQueryHandlerError := None;
     FinancialAuditorOutcome := fun _ => Ok FinancialResult.zero;
     PipelineScoutOutcome := fun _ =>
       Err (Wrap "failed to parse pipeline data"
              (Other "json: cannot unmarshal object into Go value"));
     financialFirst := true;
     childActivities := fun _ => workingActivities;
     childFailure := noFailure;
     selectorPicks := [];
     ValuationActuaryOutcome := stubValuation;
     valuationFailure := None;
     ChildWorkflowError := temporal.ChildWorkflowExecutionError;
     ReportGeneratorOutcome := fun _ => Ok ReportResult.zero;
     CleanupCacheOutcome := fun _ _ => None;
     arrivals := fun _ => [] |}.

Definition sampleFinancialInput : FinancialAuditorInput.t :=
  {| FinancialAuditorInput.Ticker := "BGNE";
     FinancialAuditorInput.ReportPath := "/r/bgne.pdf" |}.

Definition sampleClinicalInput : ClinicalAssessorInput.t :=
  {| ClinicalAssessorInput.Ticker := "BGNE";
     ClinicalAssessorInput.Pipeline := drug "DrugA" "NSCLC" "Phase3" |}.

(** A valuation input with one clinical assessment, of pos_score 0.45. *)
Definition valuationInputWithClinical : ValuationActuaryInput.t :=
  {| ValuationActuaryInput.Ticker := "BGNE";
     ValuationActuaryInput.Financial := FinancialResult.zero;
     ValuationActuaryInput.Clinical :=
       {| ClinicalResult.Ticker := "BGNE";
          ClinicalResult.Assessments := [sampleClinical sampleClinicalInput];
          ClinicalResult.UpdatedAt := 0 |};
     ValuationActuaryInput.Market := MarketResult.zero |}.

(** ** Further specification vocabulary *)

(** The part of the output the phases after the aggregation do not touch. *)
Definition aggregated (o : WorkflowOutput.t) :=
  (WorkflowOutput.Ticker o, WorkflowOutput.Financial o, WorkflowOutput.Pipeline o,
   WorkflowOutput.PipelineAnalyses o, WorkflowOutput.Clinical o,
   WorkflowOutput.Market o, WorkflowOutput.TraceID o).


(** ** pkg/errors, the rest of the package *)

(** ErrorLevel.String *)
Definition ErrorLevel_String (l : ErrorLevel) : string :=
  if l =? L1Recoverable then "L1_RECOVERABLE"
  else if l =? L2Intervention then "L2_INTERVENTION"
  else if l =? L3Fatal then "L3_FATAL"
  else "UNKNOWN".

(** A [*ClassifiedError] as an error value. *)
Definition toError (c : ClassifiedError) : error :=
  Classified (Level c) (Code c) (Message c) (Cause c) (Retryable c)
    (MaxRetries c) (Metadata c).

(** NewClassifiedError: the fields it does not set keep their zero value. *)
Definition NewClassifiedError (level : ErrorLevel) (code message : string)
    (cause : option error) : ClassifiedError :=
  {| Level := level; Code := code; Message := message; Cause := cause;
     Retryable := false; MaxRetries := 0; Metadata := [] |}.


(** ** internal/activity, the report and notification activities *)

(** extractKeyRisks: the content is not looked at. *)
Definition extractKeyRisks (content : string) : list string :=
  ["临床试验失败风险"; "市场竞争风险"; "融资风险"; "监管审批风险"].

(** extractRecommendation: the content is not looked at. *)
Definition extractRecommendation (content : string) : string := "持有".

Definition reportKey (ticker : string) : string :=
  "company:" +:+ ticker +:+ ":report:final".

Definition reportRequest (RunID : string) (input : ReportGeneratorInput.t)
    : llm.InferRequest :=
  {| llm.TraceID := RunID;
     llm.AgentID := "A6_ReportGenerator";
     llm.UserPrompt := llm.ReportPrompt input;
     llm.ImagePaths := [];
     llm.EnableTools := false;
     llm.Tools := [] |}.

(** ReportGeneratorActivity: no cache read; the answer is the report; the
    result is stored for seven days, a failure to store it being ignored. *)
Definition ReportGeneratorActivity (now : Z) (RunID : string)
    (Infer : llm.InferRequest -> result llm.InferResponse)
    {jsonReport : JSON ReportResult.t}
    (input : ReportGeneratorInput.t) (w : World)
    : result ReportResult.t * World :=
  let w := sent (reportRequest RunID input) w in
  match Infer (reportRequest RunID input) with
  | Err e => (Err (Wrap "LLM inference failed" e), w)
  | Ok response =>
      let result :=
        {| ReportResult.Ticker := ReportGeneratorInput.Ticker input;
           ReportResult.MarkdownContent := llm.FinalAnswer response;
           ReportResult.KeyRisks := extractKeyRisks (llm.FinalAnswer response);
           ReportResult.Recommendation :=
             extractRecommendation (llm.FinalAnswer response);
           ReportResult.GeneratedAt := now |} in
      let '(_, w) :=
        cache.Set_ w (reportKey (ReportGeneratorInput.Ticker input))
          (Marshal result) (7 * 24 * Hour) in
      (Ok result, w)
  end.

(** NotifyCompensationFailure: logs, and returns nil. *)
Definition NotifyCompensationFailure (stepName errorMsg : string) (w : World)
    : option error * World :=
  (None, w).

(** ** Further vocabulary for the cacheable activities *)

(** The same world with an empty store that answers. *)
Definition emptied (w : World) : World :=
  {| store := ∅; cacheError := None; cacheHits := cacheHits w;
     cacheMisses := cacheMisses w; llmCalls := llmCalls w |}.

(** An activity does not fail because the cache is unreachable: it returns
    what it returns on an empty store, sends its request to the LLM client,
    and leaves the store as it is. *)
Definition bypassesDeadCache {I T : Type}
    (activity : I -> World -> result T * World)
    (request : I -> llm.InferRequest) : Prop :=
  forall (input : I) (w : World) (e : error),
    cacheError w = Some e ->
    (activity input w).1 = (activity input (emptied w)).1 /\
    llmCalls (activity input w).2 = llmCalls w ++ [request input] /\
    store (activity input w).2 = store w /\
    cacheHits (activity input w).2 = cacheHits w.

(** An activity serves a cached value that parses (and is [fresh]): it
    returns it as it is, without a request to the LLM client and without
    writing to the store, and counts one hit. *)
Definition servesFromCache {I T : Type} `{!JSON T}
    (activity : I -> World -> result T * World) (key : I -> string)
    (fresh : T -> Prop) : Prop :=
  forall (input : I) (w : World) (cached : string) (ttl0 : Z) (v : T),
    cacheError w = None ->
    store w !! key input = Some (cached, ttl0) ->
    cached <> "" ->
    Unmarshal (T := T) cached = Ok v ->
    fresh v ->
    (activity input w).1 = Ok v /\
    llmCalls (activity input w).2 = llmCalls w /\
    store (activity input w).2 = store w /\
    cacheHits (activity input w).2 = S (cacheHits w) /\
    cacheMisses (activity input w).2 = cacheMisses w.

(** A failing activity has asked the LLM client and writes nothing to the
    store, whatever the state of the cache; its error is the error of the
    inference, or else of the decoding of the answer (to the type [A]),
    wrapped in the activity's message for it, and ClassifyError gives it the
    level of that cause. *)
Definition failsWithoutCaching {I T : Type} (A : Type) `{!JSON A}
    (Infer : llm.InferRequest -> result llm.InferResponse)
    (activity : I -> World -> result T * World)
    (request : I -> llm.InferRequest) (inferMsg parseMsg : I -> string)
    : Prop :=
  forall (input : I) (w : World) (e : error),
    (activity input w).1 = Err e ->
    store (activity input w).2 = store w /\
    llmCalls (activity input w).2 = llmCalls w ++ [request input] /\
    ((exists cause,
        Infer (request input) = Err cause /\
        e = Wrap (inferMsg input) cause /\
        Level (classify e) = Level (classify cause)) \/
     (exists response cause,
        Infer (request input) = Ok response /\
        Unmarshal (T := A) (llm.FinalAnswer response) = Err cause /\
        e = Wrap (parseMsg input) cause /\
        Level (classify e) = Level (classify cause))).

(** What a successful call leaves in a store that answers: either it was
    served from an entry that is still there, not empty and decoding to the
    result, and nothing was asked or written; or it asked the LLM client and
    left the encoded result under the key, with [ttl] to live. *)
Definition cachesResult {I T : Type} `{!JSON T}
    (activity : I -> World -> result T * World) (key : I -> string)
    (request : I -> llm.InferRequest) (ttl : Z) : Prop :=
  forall (input : I) (w : World) (v : T),
    cacheError w = None ->
    (activity input w).1 = Ok v ->
    cacheError (activity input w).2 = None /\
    ((exists cached ttl0,
        store w !! key input = Some (cached, ttl0) /\
        cached <> "" /\ Unmarshal (T := T) cached = Ok v /\
        store (activity input w).2 = store w /\
        llmCalls (activity input w).2 = llmCalls w) \/
     (store (activity input w).2 = <[key input := (Marshal v, ttl)]> (store w) /\
      llmCalls (activity input w).2 = llmCalls w ++ [request input])).

(** An activity asks the LLM client when Redis answers and does not hold
    its key. *)
Definition asksWhenAbsent {I T : Type}
    (activity : I -> World -> result T * World) (key : I -> string)
    (request : I -> llm.InferRequest) : Prop :=
  forall (input : I) (w : World),
    cacheError w = None ->
    store w !! key input = None ->
    llmCalls (activity input w).2 = llmCalls w ++ [request input].

(** Idempotence through the cache, for a second call [d] nanoseconds after
    the first. After a call (by [first]) that returned [v], a second call
    (by [second], which may run in another run and with another LLM client)
    returns [v] from the cache, without a request to the LLM client and
    without writing to the store, as long as Redis still holds the key;
    this provided the store answers, [v] survives encoding and decoding, its
    encoding is not empty, and [v] is [fresh] at the second call. A key the
    first call had to write is held for [ttl]: once [d] reaches [ttl] it is
    gone. And when the key is gone the second call asks the LLM client
    again. *)
Definition secondCallHits {I T : Type} `{!JSON T}
    (first second : I -> World -> result T * World) (key : I -> string)
    (request : I -> llm.InferRequest) (ttl d : Z) (fresh : T -> Prop) : Prop :=
  forall (input : I) (w : World) (v : T),
    cacheError w = None ->
    0 <= d ->
    (first input w).1 = Ok v ->
    Unmarshal (T := T) (Marshal v) = Ok v ->
    Marshal v <> "" ->
    fresh v ->
    let w1 := (first input w).2 in
    let w2 := cache.elapse d w1 in
    (is_Some (store w2 !! key input) ->
     (second input w2).1 = Ok v /\
     llmCalls (second input w2).2 = llmCalls w1 /\
     store (second input w2).2 = store w2) /\
    (store w !! key input = None ->
     (d < ttl <-> is_Some (store w2 !! key input))) /\
    (store w2 !! key input = None ->
     llmCalls (second input w2).2 = llmCalls w1 ++ [request input]).

(** A codec that encodes every value as the text x and decodes every text
    to the given value. *)
Definition constantJSON {T} (v : T) : JSON T :=
  {| Marshal := fun _ => "x"; Unmarshal := fun _ => Ok v |}.

(** A store that does not answer. *)
Definition deadWorld : World :=
  {| store := ∅; cacheError := Some (New ErrCacheUnavailable); cacheHits := 0;
     cacheMisses := 0; llmCalls := [] |}.

(** What the financial activity returns for BGNE at [sampleNow] when it has
    to compute it from the placeholder answer. *)
Definition computedFinancial : FinancialResult.t :=
  {| FinancialResult.Ticker := "BGNE";
     FinancialResult.Metrics := FinancialMetrics.zero;
     FinancialResult.HealthScore := 0;
     FinancialResult.RiskWarning := "";
     FinancialResult.SourceURL := "";
     FinancialResult.UpdatedAt := sampleNow |}.

(** A pipeline scan of BGNE made at time [t]. *)
Definition scanAt (t : Z) : PipelineResult.t :=
  {| PipelineResult.Ticker := "BGNE"; PipelineResult.Pipelines := [];
     PipelineResult.DataAsOf := t |}.

Definition samplePipelineInput : PipelineScoutInput.t :=
  {| PipelineScoutInput.Ticker := "BGNE"; PipelineScoutInput.CompanyURL := "" |}.

(** A store whose pipeline entry for BGNE is the text x, set two days
    before [sampleNow] without expiry. *)
Definition staleWorld : World :=
  {| store := {["company:BGNE:pipeline:raw" := ("x", 0)]};
     cacheError := None; cacheHits := 0; cacheMisses := 0; llmCalls := [] |}.

(** An LLM client that is down. *)
Definition downInfer (req : llm.InferRequest) : result llm.InferResponse :=
  Err (New ErrLLMUnavailable).

Definition sampleReportInput : ReportGeneratorInput.t :=
  {| ReportGeneratorInput.Ticker := "BGNE";
     ReportGeneratorInput.Financial := FinancialResult.zero;
     ReportGeneratorInput.Pipeline := PipelineResult.zero;
     ReportGeneratorInput.PipelineAnalyses := [];
     ReportGeneratorInput.Clinical := ClinicalResult.zero;
     ReportGeneratorInput.Market := MarketResult.zero;
     ReportGeneratorInput.Valuation := ValuationResult.zero |}.

(** An LLM client that answers the empty JSON array. *)
Definition emptyArrayInfer (req : llm.InferRequest) : result llm.InferResponse :=
  Ok {| llm.RespTraceID := llm.TraceID req; llm.FinalAnswer := "[]" |}.

(** ** pkg/logging/logger.go *)

Module logging.

(** A Go value of type interface{}, as far as the logging helpers tell
    values apart. *)
Inductive Any :=
| AnyNil
| AnyString (s : string)
| AnyInt (n : Z)
| AnyBool (b : bool)
| AnyMap (m : gmap string Any).

(** zap.Any(key, value) *)
Definition Field : Type := string * Any.

Fixpoint pairFields (keyvals : list Any) : list Field :=
  match keyvals with
  | key :: value :: rest =>
      match key with
      | AnyString k => (k, value) :: pairFields rest
      | _ => pairFields rest
      end
  | _ => []
  end.

(** toZapFields: nil for an odd number of values; a pair whose key is not a
    string is skipped. *)
Definition toZapFields (keyvals : list Any) : list Field :=
  if negb (Nat.even (length keyvals)) then [] else pairFields keyvals.

Definition sensitiveFields : gmap string bool :=
  list_to_map [("api_key", true); ("password", true); ("token", true);
               ("secret", true); ("key", true)].

Definition redacted : Any := AnyString "***REDACTED***".

(** The body of the loop of SanitizeForLog. *)
Definition sanitizeEntry (k : string) (v : Any) (result : gmap string Any)
    : gmap string Any :=
  if default false (sensitiveFields !! k) then <[k := redacted]> result
  else <[k := v]> result.

(** SanitizeForLog *)
Definition SanitizeForLog (data : gmap string Any) : gmap string Any :=
  map_fold sanitizeEntry ∅ data.

End logging.

(** ** pkg/llm/client.go, the retry loop *)

Module retry.

(** A 64-bit signed integer after overflow. *)
Definition wrap64 (z : Z) : Z := (z + 2 ^ 63) mod 2 ^ 64 - 2 ^ 63.

(** time.Second, in nanoseconds *)
Definition Second : Z := 1000000000.

(** time.Duration(1<<i) * time.Second, for i >= 0 *)
Definition backoff (i : Z) : Z :=
  wrap64 ((if i <? 64 then wrap64 (2 ^ i) else 0) * Second).

(** What time.Sleep(d) waits: nothing when d is not positive. *)
Definition slept (d : Z) : Z := Z.max 0 d.

(** What a call of InferWithRetry did: its result, the number of calls of
    Infer, and the durations it slept, in order. *)
Record Run := {
  outcome : result llm.InferResponse;
  calls : nat;
  sleeps : list Z
}.

(** The loop, from iteration [i] with [n] iterations left; [attempt k] is
    what the call of Infer in iteration [k] returns. *)
Fixpoint loop (attempt : Z -> result llm.InferResponse) (maxRetries : Z)
    (n : nat) (i : Z) (lastErr : option error) : Run :=
  match n with
  | O =>
      {| outcome :=
           Err match lastErr with
               | Some e =>
                   Wrap ("failed after " +:+ pretty maxRetries +:+ " retries") e
               | None =>
                   Other ("failed after " +:+ pretty maxRetries
                          +:+ " retries: %!w(<nil>)")
               end;
         calls := 0; sleeps := [] |}
  | S n' =>
      match attempt i with
      | Ok resp => {| outcome := Ok resp; calls := 1; sleeps := [] |}
      | Err e =>
          let rest := loop attempt maxRetries n' (i + 1) (Some e) in
          {| outcome := outcome rest; calls := S (calls rest);
             sleeps := slept (backoff i) :: sleeps rest |}
      end
  end.

(** InferWithRetry *)
Definition InferWithRetry (attempt : Z -> result llm.InferResponse)
    (maxRetries : Z) : Run :=
  loop attempt maxRetries (Z.to_nat maxRetries) 0 None.

(** The sum of a list of durations. *)
Definition total (ds : list Z) : Z := foldr Z.add 0 ds.

End retry.

(** ** config, the defaults *)

Module config.

(** Config, restricted to the fields setDefaults reads or writes; durations
    in nanoseconds. *)
Record Config := {
  MaxConcurrency : Z;
  ShutdownTimeout : Z;
  MaxConcurrentActivities : Z;
  MaxConcurrentWorkflows : Z;
  PoolSize : Z;
  LLMTimeout : Z;
  MetricsPort : Z
}.

Definition orDefault (v d : Z) : Z := if v =? 0 then d else v.

(** setDefaults *)
Definition setDefaults (cfg : Config) : Config :=
  {| MaxConcurrency := orDefault (MaxConcurrency cfg) 50;
     ShutdownTimeout := orDefault (ShutdownTimeout cfg) (30 * retry.Second);
     MaxConcurrentActivities := orDefault (MaxConcurrentActivities cfg) 20;
     MaxConcurrentWorkflows := orDefault (MaxConcurrentWorkflows cfg) 10;
     PoolSize := orDefault (PoolSize cfg) 100;
     LLMTimeout := orDefault (LLMTimeout cfg) (120 * retry.Second);
     MetricsPort := orDefault (MetricsPort cfg) 9090 |}.

End config.

(** The alternating key-value list of a list of fields, as a caller of the
    logger writes it. *)
Definition keyvalsOf (fields : list logging.Field) : list logging.Any :=
  concat (map (fun f => [logging.AnyString f.1; f.2]) fields).

(** A value to log that holds secrets at the top level, under a key in
    capitals, and inside a nested map. *)
Definition sampleLogData : gmap string logging.Any :=
  <["password" := logging.AnyString "hunter2"]>
  (<["API_KEY" := logging.AnyString "sk-1"]>
  (<["llm" := logging.AnyMap {["api_key" := logging.AnyString "sk-2"]}]>
  (<["ticker" := logging.AnyString "BGNE"]> ∅))).

(** Attempts that fail twice and then succeed. *)
Definition thirdTimeLucky (i : Z) : result llm.InferResponse :=
  if i <? 2 then Err (Other ("attempt " +:+ pretty i))
  else Ok {| llm.RespTraceID := "t"; llm.FinalAnswer := "ok" |}.

(** Attempts that always fail, each with its own error. *)
Definition alwaysFails (i : Z) : result llm.InferResponse :=
  Err (Other ("attempt " +:+ pretty i)).

(** * Properties *)

(** ** Aggregation *)

Lemma aggregateMarket_loop (analyses : list PipelineAnalysisResult.t)
    (acc : list MarketAssessment.t) (total : float) :
  foldl (fun '(acc, total) a =>
           (acc ++ [PipelineAnalysisResult.Market a],
            (total + MarketAssessment.RiskAdjustedRevenue
                       (PipelineAnalysisResult.Market a))%float))
        (acc, total) analyses
  = (acc ++ map PipelineAnalysisResult.Market analyses,
     foldl PrimFloat.add total
       (map (fun a => MarketAssessment.RiskAdjustedRevenue
                        (PipelineAnalysisResult.Market a)) analyses)).
Proof.
  revert acc total.
  induction analyses as [|a analyses IH]; intros acc total; simpl.
  - by rewrite app_nil_r.
  - rewrite IH. by rewrite <- app_assoc.
Qed.

Lemma aggregateClinical_loop (analyses : list PipelineAnalysisResult.t)
    (acc : list ClinicalAssessment.t) :
  foldl (fun acc a => acc ++ [PipelineAnalysisResult.Clinical a]) acc analyses
  = acc ++ map PipelineAnalysisResult.Clinical analyses.
Proof.
  revert acc.
  induction analyses as [|a analyses IH]; intros acc; simpl.
  - by rewrite app_nil_r.
  - rewrite IH. by rewrite <- app_assoc.
Qed.

Lemma aggregateClinical_assessments ticker analyses :
  ClinicalResult.Assessments (aggregateClinicalResults ticker analyses)
  = map PipelineAnalysisResult.Clinical analyses.
Proof. unfold aggregateClinicalResults. simpl. by rewrite aggregateClinical_loop. Qed.

Lemma aggregateMarket_assessments ticker analyses :
  MarketResult.Assessments (aggregateMarketResults ticker analyses)
  = map PipelineAnalysisResult.Market analyses.
Proof.
  unfold aggregateMarketResults. rewrite aggregateMarket_loop. done.
Qed.

(** C4. For every list of collected per-drug analyses, the Assessments of
    the aggregated MarketResult are the market assessments of these
    analyses, in collection order, and its total risk-adjusted revenue is
    the left fold of float64 addition, from 0.0, over their
    risk_adjusted_revenue (which is also the fold over the Assessments of
    the result). *)
Theorem aggregateMarketResults_total (ticker : string)
    (analyses : list PipelineAnalysisResult.t) :
  let r := aggregateMarketResults ticker analyses in
  MarketResult.Ticker r = ticker /\
  MarketResult.Assessments r = map PipelineAnalysisResult.Market analyses /\
  MarketResult.TotalRiskAdjustedRevenue r
  = foldl PrimFloat.add 0%float
      (map (fun a => MarketAssessment.RiskAdjustedRevenue
                       (PipelineAnalysisResult.Market a)) analyses) /\
  MarketResult.TotalRiskAdjustedRevenue r
  = foldl PrimFloat.add 0%float
      (map MarketAssessment.RiskAdjustedRevenue (MarketResult.Assessments r)).
Proof.
  cbv zeta. unfold aggregateMarketResults. rewrite aggregateMarket_loop. simpl.
  repeat split. by rewrite map_map.
Qed.

(** ** Saga *)

Lemma addAll_steps_from (added : list CompensationStep) (s : SagaCompensation) :
  steps (foldl (fun s step => AddCompensation s (Name step) (Fn step)) s added)
  = rev added ++ steps s.
Proof.
  revert s. induction added as [|[name fn] added IH]; intros s; simpl; [done|].
  rewrite IH. simpl. by rewrite <- app_assoc.
Qed.

Lemma addAll_steps (added : list CompensationStep) :
  steps (addAll added) = rev added.
Proof. unfold addAll. rewrite addAll_steps_from. simpl. apply app_nil_r. Qed.

Lemma executeStep_segment step h : executeStep step h = stepSegment step h.
Proof.
  unfold executeStep, stepSegment. destruct (Fn step h) as [[e|] evs]; simpl.
  - done.
  - by rewrite app_nil_r.
Qed.

(** The loop of Execute runs every step of its list, in the order of the
    list, whatever the steps return. *)
Lemma executeLoop_ranInOrder (l : list CompensationStep) (h : History) :
  ranInOrder l h (executeLoop l h).
Proof.
  revert h. induction l as [|step rest IH]; intros h; simpl.
  - exists []. simpl. rewrite app_nil_r. repeat split. intros i step Hi.
    by rewrite lookup_nil in Hi.
  - destruct (IH (h ++ executeStep step h)) as (segs & Hh & Hlen & Hseg).
    exists (executeStep step h :: segs). simpl. repeat split.
    + rewrite Hh. by rewrite <- app_assoc.
    + by rewrite Hlen.
    + intros [|i] step' Hi; simpl in *.
      * injection Hi as <-. rewrite app_nil_r. by rewrite executeStep_segment.
      * rewrite (Hseg i step' Hi). by rewrite <- app_assoc.
Qed.

(** C2. Whatever steps are added to a fresh Saga, in whatever order, Execute
    returns a nil error and runs every one of them, in the reverse of the
    order of addition: the history it leaves extends the one it started from
    by one segment per step, the segment of the step added last coming first,
    and each segment is the step's own events followed, exactly when the step
    returned an error, by the NotifyCompensationFailure activity for that
    step and error. For three steps a, b, c the order is c, b, a. *)
Theorem saga_runs_lifo (added : list CompensationStep) (h : History) :
  steps (addAll added) = rev added /\
  (Execute (addAll added) h).1 = None /\
  ranInOrder (rev added) h (Execute (addAll added) h).2 /\
  (forall a b c : CompensationStep,
     added = [a; b; c] ->
     let h1 := h ++ stepSegment c h in
     let h2 := h1 ++ stepSegment b h1 in
     (Execute (addAll added) h).2 = h2 ++ stepSegment a h2).
Proof.
  split; [apply addAll_steps|]. split; [done|]. split.
  - unfold Execute. cbn [snd]. rewrite addAll_steps.
    apply executeLoop_ranInOrder.
  - intros a b c ->. unfold Execute. cbn [snd]. rewrite addAll_steps. simpl.
    by rewrite !executeStep_segment.
Qed.

(** With the three sample steps added in the order a, b, c, of which b fails:
    c runs, then b, then the notification for b, then a. *)
Example saga_abc :
  Execute (addAll [stepA; stepB; stepC]) []
  = (None,
     [ExecuteActivity (CleanupCacheCall "BGNE" "c");
      ExecuteActivity (CleanupCacheCall "BGNE" "b");
      ExecuteActivity (NotifyCompensationFailureCall "b" "cache unavailable");
      ExecuteActivity (CleanupCacheCall "BGNE" "a")]).
Proof. reflexivity. Qed.

(** ** The per-pipeline child workflow *)

Lemma getDefaultPOS_other (phase : string) :
  phase ∉ knownPhases -> getDefaultPOS phase = 0.20%float.
Proof.
  intros Hnot. unfold getDefaultPOS.
  repeat match goal with
  | |- context [String.eqb phase ?s] =>
      destruct (String.eqb_spec phase s) as [->|_];
      [exfalso; apply Hnot; unfold knownPhases; set_solver|]
  end.
  done.
Qed.

(** C3. When the clinical-assessment activity of a child workflow fails, the
    workflow still returns a result with a nil error; its clinical
    assessment is the default one, with rating Unknown and the pos_score of
    the phase table (Preclinical 0.05, Phase1 0.10, Phase1_2 0.15,
    Phase2 0.30, Phase2_3 0.50, Phase3 0.60, Approved 1.0, anything else
    0.20); and the market-analysis activity is the next and last activity
    executed, with that default assessment as its Clinical input. *)
Theorem clinical_failure_substitutes_default (acts : PipelineActivities)
    (input : PipelineAnalysisInput.t) (e : error) :
  let pipeline := PipelineAnalysisInput.Pipeline input in
  let clinicalInput :=
    {| ClinicalAssessorInput.Ticker := PipelineAnalysisInput.Ticker input;
       ClinicalAssessorInput.Pipeline := pipeline |} in
  ClinicalAssessorOutcome acts clinicalInput = Err e ->
  let run := PipelineAnalysisWorkflow acts input in
  exists r,
    ret run = Some r /\ err run = None /\
    ClinicalAssessment.Rating (PipelineAnalysisResult.Clinical r) = "Unknown" /\
    ClinicalAssessment.POSScore (PipelineAnalysisResult.Clinical r)
    = getDefaultPOS (DrugPipeline.Phase pipeline) /\
    PipelineAnalysisResult.Clinical r = defaultClinical pipeline /\
    hist run
    = [ExecuteActivity (ClinicalAssessorCall clinicalInput);
       ExecuteActivity
         (MarketStrategistCall
            {| MarketStrategistInput.Ticker := PipelineAnalysisInput.Ticker input;
               MarketStrategistInput.Pipeline := pipeline;
               MarketStrategistInput.Clinical :=
                 PipelineAnalysisResult.Clinical r |})] /\
    getDefaultPOS "Preclinical" = 0.05%float /\
    getDefaultPOS "Phase1" = 0.10%float /\
    getDefaultPOS "Phase1_2" = 0.15%float /\
    getDefaultPOS "Phase2" = 0.30%float /\
    getDefaultPOS "Phase2_3" = 0.50%float /\
    getDefaultPOS "Phase3" = 0.60%float /\
    getDefaultPOS "Approved" = 1.0%float /\
    (forall phase, phase ∉ knownPhases -> getDefaultPOS phase = 0.20%float).
Proof.
  intros pipeline clinicalInput Hfail run.
  unfold run, PipelineAnalysisWorkflow. fold pipeline. fold clinicalInput.
  rewrite Hfail. eexists. split; [reflexivity|]. simpl.
  repeat split. apply getDefaultPOS_other.
Qed.

Lemma clinical_failure_substitutes_default_witness :
  exists r,
    ret (PipelineAnalysisWorkflow clinicalDown
           (analysisInput sampleInput (drug "DrugB" "BC" "Phase2"))) = Some r /\
    ClinicalAssessment.POSScore (PipelineAnalysisResult.Clinical r) = 0.30%float /\
    ClinicalAssessment.Rating (PipelineAnalysisResult.Clinical r) = "Unknown".
Proof.
  destruct (clinical_failure_substitutes_default clinicalDown
              (analysisInput sampleInput (drug "DrugB" "BC" "Phase2"))
              (New DeadlineExceeded) eq_refl)
    as (r & Hret & _ & Hrating & Hpos & _).
  exists r. split; [exact Hret|]. split; [|exact Hrating].
  rewrite Hpos. reflexivity.
Defined.

(** ** The fan-out of the main workflow *)

Section FanOut.

Context (env : Env) (input : WorkflowInput.t).

Lemma launch_spec (ps : list DrugPipeline.t) (i : nat)
    (futs : list (result PipelineAnalysisResult.t))
    (prog : gmap string string) (h : History) :
  launch env input i ps (futs, prog, h)
  = (futs ++ imap (fun j => analysisFuture env input (i + j)) ps,
     foldl (fun m p => <[DrugPipeline.DrugName p := "in_progress"]> m) prog ps,
     h ++ imap (fun j p =>
                  ExecuteChildWorkflow (analysisWorkflowID env input (i + j))
                    (PipelineAnalysisChild (analysisInput input p))) ps).
Proof.
  revert i futs prog h.
  induction ps as [|p ps IH]; intros i futs prog h; simpl.
  - by rewrite !app_nil_r.
  - rewrite IH. rewrite <- !app_assoc. simpl.
    rewrite Nat.add_0_r.
    f_equal; [f_equal|]; do 2 f_equal; apply imap_ext; intros j x _; simpl;
      by rewrite Nat.add_succ_r.
Qed.

Lemma register_imap (ps : list DrugPipeline.t)
    (F : nat -> DrugPipeline.t -> result PipelineAnalysisResult.t) :
  register ps (imap F ps)
  = imap (fun j p => (DrugPipeline.DrugName p, F j p)) ps.
Proof.
  revert F. induction ps as [|p ps IH]; intros F; simpl; [done|].
  f_equal. apply IH.
Qed.

Lemma register_names (ps : list DrugPipeline.t)
    (F : nat -> DrugPipeline.t -> result PipelineAnalysisResult.t) :
  (register ps (imap F ps)).*1 = DrugPipeline.DrugName <$> ps.
Proof.
  revert F. induction ps as [|p ps IH]; intros F; simpl; [done|].
  f_equal. apply IH.
Qed.

Lemma register_futures (ps : list DrugPipeline.t)
    (F : nat -> DrugPipeline.t -> result PipelineAnalysisResult.t) :
  (register ps (imap F ps)).*2 = imap F ps.
Proof.
  revert F. induction ps as [|p ps IH]; intros F; simpl; [done|].
  f_equal. apply IH.
Qed.

End FanOut.

(** One Select delivers one of the pending futures and leaves the others. *)
Lemma selectOne_Some {A} (pick : nat) (pending : list A) :
  pending <> [] ->
  exists x rest, selectOne pick pending = Some (x, rest) /\ pending ≡ₚ x :: rest.
Proof.
  intros Hne. unfold selectOne.
  assert (Hlt : (pick mod length pending < length pending)%nat).
  { apply Nat.mod_upper_bound. destruct pending; [done|simpl; lia]. }
  destruct (lookup_lt_is_Some_2 _ _ Hlt) as [x Hx].
  rewrite Hx. eexists _, _. split; [done|]. by apply delete_Permutation.
Qed.

Lemma onAnalysis_progress name future st :
  pipelineProgress (onAnalysis name future st)
  = <[name := marker future]> (pipelineProgress st).
Proof. by destruct future. Qed.

Lemma onAnalysis_analyses name future st :
  pipelineAnalyses (onAnalysis name future st)
  = pipelineAnalyses st ++ succeeded [future].
Proof. destruct future; simpl; [done|]. by rewrite app_nil_r. Qed.

Lemma onAnalysis_completedSteps_length name future st :
  length (completedSteps (onAnalysis name future st))
  = (length (completedSteps st) + length (succeeded [future]))%nat.
Proof. destruct future; simpl; [|lia]. rewrite length_app. simpl. lia. Qed.

Lemma onAnalysis_pipelineResult name future st :
  pipelineResult (onAnalysis name future st) = pipelineResult st.
Proof. by destruct future. Qed.

(** The fan-in loop over [pending], run as many times as there are pending
    futures: every result is collected once, and the length of
    completed_steps grows by the number of successes. *)
Lemma collect_analyses (n : nat) (picks : list nat)
    (pending : list (string * result PipelineAnalysisResult.t)) (st : State) :
  n = length pending ->
  pipelineAnalyses (collect n picks pending st)
    ≡ₚ pipelineAnalyses st ++ succeeded pending.*2 /\
  length (completedSteps (collect n picks pending st))
  = (length (completedSteps st) + length (succeeded pending.*2))%nat /\
  pipelineResult (collect n picks pending st) = pipelineResult st.
Proof.
  revert picks pending st.
  induction n as [|n IH]; intros picks pending st Hn.
  - destruct pending; [|done]. simpl. rewrite app_nil_r. split; [done|]. split; [lia|done].
  - assert (Hne : pending <> []) by (destruct pending; done).
    destruct (selectOne_Some (hd O picks) pending Hne) as ([name future] & rest & Hsel & Hperm).
    simpl. rewrite Hsel.
    assert (Hlen : n = length rest).
    { apply Permutation_length in Hperm. simpl in Hperm. lia. }
    destruct (IH (tl picks) rest (onAnalysis name future st) Hlen) as (Ha & Hc & Hr).
    assert (Hs : succeeded pending.*2 ≡ₚ succeeded [future] ++ succeeded rest.*2).
    { unfold succeeded. rewrite Hperm. simpl. by destruct future. }
    split; [|split].
    + rewrite Ha, onAnalysis_analyses, Hs. by rewrite <- app_assoc.
    + rewrite Hc, onAnalysis_completedSteps_length, Hs, length_app. lia.
    + by rewrite Hr, onAnalysis_pipelineResult.
Qed.

(** With pairwise distinct drug names, the fan-in loop leaves for every
    pending future the marker of its own outcome, and leaves the other keys
    of the progress map alone. *)
Lemma collect_progress (n : nat) (picks : list nat)
    (pending : list (string * result PipelineAnalysisResult.t)) (st : State) :
  n = length pending ->
  NoDup pending.*1 ->
  forall name : string,
    (name ∉ pending.*1 ->
     pipelineProgress (collect n picks pending st) !! name
     = pipelineProgress st !! name) /\
    (forall future, (name, future) ∈ pending ->
     pipelineProgress (collect n picks pending st) !! name = Some (marker future)).
Proof.
  revert picks pending st.
  induction n as [|n IH]; intros picks pending st Hn Hnd name.
  - destruct pending; [|done]. simpl. split; [done|]. intros future Hin.
    by apply elem_of_nil in Hin.
  - assert (Hne : pending <> []) by (destruct pending; done).
    destruct (selectOne_Some (hd O picks) pending Hne)
      as ([name0 future0] & rest & Hsel & Hperm).
    simpl. rewrite Hsel.
    assert (Hlen : n = length rest).
    { apply Permutation_length in Hperm. simpl in Hperm. lia. }
    assert (Hnd' : NoDup (name0 :: rest.*1)).
    { rewrite Hperm in Hnd. exact Hnd. }
    apply NoDup_cons in Hnd' as [Hfresh Hndrest].
    destruct (IH (tl picks) rest (onAnalysis name0 future0 st) Hlen Hndrest name)
      as [Hout Hin].
    split.
    + intros Hnot. rewrite Hperm in Hnot. simpl in Hnot.
      apply not_elem_of_cons in Hnot as [Hneq Hnot].
      rewrite (Hout Hnot), onAnalysis_progress. by rewrite lookup_insert_ne.
    + intros future Hel. rewrite Hperm in Hel.
      apply elem_of_cons in Hel as [Heq|Hel].
      * injection Heq as -> ->.
        destruct (IH (tl picks) rest (onAnalysis name0 future0 st) Hlen Hndrest name0)
          as [Hout0 _].
        rewrite (Hout0 Hfresh), onAnalysis_progress. by rewrite lookup_insert_eq.
      * by apply Hin.
Qed.

(** Whatever the names, a failed marker after the fan-in loop was there
    before or comes from a pending future that failed. *)
Lemma collect_failed (n : nat) (picks : list nat)
    (pending : list (string * result PipelineAnalysisResult.t)) (st : State)
    (name : string) :
  pipelineProgress (collect n picks pending st) !! name = Some "failed" ->
  pipelineProgress st !! name = Some "failed" \/
  exists e, (name, Err e) ∈ pending.
Proof.
  revert picks pending st.
  induction n as [|n IH]; intros picks pending st Hf; simpl in Hf; [by left|].
  destruct pending as [|x0 pending0] eqn:Hp; [by left|].
  rewrite <- Hp in *.
  assert (Hne : pending <> []) by (by rewrite Hp).
  destruct (selectOne_Some (hd O picks) pending Hne)
    as ([name0 future0] & rest & Hsel & Hperm).
  rewrite Hsel in Hf.
  destruct (IH _ _ _ Hf) as [Hbefore|[e He]].
  - rewrite onAnalysis_progress in Hbefore.
    destruct (decide (name0 = name)) as [->|Hneq].
    + rewrite lookup_insert_eq in Hbefore. destruct future0 as [r|e]; [done|].
      right. exists e. rewrite Hperm. left.
    + rewrite lookup_insert_ne in Hbefore by done. by left.
  - right. exists e. rewrite Hperm. by right.
Qed.

Lemma collect_uncollected (n : nat) (picks : list nat)
    (pending : list (string * result PipelineAnalysisResult.t)) (st : State) :
  uncollected (collect n picks pending st) = uncollected st.
Proof.
  revert picks pending st.
  induction n as [|n IH]; intros picks pending st; simpl; [done|].
  destruct (selectOne (hd O picks) pending) as [[[name future] rest]|]; [|done].
  rewrite IH. by destruct future.
Qed.

Lemma collect_dom (n : nat) (picks : list nat)
    (pending : list (string * result PipelineAnalysisResult.t)) (st : State) :
  n = length pending ->
  dom (pipelineProgress (collect n picks pending st))
  = dom (pipelineProgress st) ∪ list_to_set pending.*1.
Proof.
  revert picks pending st.
  induction n as [|n IH]; intros picks pending st Hn.
  - destruct pending; [|done]. simpl. set_solver.
  - assert (Hne : pending <> []) by (destruct pending; done).
    destruct (selectOne_Some (hd O picks) pending Hne)
      as ([name future] & rest & Hsel & Hperm).
    simpl. rewrite Hsel.
    assert (Hlen : n = length rest).
    { apply Permutation_length in Hperm. simpl in Hperm. lia. }
    rewrite (IH _ _ _ Hlen), onAnalysis_progress, dom_insert_L.
    assert (Hset : list_to_set (C := gset string) pending.*1
                   = {[name]} ∪ list_to_set rest.*1).
    { apply set_eq. intros x. rewrite Hperm. simpl. set_solver. }
    rewrite Hset. set_solver.
Qed.

Ltac case_dec H :=
  match goal with
  | |- context [decide ?P] => destruct (decide P) as [H|H]
  end.

Lemma initProgress_lookup (ps : list DrugPipeline.t) (m : gmap string string)
    (name : string) :
  initProgress ps m !! name
  = if decide (name ∈ DrugPipeline.DrugName <$> ps) then Some "pending"
    else m !! name.
Proof.
  unfold initProgress. revert m.
  induction ps as [|p ps IH]; intros m; cbn [foldl].
  - case_dec Hin; [|done]. by apply elem_of_nil in Hin.
  - rewrite IH. rewrite fmap_cons.
    destruct (decide (name ∈ DrugPipeline.DrugName <$> ps)) as [Hin|Hnot].
    + case_dec Hc; [done|]. exfalso. apply Hc. by right.
    + destruct (decide (name = DrugPipeline.DrugName p)) as [->|Hneq].
      * rewrite lookup_insert_eq. case_dec Hc; [done|].
        exfalso. apply Hc. left.
      * rewrite lookup_insert_ne by done. case_dec Hc; [|done].
        apply elem_of_cons in Hc as [?|?]; done.
Qed.

Lemma inProgress_lookup (ps : list DrugPipeline.t) (m : gmap string string)
    (name : string) :
  foldl (fun m p => <[DrugPipeline.DrugName p := "in_progress"]> m) m ps !! name
  = if decide (name ∈ DrugPipeline.DrugName <$> ps) then Some "in_progress"
    else m !! name.
Proof.
  revert m.
  induction ps as [|p ps IH]; intros m; cbn [foldl].
  - case_dec Hin; [|done]. by apply elem_of_nil in Hin.
  - rewrite IH. rewrite fmap_cons.
    destruct (decide (name ∈ DrugPipeline.DrugName <$> ps)) as [Hin|Hnot].
    + case_dec Hc; [done|]. exfalso. apply Hc. by right.
    + destruct (decide (name = DrugPipeline.DrugName p)) as [->|Hneq].
      * rewrite lookup_insert_eq. case_dec Hc; [done|].
        exfalso. apply Hc. left.
      * rewrite lookup_insert_ne by done. case_dec Hc; [|done].
        apply elem_of_cons in Hc as [?|?]; done.
Qed.

Lemma inProgress_dom (ps : list DrugPipeline.t) (m : gmap string string) :
  dom (foldl (fun m p => <[DrugPipeline.DrugName p := "in_progress"]> m) m ps)
  = dom m ∪ list_to_set (DrugPipeline.DrugName <$> ps).
Proof.
  revert m. induction ps as [|p ps IH]; intros m; simpl.
  - set_solver.
  - rewrite IH, dom_insert_L. set_solver.
Qed.

Lemma initProgress_dom (ps : list DrugPipeline.t) (m : gmap string string) :
  dom (initProgress ps m) = dom m ∪ list_to_set (DrugPipeline.DrugName <$> ps).
Proof.
  unfold initProgress. revert m. induction ps as [|p ps IH]; intros m; simpl.
  - set_solver.
  - rewrite IH, dom_insert_L. set_solver.
Qed.

Lemma fanOut_collect (env : Env) (input : WorkflowInput.t) (st : State) :
  let ps := PipelineResult.Pipelines (pipelineResult st) in
  fanOut env input st
  = collect (length ps) (selectorPicks env)
      (register ps (analysisFutures env input ps)) (launched env input st).
Proof.
  unfold fanOut, launched, analysisFutures. simpl.
  rewrite launch_spec. simpl. by rewrite length_imap.
Qed.

(** ** Signals and pause checks *)

Lemma handleSignal_unsignalled st signal :
  unsignalled (handleSignal st signal) = unsignalled st.
Proof.
  unfold handleSignal. destruct (listening st); [|done].
  repeat match goal with |- context [String.eqb ?a ?b] => destruct (String.eqb a b) end;
    done.
Qed.

Lemma deliver_unsignalled sigs st : unsignalled (deliver sigs st) = unsignalled st.
Proof.
  unfold deliver. revert st. induction sigs as [|s sigs IH]; intros st; simpl; [done|].
  by rewrite IH, handleSignal_unsignalled.
Qed.

Lemma handleArrival_unsignalled st task :
  unsignalled (handleArrival st task) = unsignalled st.
Proof. destruct task; [apply deliver_unsignalled|done]. Qed.

Lemma arrive_unsignalled tasks st : unsignalled (arrive tasks st) = unsignalled st.
Proof.
  unfold arrive. revert st.
  induction tasks as [|task tasks IH]; intros st; simpl; [done|].
  by rewrite IH, handleArrival_unsignalled.
Qed.

Lemma waitForResume_unsignalled tasks st st' :
  waitForResume tasks st = Proceed st' \/ waitForResume tasks st = Stuck st' ->
  unsignalled st' = unsignalled st.
Proof.
  revert st. induction tasks as [|task tasks IH]; intros st; simpl.
  - destruct (isPaused st), (cancelled st); simpl; intros [H|H]; congruence.
  - destruct (isPaused st), (cancelled st); simpl;
      try (intros [H|H]; congruence).
    intros H. rewrite (IH _ H). apply handleArrival_unsignalled.
Qed.

Lemma pauseCheck_unsignalled env k st st' :
  pauseCheck env k st = Proceed st' \/ pauseCheck env k st = Stuck st' ->
  unsignalled st' = unsignalled st.
Proof.
  unfold pauseCheck. destruct (isPaused (arrive (arrivals env k) st)).
  - intros H. rewrite (waitForResume_unsignalled _ _ _ H). apply arrive_unsignalled.
  - intros [H|H]; [|done]. injection H as <-. apply arrive_unsignalled.
Qed.

(** When nothing arrives a pause check lets an unpaused workflow through. *)
Lemma pauseCheck_quiet env k st :
  arrivals env k = [] -> isPaused st = false -> pauseCheck env k st = Proceed st.
Proof. intros Hs Hp. unfold pauseCheck. rewrite Hs. simpl. by rewrite Hp. Qed.

(** ** The parallel phase *)

Lemma phaseA_progress env input st :
  pipelineProgress (phaseA env input st) = pipelineProgress st.
Proof.
  unfold phaseA, onFinancial, onPipeline.
  destruct (financialFirst env), (FinancialAuditorOutcome env _),
    (PipelineScoutOutcome env _); done.
Qed.

Lemma phaseA_completedSteps env input st :
  (length (completedSteps (phaseA env input st)) <= length (completedSteps st) + 2)%nat.
Proof.
  unfold phaseA, onFinancial, onPipeline.
  destruct (financialFirst env), (FinancialAuditorOutcome env _),
    (PipelineScoutOutcome env _); simpl; rewrite ?length_app; simpl; lia.
Qed.


(** A run that reaches the end of the fan-out phase got there from a state
    of the parallel phase with an empty progress map and at most two
    completed steps. *)
Lemma throughFanOut_Continue env input st :
  throughFanOut env input = Continue st ->
  exists st0,
    st = fanOut env input st0 /\
    pipelineProgress st0 = ∅ /\
    (length (completedSteps st0) <= 2)%nat /\
    saga st0 = saga (phaseA env input (initialState env input)) /\
    output st0 = output (phaseA env input (initialState env input)).
Proof.
  unfold throughFanOut. destruct (SetQueryHandlerError env); [done|].
  destruct (pauseCheck env 0 (phaseA env input (initialState env input)))
    as [st0|st0] eqn:Hcheck; simpl; [|done].
  intros [= <-]. exists st0. split; [done|].
  assert (Hu := pauseCheck_unsignalled _ _ _ _ (or_introl Hcheck)).
  unfold unsignalled in Hu.
  injection Hu as Hsaga _ Hsteps Hprog _ _ _ _ _ _ Hout _.
  rewrite Hprog, phaseA_progress, Hsteps, Hsaga, Hout. repeat split.
  pose proof (phaseA_completedSteps env input (initialState env input)) as Hle.
  simpl in Hle. lia.
Qed.

(** ** Conservation under fan-out *)

Section Conservation.

Context (env : Env) (input : WorkflowInput.t) (st0 : State).

Let ps := PipelineResult.Pipelines (pipelineResult st0).
Let st := fanOut env input st0.

Lemma fanOut_pipelineResult : pipelineResult st = pipelineResult st0.
Proof.
  unfold st. rewrite fanOut_collect.
  pose proof (collect_uncollected (length ps) (selectorPicks env)
                (register ps (analysisFutures env input ps))
                (launched env input st0)) as Hu.
  unfold uncollected in Hu. injection Hu as _ _ _ _ _ _ Hr _ _ _ _ _.
  exact Hr.
Qed.

Lemma register_length : length ps = length (register ps (analysisFutures env input ps)).
Proof.
  unfold analysisFutures. rewrite register_imap. by rewrite length_imap.
Qed.

Lemma fanOut_analyses :
  pipelineAnalyses st ≡ₚ succeeded (analysisFutures env input ps).
Proof.
  unfold st. rewrite fanOut_collect. fold ps.
  destruct (collect_analyses (length ps) (selectorPicks env)
              (register ps (analysisFutures env input ps))
              (launched env input st0) register_length) as (Ha & _ & _).
  rewrite Ha. simpl. unfold analysisFutures. by rewrite register_futures.
Qed.

Lemma fanOut_completedSteps :
  length (completedSteps st)
  = (length (completedSteps st0)
     + length (succeeded (analysisFutures env input ps)))%nat.
Proof.
  unfold st. rewrite fanOut_collect. fold ps.
  destruct (collect_analyses (length ps) (selectorPicks env)
              (register ps (analysisFutures env input ps))
              (launched env input st0) register_length) as (_ & Hc & _).
  rewrite Hc. simpl. unfold analysisFutures. by rewrite register_futures.
Qed.

Lemma fanOut_dom :
  dom (pipelineProgress st)
  = dom (pipelineProgress st0) ∪ list_to_set (DrugPipeline.DrugName <$> ps).
Proof.
  unfold st. rewrite fanOut_collect. fold ps.
  rewrite (collect_dom _ _ _ _ register_length). simpl.
  rewrite inProgress_dom, initProgress_dom. fold ps.
  unfold analysisFutures. rewrite register_names. set_solver.
Qed.

(** With pairwise distinct names, every drug carries the marker of its own
    child workflow. *)
Lemma fanOut_marker (i : nat) (p : DrugPipeline.t) :
  NoDup (DrugPipeline.DrugName <$> ps) ->
  ps !! i = Some p ->
  pipelineProgress st !! DrugPipeline.DrugName p
  = Some (marker (analysisFuture env input i p)).
Proof.
  intros Hnd Hi. unfold st. rewrite fanOut_collect. fold ps.
  assert (Hnd' : NoDup (register ps (analysisFutures env input ps)).*1).
  { unfold analysisFutures. by rewrite register_names. }
  destruct (collect_progress (length ps) (selectorPicks env)
              (register ps (analysisFutures env input ps))
              (launched env input st0) register_length Hnd'
              (DrugPipeline.DrugName p)) as [_ Hin].
  apply Hin. unfold analysisFutures. rewrite register_imap.
  apply list_elem_of_lookup. exists i. rewrite list_lookup_imap, Hi. done.
Qed.

(** A failed marker at the end of the fan-out phase was there before the
    phase or belongs to a drug whose child workflow execution failed. *)
Lemma fanOut_failed (name : string) :
  pipelineProgress st !! name = Some "failed" ->
  pipelineProgress st0 !! name = Some "failed" \/
  exists i p e, ps !! i = Some p /\ DrugPipeline.DrugName p = name /\
                analysisFuture env input i p = Err e.
Proof.
  unfold st. rewrite fanOut_collect. fold ps. intros Hf.
  apply collect_failed in Hf as [Hf|[e He]].
  - simpl in Hf. rewrite inProgress_lookup in Hf. fold ps in Hf.
    destruct (decide (name ∈ DrugPipeline.DrugName <$> ps)); [done|].
    rewrite initProgress_lookup in Hf. fold ps in Hf.
    destruct (decide (name ∈ DrugPipeline.DrugName <$> ps)); [done|]. by left.
  - right. unfold analysisFutures in He. rewrite register_imap in He.
    apply list_elem_of_lookup in He as [i Hi].
    rewrite list_lookup_imap in Hi.
    destruct (ps !! i) as [p|] eqn:Hp; [|done]. simpl in Hi.
    injection Hi as Hname Hfut. by exists i, p, e.
Qed.

End Conservation.

(** The drugs that satisfy a predicate and the futures that succeeded add up
    to all drugs, when the predicate holds exactly of the drugs whose future
    failed. *)
Lemma failed_plus_succeeded {T} (P : DrugPipeline.t -> Prop)
    `{!forall p, Decision (P p)} (F : nat -> DrugPipeline.t -> result T)
    (ps : list DrugPipeline.t) :
  (forall i p, ps !! i = Some p -> (P p <-> exists e, F i p = Err e)) ->
  (length (succeeded (imap F ps)) + length (filter P ps) = length ps)%nat.
Proof.
  revert F. induction ps as [|p ps IH]; intros F HP; [done|].
  rewrite imap_cons, filter_cons.
  specialize (IH (F ∘ S) (fun i q Hq => HP (S i) q Hq)).
  pose proof (HP O p eq_refl) as Hp.
  unfold succeeded in *. cbn [omap list_omap].
  destruct (F O p) as [r|e] eqn:HF.
  - rewrite decide_False.
    + cbn [length]. lia.
    + intros HPp. apply Hp in HPp as [e He]. done.
  - rewrite decide_True.
    + cbn [length]. lia.
    + apply Hp. by exists e.
Qed.

Lemma succeeded_elem {T} (futures : list (result T)) (i : nat) (r : T) :
  futures !! i = Some (Ok r) -> r ∈ succeeded futures.
Proof.
  intros Hi. unfold succeeded. apply list_elem_of_omap.
  exists (Ok r). split; [|done]. apply list_elem_of_lookup. by exists i.
Qed.

Lemma marker_failed {T} (future : result T) :
  marker future = "failed" <-> exists e, future = Err e.
Proof.
  destruct future as [r|e]; simpl; split; try done.
  - by intros [e He].
  - intros _. by exists e.
Qed.

(** C1, as the code has it. For every run of the main workflow that reaches
    the end of the fan-out phase with pairwise distinct drug names in the
    PipelineResult: every drug whose child workflow resolved has its
    PipelineAnalysisResult in the output and the marker completed, every
    other drug has the marker failed; the collected analyses are the results
    of the successful child workflows, each once; and the number of
    ClinicalResult.Assessments plus the number of drugs marked failed is the
    number of PipelineResult.Pipelines, and likewise for
    MarketResult.Assessments. *)
Theorem fanout_conservation (env : Env) (input : WorkflowInput.t) (st : State) :
  throughFanOut env input = Continue st ->
  let ps := PipelineResult.Pipelines (pipelineResult st) in
  NoDup (DrugPipeline.DrugName <$> ps) ->
  (forall i p, ps !! i = Some p ->
     match analysisFuture env input i p with
     | Ok r =>
         r ∈ pipelineAnalyses st /\
         pipelineProgress st !! DrugPipeline.DrugName p = Some "completed"
     | Err _ => pipelineProgress st !! DrugPipeline.DrugName p = Some "failed"
     end) /\
  pipelineAnalyses st ≡ₚ succeeded (analysisFutures env input ps) /\
  exists c m,
    WorkflowOutput.Clinical (output (aggregate input st)) = Some c /\
    WorkflowOutput.Market (output (aggregate input st)) = Some m /\
    WorkflowOutput.PipelineAnalyses (output (aggregate input st))
    = pipelineAnalyses st /\
    (length (ClinicalResult.Assessments c) + length (failedDrugs st)
     = length ps)%nat /\
    (length (MarketResult.Assessments m) + length (failedDrugs st)
     = length ps)%nat.
Proof.
  intros Hrun ps Hnd.
  destruct (throughFanOut_Continue _ _ _ Hrun) as (st0 & -> & _).
  pose proof (fanOut_pipelineResult env input st0) as Hres.
  pose proof (fanOut_analyses env input st0) as Hperm.
  unfold ps in *. rewrite Hres in *.
  set (ps0 := PipelineResult.Pipelines (pipelineResult st0)) in *.
  assert (Hmark : forall i p, ps0 !! i = Some p ->
            pipelineProgress (fanOut env input st0) !! DrugPipeline.DrugName p
            = Some (marker (analysisFuture env input i p))).
  { intros i p Hi. by apply fanOut_marker. }
  split; [|split; [exact Hperm|]].
  - intros i p Hi. specialize (Hmark i p Hi).
    destruct (analysisFuture env input i p) as [r|e] eqn:HF; [|exact Hmark].
    split; [|exact Hmark]. rewrite Hperm.
    apply (succeeded_elem _ i). unfold analysisFutures.
    by rewrite list_lookup_imap, Hi, <- HF.
  - exists (aggregateClinicalResults (WorkflowInput.Ticker input)
              (pipelineAnalyses (fanOut env input st0))),
           (aggregateMarketResults (WorkflowInput.Ticker input)
              (pipelineAnalyses (fanOut env input st0))).
    split; [reflexivity|]. split; [reflexivity|]. split; [reflexivity|].
    assert (Hcount :
      (length (pipelineAnalyses (fanOut env input st0))
       + length (failedDrugs (fanOut env input st0)) = length ps0)%nat).
    { rewrite (Permutation_length Hperm). unfold failedDrugs. rewrite Hres.
      fold ps0. unfold analysisFutures. apply failed_plus_succeeded.
      intros i p Hi. rewrite (Hmark i p Hi). rewrite <- marker_failed.
      split; congruence. }
    rewrite aggregateClinical_assessments, aggregateMarket_assessments.
    rewrite !length_map. done.
Qed.


Lemma fanout_conservation_witness :
  let st := fanOut distinctNameRun sampleInput
              (phaseA distinctNameRun sampleInput
                 (initialState distinctNameRun sampleInput)) in
  throughFanOut distinctNameRun sampleInput = Continue st /\
  pipelineProgress st !! "DrugA" = Some "failed" /\
  pipelineProgress st !! "DrugB" = Some "completed" /\
  exists c m,
    WorkflowOutput.Clinical (output (aggregate sampleInput st)) = Some c /\
    WorkflowOutput.Market (output (aggregate sampleInput st)) = Some m /\
    WorkflowOutput.PipelineAnalyses (output (aggregate sampleInput st))
    = pipelineAnalyses st /\
    (length (ClinicalResult.Assessments c) + length (failedDrugs st) = 2)%nat /\
    (length (MarketResult.Assessments m) + length (failedDrugs st) = 2)%nat.
Proof.
  intros st.
  assert (Hrun : throughFanOut distinctNameRun sampleInput = Continue st)
    by (vm_compute; reflexivity).
  assert (Hnd : NoDup (DrugPipeline.DrugName
                         <$> PipelineResult.Pipelines (pipelineResult st)))
    by (apply (bool_decide_unpack _); vm_compute; exact I).
  destruct (fanout_conservation distinctNameRun sampleInput st Hrun Hnd)
    as (_ & _ & Hcount).
  split; [exact Hrun|].
  split; [vm_compute; reflexivity|].
  split; [vm_compute; reflexivity|].
  exact Hcount.
Defined.

(** The claim C1 fails when two pipelines carry the same drug name: in
    [duplicateNameRun] the child workflow of the first DrugA pipeline fails
    and the one of the second succeeds, in this order. At the end of the
    fan-out phase the only marker is DrugA = completed, one result is in the
    output, and no drug is marked failed: the first pipeline has neither its
    result in the output nor the marker failed, and 1 + 0 is not 2. *)
Lemma fanout_conservation_fails_on_duplicate_names :
  exists st,
    throughFanOut duplicateNameRun sampleInput = Continue st /\
    let ps := PipelineResult.Pipelines (pipelineResult st) in
    length ps = 2%nat /\
    (exists p e,
       ps !! 0%nat = Some p /\
       analysisFuture duplicateNameRun sampleInput 0 p = Err e /\
       pipelineProgress st !! DrugPipeline.DrugName p <> Some "failed" /\
       Forall (fun r => PipelineAnalysisResult.Pipeline r <> p)
         (pipelineAnalyses st)) /\
    exists c m,
      WorkflowOutput.Clinical (output (aggregate sampleInput st)) = Some c /\
      WorkflowOutput.Market (output (aggregate sampleInput st)) = Some m /\
      length (ClinicalResult.Assessments c) = 1%nat /\
      length (MarketResult.Assessments m) = 1%nat /\
      length (failedDrugs st) = 0%nat /\
      size (failedMarkers st) = 0%nat /\
      (length (ClinicalResult.Assessments c) + length (failedDrugs st)
       <> length ps)%nat /\
      (length (MarketResult.Assessments m) + length (failedDrugs st)
       <> length ps)%nat.
Proof.
  exists (fanOut duplicateNameRun sampleInput
            (phaseA duplicateNameRun sampleInput
               (initialState duplicateNameRun sampleInput))).
  split; [vm_compute; reflexivity|].
  cbv zeta. split; [vm_compute; reflexivity|]. split.
  - exists (drug "DrugA" "NSCLC" "Phase3"),
           (Other "child workflow execution timed out").
    split; [vm_compute; reflexivity|]. split; [vm_compute; reflexivity|].
    split.
    + vm_compute. discriminate.
    + vm_compute. repeat constructor. discriminate.
  - eexists _, _. split; [vm_compute; reflexivity|].
    split; [vm_compute; reflexivity|].
    split; [vm_compute; reflexivity|]. split; [vm_compute; reflexivity|].
    split; [vm_compute; reflexivity|]. split; [vm_compute; reflexivity|].
    split; vm_compute; discriminate.
Qed.

(** ** The child workflow and its parent *)

Lemma analysisFuture_Err env input i p e :
  analysisFuture env input i p = Err e -> childFailure env i = Some e.
Proof.
  unfold analysisFuture, childGet. destruct (childFailure env i) as [e'|].
  - by intros [= ->].
  - simpl. done.
Qed.

(** C9. PipelineAnalysisWorkflow returns, for every input and whatever its
    two activities do, a non-nil result and a nil error; the result carries
    the input pipeline, the clinical assessment of the activity or the
    default one, and the market assessment of the activity (run on that
    clinical assessment) or the default one. In the parent, the future of a
    child that did not itself fail yields this result, and a drug is marked
    failed at the end of the fan-out phase only if the execution of the
    child workflow of some pipeline with that drug name failed. *)
Theorem PipelineAnalysisWorkflow_never_fails (acts : PipelineActivities)
    (input : PipelineAnalysisInput.t) :
  let pipeline := PipelineAnalysisInput.Pipeline input in
  let ticker := PipelineAnalysisInput.Ticker input in
  let run := PipelineAnalysisWorkflow acts input in
  err run = None /\
  (exists r,
     ret run = Some r /\
     PipelineAnalysisResult.Pipeline r = pipeline /\
     PipelineAnalysisResult.Clinical r
     = match ClinicalAssessorOutcome acts
               {| ClinicalAssessorInput.Ticker := ticker;
                  ClinicalAssessorInput.Pipeline := pipeline |} with
       | Ok c => c
       | Err _ => defaultClinical pipeline
       end /\
     PipelineAnalysisResult.Market r
     = match MarketStrategistOutcome acts
               {| MarketStrategistInput.Ticker := ticker;
                  MarketStrategistInput.Pipeline := pipeline;
                  MarketStrategistInput.Clinical :=
                    PipelineAnalysisResult.Clinical r |} with
       | Ok m => m
       | Err _ => defaultMarket pipeline
       end) /\
  (forall env winput i p,
     childFailure env i = None ->
     exists r, analysisFuture env winput i p = Ok r /\
               PipelineAnalysisResult.Pipeline r = p) /\
  (forall env winput st name,
     throughFanOut env winput = Continue st ->
     pipelineProgress st !! name = Some "failed" ->
     exists i p e,
       PipelineResult.Pipelines (pipelineResult st) !! i = Some p /\
       DrugPipeline.DrugName p = name /\
       childFailure env i = Some e).
Proof.
  cbv zeta. split; [done|]. split; [|split].
  - eexists. split; [reflexivity|]. simpl. repeat split.
  - intros env winput i p Hnone. unfold analysisFuture, childGet.
    rewrite Hnone. simpl. eexists. split; [reflexivity|]. done.
  - intros env winput st name Hrun Hfailed.
    destruct (throughFanOut_Continue _ _ _ Hrun) as (st0 & -> & Hempty & _).
    rewrite fanOut_pipelineResult.
    apply fanOut_failed in Hfailed as [Hbefore|(i & p & e & Hi & Hname & Hfut)].
    + by rewrite Hempty in Hbefore.
    + exists i, p, e. repeat split; [done..|].
      by apply analysisFuture_Err in Hfut.
Qed.

Lemma PipelineAnalysisWorkflow_never_fails_witness :
  exists i p e,
    PipelineResult.Pipelines
      (pipelineResult
         (fanOut distinctNameRun sampleInput
            (phaseA distinctNameRun sampleInput
               (initialState distinctNameRun sampleInput)))) !! i = Some p /\
    DrugPipeline.DrugName p = "DrugA" /\
    childFailure distinctNameRun i = Some e.
Proof.
  destruct (PipelineAnalysisWorkflow_never_fails workingActivities
              (analysisInput sampleInput (drug "DrugA" "NSCLC" "Phase3")))
    as (_ & _ & _ & Hparent).
  apply (Hparent distinctNameRun sampleInput).
  - vm_compute. reflexivity.
  - vm_compute. reflexivity.
Defined.

(** ** The valuation phase *)

Lemma fanOut_saga env input st0 : saga (fanOut env input st0) = saga st0.
Proof.
  rewrite fanOut_collect.
  pose proof (collect_uncollected
                (length (PipelineResult.Pipelines (pipelineResult st0)))
                (selectorPicks env)
                (register (PipelineResult.Pipelines (pipelineResult st0))
                   (analysisFutures env input
                      (PipelineResult.Pipelines (pipelineResult st0))))
                (launched env input st0)) as Hu.
  unfold uncollected in Hu. injection Hu as Hs _ _ _ _ _ _ _ _ _ _ _.
  exact Hs.
Qed.

Lemma fanOut_output env input st0 : output (fanOut env input st0) = output st0.
Proof.
  rewrite fanOut_collect.
  pose proof (collect_uncollected
                (length (PipelineResult.Pipelines (pipelineResult st0)))
                (selectorPicks env)
                (register (PipelineResult.Pipelines (pipelineResult st0))
                   (analysisFutures env input
                      (PipelineResult.Pipelines (pipelineResult st0))))
                (launched env input st0)) as Hu.
  unfold uncollected in Hu. injection Hu as _ _ _ _ _ _ _ _ _ _ Ho _.
  exact Ho.
Qed.

Lemma valuationPhase_abort env input st e :
  valuationFuture env input st = Err e ->
  L2Intervention <= Level (classify e) ->
  let ev := ExecuteChildWorkflow
              ("valuation-" +:+ WorkflowInput.Ticker input +:+ "-" +:+ RunID env)
              (ValuationChild (valuationInput input st)) in
  exists st',
    valuationPhase env input st
    = (st', Some (Wrap "valuation workflow failed" e)) /\
    history st' = executeLoop (steps (saga st)) (history st ++ [ev]) /\
    completedSteps st' = completedSteps st /\
    output st' = output st.
Proof.
  intros Hfut Hlevel ev. unfold valuationPhase.
  change (valuationFuture env input
            (set_history _ (set_currentAgent "ValuationActuary" st)))
    with (valuationFuture env input st).
  rewrite Hfut.
  assert (Hge : (Level (classify e) >=? L2Intervention) = true)
    by (apply Z.geb_le; exact Hlevel).
  rewrite Hge. unfold Execute. eexists. split; [reflexivity|].
  split; [reflexivity|]. split; reflexivity.
Qed.









(** The run of [valuationFatalRun] completes: after the start of the
    valuation child workflow its history holds the report activity and no
    cleanup, and its output has a report and no valuation. *)
Example valuation_fatal_completes :
  exists out,
    outcome (BioValueWorkflow valuationFatalRun sampleInput) = Completed out /\
    WorkflowOutput.Valuation out = None /\
    WorkflowOutput.Report out = Some ReportResult.zero /\
    length (history (final (BioValueWorkflow valuationFatalRun sampleInput)))
    = 6%nat.
Proof. eexists. vm_compute. repeat split. Qed.

(** ** The progress query *)

(** C8. In every state of the workflow the progress query returns, with a
    nil error, a record with the current agent, the completed steps, the
    progress map, total_steps = 4 + 2 x the number of entries of the progress
    map, and the percentage
    float64(len(completed_steps)) / float64(total_steps) * 100; the state
    after the query is the state before it. *)
Theorem progressQuery_reads_state (st : State) :
  let '((info, err), st') := progressQuery st in
  st' = st /\
  err = None /\
  ProgressInfo.CurrentAgent info = currentAgent st /\
  ProgressInfo.CompletedSteps info = completedSteps st /\
  ProgressInfo.PipelineProgress info = pipelineProgress st /\
  ProgressInfo.TotalSteps info = 4 + 2 * Z.of_nat (size (pipelineProgress st)) /\
  ProgressInfo.Progress info
  = (float64_of_int (len (completedSteps st))
     / float64_of_int (ProgressInfo.TotalSteps info) * 100)%float.
Proof.
  unfold progressQuery. cbn [ProgressInfo.TotalSteps ProgressInfo.CurrentAgent
    ProgressInfo.CompletedSteps ProgressInfo.PipelineProgress
    ProgressInfo.Progress].
  repeat split. lia.
Qed.

(** ** How far completed_steps can grow *)

Lemma addsAtMost_refl st : addsAtMost 0 st st.
Proof. split; [lia|done]. Qed.

Lemma addsAtMost_trans j k st1 st2 st3 :
  addsAtMost j st1 st2 -> addsAtMost k st2 st3 -> addsAtMost (j + k) st1 st3.
Proof. intros [H1 R1] [H2 R2]. split; [lia|congruence]. Qed.

Lemma addsAtMost_weaken j k st1 st2 :
  (j <= k)%nat -> addsAtMost j st1 st2 -> addsAtMost k st1 st2.
Proof. intros Hle [H1 R1]. split; [lia|done]. Qed.

Lemma unsignalled_addsAtMost st st' :
  unsignalled st' = unsignalled st -> addsAtMost 0 st st'.
Proof.
  unfold unsignalled. intros Hu.
  injection Hu as _ _ Hsteps _ _ Hres _ _ _ _ _ _.
  split; [rewrite Hsteps; lia|done].
Qed.

Lemma succeeded_length_le {T} (futures : list (result T)) :
  (length (succeeded futures) <= length futures)%nat.
Proof.
  unfold succeeded.
  induction futures as [|[r|e] futures IH]; cbn [omap list_omap length] in *; lia.
Qed.

Lemma succeeded_length_all {T} (F : nat -> DrugPipeline.t -> result T)
    (ps : list DrugPipeline.t) :
  (forall i p, exists r, F i p = Ok r) ->
  length (succeeded (imap F ps)) = length ps.
Proof.
  revert F. induction ps as [|p ps IH]; intros F HF; [done|].
  rewrite imap_cons. unfold succeeded in *. cbn [omap list_omap].
  destruct (HF O p) as [r ->]. cbn [length]. f_equal. apply IH.
  intros i q. apply (HF (S i) q).
Qed.

Lemma fanOut_addsAtMost env input st :
  addsAtMost (length (PipelineResult.Pipelines (pipelineResult st)))
    st (fanOut env input st).
Proof.
  split; [|apply fanOut_pipelineResult].
  rewrite fanOut_completedSteps.
  pose proof (succeeded_length_le
                (analysisFutures env input
                   (PipelineResult.Pipelines (pipelineResult st)))) as Hle.
  unfold analysisFutures in Hle at 2. rewrite length_imap in Hle. lia.
Qed.

Lemma aggregate_addsAtMost input st : addsAtMost 2 st (aggregate input st).
Proof.
  split; [|done]. unfold aggregate. simpl. rewrite !length_app. simpl. lia.
Qed.

Lemma valuationPhase_addsAtMost env input st :
  addsAtMost 1 st (valuationPhase env input st).1.
Proof.
  unfold valuationPhase.
  destruct (valuationFuture env input _) as [r|e].
  - split; [|done]. simpl. rewrite length_app. simpl. lia.
  - destruct (Level (classify e) >=? L2Intervention); split; simpl; (lia || done).
Qed.

Lemma reportPhase_addsAtMost env input st :
  addsAtMost 1 st (reportPhase env input st).
Proof.
  unfold reportPhase.
  destruct (ReportGeneratorOutcome env _) as [r|e]; split; simpl;
    rewrite ?length_app; simpl; (lia || done).
Qed.

Lemma phaseA_pipelines env input :
  (length (completedSteps (phaseA env input (initialState env input))) <= 2)%nat.
Proof.
  pose proof (phaseA_completedSteps env input (initialState env input)) as H.
  simpl in H. lia.
Qed.

Lemma checked_cases env k st :
  (exists st', checked (pauseCheck env k st) = Continue st' /\ addsAtMost 0 st st') \/
  (exists st', checked (pauseCheck env k st)
               = Stop {| outcome := Suspended; final := st' |} /\
               addsAtMost 0 st st').
Proof.
  destruct (pauseCheck env k st) as [st'|st'] eqn:Hc; [left|right];
    exists st'; (split; [done|]); apply unsignalled_addsAtMost;
    eapply pauseCheck_unsignalled; eauto.
Qed.

(** Whatever happens in a run, completed_steps never holds more than the six
    base steps and one step per pipeline. *)
Lemma completedSteps_bound env input :
  let st := final (BioValueWorkflow env input) in
  (length (completedSteps st)
   <= 6 + length (PipelineResult.Pipelines (pipelineResult st)))%nat.
Proof.
  cbv zeta. unfold BioValueWorkflow, throughFanOut.
  destruct (SetQueryHandlerError env); [simpl; lia|].
  pose proof (phaseA_pipelines env input) as HA.
  set (stA := phaseA env input (initialState env input)) in *.
  destruct (checked_cases env 0 stA) as [(st1 & -> & [H1 R1])|(st1 & -> & [H1 R1])];
    [|cbn [final]; lia].
  destruct (fanOut_addsAtMost env input st1) as [H2 R2].
  set (st2 := fanOut env input st1) in *.
  unfold throughValuation.
  destruct (aggregate_addsAtMost input st2) as [H3 R3].
  set (st3 := aggregate input st2) in *.
  destruct (checked_cases env 2 st3) as [(st4 & -> & [H4 R4])|(st4 & -> & [H4 R4])];
    [|cbn [final]; rewrite R4, R3, R2; lia].
  destruct (valuationPhase_addsAtMost env input st4) as [H5 R5].
  destruct (valuationPhase env input st4) as [st5 [e|]]; simpl in H5, R5;
    [cbn [final]; rewrite R5, R4, R3, R2; lia|].
  destruct (checked_cases env 4 st5) as [(st6 & -> & [H6 R6])|(st6 & -> & [H6 R6])];
    [|cbn [final]; rewrite R6, R5, R4, R3, R2; lia].
  destruct (reportPhase_addsAtMost env input st6) as [H7 R7].
  cbn [final]. rewrite R7, R6, R5, R4, R3, R2. lia.
Qed.

Lemma fanOut_isPaused env input st : isPaused (fanOut env input st) = isPaused st.
Proof.
  rewrite fanOut_collect.
  pose proof (collect_uncollected
                (length (PipelineResult.Pipelines (pipelineResult st)))
                (selectorPicks env)
                (register (PipelineResult.Pipelines (pipelineResult st))
                   (analysisFutures env input
                      (PipelineResult.Pipelines (pipelineResult st))))
                (launched env input st)) as Hu.
  unfold uncollected in Hu. injection Hu as _ _ Hp _ _ _ _ _ _ _ _ _.
  exact Hp.
Qed.

Section HappyRun.

Context (ps : list DrugPipeline.t).

Let env := happyRun ps.
Let stA := phaseA env sampleInput (initialState env sampleInput).
Let st2 := fanOut env sampleInput stA.

Lemma happy_valuation (st : State) :
  exists st',
    valuationPhase env sampleInput st = (st', None) /\
    completedSteps st' = completedSteps st ++ ["ValuationActuary"] /\
    pipelineProgress st' = pipelineProgress st /\
    pipelineResult st' = pipelineResult st /\
    isPaused st' = isPaused st.
Proof. eexists. split; [reflexivity|]. repeat split. Qed.

Lemma happy_report (st : State) :
  completedSteps (reportPhase env sampleInput st)
  = completedSteps st ++ ["ReportGenerator"] /\
  pipelineProgress (reportPhase env sampleInput st) = pipelineProgress st /\
  pipelineResult (reportPhase env sampleInput st) = pipelineResult st.
Proof. repeat split. Qed.

Lemma happy_futures :
  length (succeeded (analysisFutures env sampleInput ps)) = length ps.
Proof.
  unfold analysisFutures. apply succeeded_length_all.
  intros i p. eexists. reflexivity.
Qed.

(** The run in which everything works, for any pipelines: it completes, with
    six base steps and one step per pipeline in completed_steps, and one
    entry of the progress map per distinct drug name. *)
Lemma happyRun_final :
  let run := BioValueWorkflow env sampleInput in
  outcome run = Completed (output (final run)) /\
  PipelineResult.Pipelines (pipelineResult (final run)) = ps /\
  length (completedSteps (final run)) = (6 + length ps)%nat /\
  dom (pipelineProgress (final run))
  = list_to_set (DrugPipeline.DrugName <$> ps).
Proof.
  assert (H0 : pauseCheck env 0 stA = Proceed stA)
    by (apply pauseCheck_quiet; reflexivity).
  assert (H2 : pauseCheck env 2 (aggregate sampleInput st2)
               = Proceed (aggregate sampleInput st2)).
  { apply pauseCheck_quiet; [reflexivity|].
    change (isPaused (aggregate sampleInput st2)) with (isPaused st2).
    unfold st2. rewrite fanOut_isPaused. reflexivity. }
  destruct (happy_valuation (aggregate sampleInput st2))
    as (st4 & Hval & Hsteps4 & Hprog4 & Hres4 & Hp4).
  assert (H4 : pauseCheck env 4 st4 = Proceed st4).
  { apply pauseCheck_quiet; [reflexivity|]. rewrite Hp4.
    change (isPaused (aggregate sampleInput st2)) with (isPaused st2).
    unfold st2. rewrite fanOut_isPaused. reflexivity. }
  destruct (happy_report st4) as (Hsteps6 & Hprog6 & Hres6).
  assert (Hrun : BioValueWorkflow env sampleInput
                 = {| outcome := Completed (output (reportPhase env sampleInput st4));
                      final := reportPhase env sampleInput st4 |}).
  { unfold BioValueWorkflow, throughFanOut.
    change (SetQueryHandlerError env) with (@None error).
    fold stA. rewrite H0. cbn [checked]. fold st2.
    unfold throughValuation. rewrite H2. cbn [checked]. rewrite Hval.
    rewrite H4. cbn [checked]. reflexivity. }
  cbv zeta. rewrite Hrun. cbn [outcome final].
  split; [done|]. rewrite Hres6, Hres4, Hsteps6, Hsteps4, Hprog6, Hprog4.
  change (pipelineResult (aggregate sampleInput st2)) with (pipelineResult st2).
  change (pipelineProgress (aggregate sampleInput st2)) with (pipelineProgress st2).
  change (completedSteps (aggregate sampleInput st2))
    with ((completedSteps st2 ++ ["ClinicalAggregation"]) ++ ["MarketAggregation"]).
  unfold st2. rewrite fanOut_pipelineResult, fanOut_dom.
  assert (HpsA : PipelineResult.Pipelines (pipelineResult stA) = ps) by reflexivity.
  assert (HstepsA : length (completedSteps stA) = 2%nat) by reflexivity.
  assert (HprogA : pipelineProgress stA = ∅) by reflexivity.
  rewrite HpsA, HprogA.
  split; [reflexivity|]. split.
  - rewrite !length_app, fanOut_completedSteps, HpsA, HstepsA.
    rewrite happy_futures. cbn [length]. lia.
  - rewrite dom_empty_L. apply (left_id_L ∅ (∪)).
Qed.

End HappyRun.

(** ** The activities and the cache *)

Lemma classify_Wrap msg e :
  classify (Wrap msg e) = match As e with
                          | Some c => c
                          | None =>
                              {| Level := Level (classify e);
                                 Code := Code (classify e);
                                 Message := Message (classify e);
                                 Cause := Some (Wrap msg e);
                                 Retryable := Retryable (classify e);
                                 MaxRetries := MaxRetries (classify e);
                                 Metadata := Metadata (classify e) |}
                          end.
Proof.
  unfold classify. simpl. destruct (As e) as [c|]; [done|].
  unfold classifySwitch. simpl.
  repeat match goal with |- context [Is e ?s] => destruct (Is e s) end; done.
Qed.

(** Wrapping an error with fmt.Errorf does not change its level. *)
Lemma classify_Wrap_Level msg e :
  Level (classify (Wrap msg e)) = Level (classify e).
Proof.
  rewrite classify_Wrap. unfold classify. by destruct (As e).
Qed.

Section ActivityProperties.

Context (now : Z) (RunID : string).
Context (Infer : llm.InferRequest -> result llm.InferResponse).
Context {jsonFinancial : JSON FinancialResult.t}
        {jsonPipelineResult : JSON PipelineResult.t}
        {jsonPipelines : JSON (list DrugPipeline.t)}
        {jsonClinical : JSON ClinicalAssessment.t}
        {jsonMarket : JSON MarketAssessment.t}
        {jsonValuation : JSON ValuationResult.t}.

Lemma Get_corrupted (w : World) (key cached : string) (ttl0 : Z) :
  cacheError w = None ->
  store w !! key = Some (cached, ttl0) ->
  cache.Get w key = (cached, None).
Proof. intros He Hs. unfold cache.Get. by rewrite He, Hs. Qed.

Lemma Get_deleted (w : World) (key : string) :
  cacheError w = None ->
  cache.Get (set_store (delete key (store w)) w) key = ("", None).
Proof. intros He. unfold cache.Get. simpl. by rewrite He, lookup_delete_eq. Qed.

Ltac corrupted_miss He Hs Hbad :=
  rewrite (Get_corrupted _ _ _ _ He Hs), (Get_deleted _ _ He), Hbad;
  unfold recomputed; simpl;
  match goal with
  | |- context [String.eqb ?c ""] => destruct (String.eqb c ""); simpl
  end;
  (destruct (Infer _) as [response|e1]; simpl;
   [destruct (Unmarshal (llm.FinalAnswer response)) as [answer|e2]; simpl;
    [unfold cache.Set_; simpl; rewrite He; simpl|]|]);
  (split; [reflexivity|]); (split; [reflexivity|]); (split; [reflexivity|]);
  (split; [intros v'; by intros [= <-] | intros e'; by intros [= <-]]).

Lemma financial_miss :
  missOnCorruption (Activities.FinancialAuditorActivity now RunID Infer)
    financialKeyOf (Activities.financialRequest RunID)
    (recomputed Infer (Activities.financialRequest RunID)
       plainInferMsg financialParseMsg (financialOf now))
    (24 * Hour).
Proof.
  intros input w cached ttl0 e He Hs Hbad miss. unfold miss, financialKeyOf in *.
  unfold Activities.FinancialAuditorActivity. corrupted_miss He Hs Hbad.
Qed.

Lemma pipeline_miss :
  missOnCorruption (Activities.PipelineScoutActivity now RunID Infer)
    pipelineKeyOf (Activities.pipelineRequest RunID)
    (recomputed Infer (Activities.pipelineRequest RunID)
       plainInferMsg pipelineParseMsg (scanOf now))
    (24 * Hour).
Proof.
  intros input w cached ttl0 e He Hs Hbad miss. unfold miss, pipelineKeyOf in *.
  unfold Activities.PipelineScoutActivity. corrupted_miss He Hs Hbad.
Qed.

Lemma clinical_miss :
  missOnCorruption (Activities.ClinicalAssessorActivity RunID Infer)
    clinicalKeyOf (Activities.clinicalRequest RunID)
    (recomputed Infer (Activities.clinicalRequest RunID)
       clinicalInferMsg clinicalParseMsg clinicalOf)
    (12 * Hour).
Proof.
  intros input w cached ttl0 e He Hs Hbad miss. unfold miss, clinicalKeyOf in *.
  unfold Activities.ClinicalAssessorActivity. corrupted_miss He Hs Hbad.
Qed.

Lemma market_miss :
  missOnCorruption (Activities.MarketStrategistActivity RunID Infer)
    marketKeyOf (Activities.marketRequest RunID)
    (recomputed Infer (Activities.marketRequest RunID)
       marketInferMsg marketParseMsg marketOf)
    (6 * Hour).
Proof.
  intros input w cached ttl0 e He Hs Hbad miss. unfold miss, marketKeyOf in *.
  unfold Activities.MarketStrategistActivity. corrupted_miss He Hs Hbad.
Qed.

(** C6. Each of the four activities that read the cache (financial audit,
    pipeline scan, clinical assessment, market analysis) treats a cached
    value that fails to parse as a miss: it sends its request to the LLM
    client and returns the result recomputed from the answer (the decoded
    answer with the identity fields of the input, and the current time where
    the result has a time), which is what it returns when the key is absent;
    it fails only with the wrapped error of the inference or of the decoding
    of the answer, never with the parse error of the cached value, and never
    returns the cached bytes. On success it leaves the recomputed result in
    the cache under the same key, with the time to live of its namespace
    (24 h, 24 h, 12 h, 6 h); on failure it leaves the store as it is. *)
Theorem corrupted_cache_is_a_miss :
  missOnCorruption (Activities.FinancialAuditorActivity now RunID Infer)
    financialKeyOf (Activities.financialRequest RunID)
    (recomputed Infer (Activities.financialRequest RunID)
       plainInferMsg financialParseMsg (financialOf now))
    (24 * Hour) /\
  missOnCorruption (Activities.PipelineScoutActivity now RunID Infer)
    pipelineKeyOf (Activities.pipelineRequest RunID)
    (recomputed Infer (Activities.pipelineRequest RunID)
       plainInferMsg pipelineParseMsg (scanOf now))
    (24 * Hour) /\
  missOnCorruption (Activities.ClinicalAssessorActivity RunID Infer)
    clinicalKeyOf (Activities.clinicalRequest RunID)
    (recomputed Infer (Activities.clinicalRequest RunID)
       clinicalInferMsg clinicalParseMsg clinicalOf)
    (12 * Hour) /\
  missOnCorruption (Activities.MarketStrategistActivity RunID Infer)
    marketKeyOf (Activities.marketRequest RunID)
    (recomputed Infer (Activities.marketRequest RunID)
       marketInferMsg marketParseMsg marketOf)
    (6 * Hour).
Proof.
  split; [apply financial_miss|]. split; [apply pipeline_miss|].
  split; [apply clinical_miss|apply market_miss].
Qed.

(** C5, as the code has it. ValuationActuaryActivity checks no bound: it
    sends one request to the LLM client and touches no cache; whatever
    ValuationResult the answer decodes to is returned as it is, whatever its
    WACC, terminal growth and average POS; the activity fails exactly when
    the inference or the decoding fails, and the level ClassifyError gives
    its error is the level of that underlying error. *)
Theorem ValuationActuaryActivity_returns_answer_unchecked
    (input : ValuationActuaryInput.t) (w : World) :
  let '(r, w') := Activities.ValuationActuaryActivity RunID Infer input w in
  llmCalls w' = llmCalls w ++ [Activities.valuationRequest RunID input] /\
  store w' = store w /\
  (forall response v,
     Infer (Activities.valuationRequest RunID input) = Ok response ->
     Unmarshal (llm.FinalAnswer response) = Ok v ->
     r = Ok v) /\
  (forall e, r = Err e ->
     exists msg cause,
       e = Wrap msg cause /\
       Level (classify e) = Level (classify cause) /\
       (Infer (Activities.valuationRequest RunID input) = Err cause \/
        exists response,
          Infer (Activities.valuationRequest RunID input) = Ok response /\
          Unmarshal (T := ValuationResult.t) (llm.FinalAnswer response)
          = Err cause)).
Proof.
  unfold Activities.ValuationActuaryActivity.
  destruct (Infer _) as [response|e1] eqn:HI.
  - destruct (Unmarshal (llm.FinalAnswer response)) as [v|e2] eqn:HU.
    + repeat split; [|done].
      intros response' v' [= <-] Hv. rewrite HU in Hv. by injection Hv as ->.
    + repeat split; [intros response' v' [= <-]; congruence|].
      intros e [= <-]. eexists _, _. split; [done|].
      split; [apply classify_Wrap_Level|]. right. by exists response.
  - repeat split; [done|].
    intros e [= <-]. eexists _, _. split; [done|].
    split; [apply classify_Wrap_Level|]. by left.
Qed.

End ActivityProperties.

(** The claim C5 fails on the code in the repository: its LLM client answers
    every request with the placeholder object, which decodes to the zero
    ValuationResult, and ValuationActuaryActivity returns it: WACC = 0 is
    below 0.08, the average POS is 0 whatever the clinical assessments are,
    no error is raised, and the main workflow completes with this valuation
    in its output. *)
Lemma valuation_bounds_not_enforced :
  stubValuation sampleValuationInput = Ok ValuationResult.zero /\
  (0.08 <=? ValuationAssumptions.WACC
              (ValuationResult.Assumptions ValuationResult.zero))%float = false /\
  (exists v,
     stubValuation valuationInputWithClinical = Ok v /\
     map ClinicalAssessment.POSScore
       (ClinicalResult.Assessments
          (ValuationActuaryInput.Clinical valuationInputWithClinical))
     = [0.45%float] /\
     (ValuationAssumptions.AvgPOS (ValuationResult.Assumptions v) =? 0.45)%float
     = false) /\
  exists out v,
    outcome (BioValueWorkflow placeholderRun sampleInput) = Completed out /\
    WorkflowOutput.Valuation out = Some v /\
    (0.08 <=? ValuationAssumptions.WACC (ValuationResult.Assumptions v))%float
    = false.
Proof.
  split; [vm_compute; reflexivity|]. split; [vm_compute; reflexivity|]. split.
  - eexists. split; [vm_compute; reflexivity|]. split; vm_compute; reflexivity.
  - eexists _, _. split; [vm_compute; reflexivity|].
    split; vm_compute; reflexivity.
Qed.

Lemma ValuationActuaryActivity_returns_answer_unchecked_witness :
  (Activities.ValuationActuaryActivity
     (jsonValuation := placeholderJSON ValuationResult.zero)
     "run-1" llm.Infer sampleValuationInput emptyWorld).1
  = Ok ValuationResult.zero.
Proof.
  pose proof (ValuationActuaryActivity_returns_answer_unchecked "run-1" llm.Infer
                (jsonValuation := placeholderJSON ValuationResult.zero)
                sampleValuationInput emptyWorld) as H.
  destruct (Activities.ValuationActuaryActivity "run-1" llm.Infer
              sampleValuationInput emptyWorld) as [r w'].
  destruct H as (_ & _ & Hok & _).
  exact (Hok _ _ eq_refl eq_refl).
Defined.

(** On [corruptedWorld], with the placeholder LLM client: the financial
    activity returns the recomputed result and overwrites the corrupted
    entry; the clinical activity returns the assessment recomputed for
    DrugA. *)
Lemma corrupted_cache_is_a_miss_witness :
  (Activities.FinancialAuditorActivity
     (jsonFinancial := placeholderJSON FinancialResult.zero)
     sampleNow "run-1" llm.Infer sampleFinancialInput corruptedWorld).1
  = Ok (financialOf sampleNow sampleFinancialInput FinancialResult.zero) /\
  store (Activities.FinancialAuditorActivity
     (jsonFinancial := placeholderJSON FinancialResult.zero)
     sampleNow "run-1" llm.Infer sampleFinancialInput corruptedWorld).2
  !! "company:BGNE:financials" = Some (llm.placeholderAnswer, 24 * Hour) /\
  (Activities.ClinicalAssessorActivity
     (jsonClinical := placeholderJSON ClinicalAssessment.zero)
     "run-1" llm.Infer sampleClinicalInput corruptedWorld).1
  = Ok (clinicalOf sampleClinicalInput ClinicalAssessment.zero).
Proof.
  destruct (corrupted_cache_is_a_miss sampleNow "run-1" llm.Infer
              (jsonFinancial := placeholderJSON FinancialResult.zero)
              (jsonPipelineResult := placeholderJSON PipelineResult.zero)
              (jsonPipelines := pipelinesJSON)
              (jsonClinical := placeholderJSON ClinicalAssessment.zero)
              (jsonMarket := placeholderJSON MarketAssessment.zero))
    as (Hfin & _ & Hclin & _).
  destruct (Hfin sampleFinancialInput corruptedWorld "corrupted" (24 * Hour)
              (Other "invalid character looking for beginning of value")
              eq_refl eq_refl eq_refl) as (Hres & _ & _ & Hstore & _).
  destruct (Hclin sampleClinicalInput corruptedWorld "corrupted" (12 * Hour)
              (Other "invalid character looking for beginning of value")
              eq_refl eq_refl eq_refl) as (Hres' & _).
  split; [exact Hres|]. split; [|exact Hres'].
  rewrite (Hstore _ Hres). apply lookup_insert_eq.
Defined.

(** On the corrupted store the financial activity recomputes, returns the
    new result and overwrites the corrupted entry. *)
Example financial_recomputes :
  let '(r, w) :=
    Activities.FinancialAuditorActivity
      (jsonFinancial := placeholderJSON FinancialResult.zero)
      sampleNow "run-1" llm.Infer sampleFinancialInput corruptedWorld in
  (exists v, r = Ok v /\ FinancialResult.Ticker v = "BGNE" /\
             FinancialResult.UpdatedAt v = sampleNow) /\
  store w !! "company:BGNE:financials"
  = Some (llm.placeholderAnswer, 24 * Hour) /\
  length (llmCalls w) = 1%nat.
Proof. vm_compute. split; [eexists; repeat split|]. split; reflexivity. Qed.

Lemma happyRun_totalSteps (ps : list DrugPipeline.t) :
  NoDup (DrugPipeline.DrugName <$> ps) ->
  ProgressInfo.TotalSteps
    (progressOf (final (BioValueWorkflow (happyRun ps) sampleInput)))
  = 4 + 2 * len ps.
Proof.
  intros Hnd. destruct (happyRun_final ps) as (_ & _ & _ & Hdom).
  unfold progressOf, progressQuery. cbn [fst ProgressInfo.TotalSteps].
  rewrite <- size_dom, Hdom, size_list_to_set by done.
  rewrite length_fmap. unfold len. lia.
Qed.

(** C10. The percentage of the progress query is not bounded by 100.
    In every run completed_steps holds at most 6 + n entries, n being the
    number of pipelines; in the run in which everything works it holds
    exactly 6 + n entries at the end, while total_steps is 4 + 2n when the
    drug names are pairwise distinct. So a run without pipelines ends with
    the six base steps completed out of 4, a progress of 150, and a run with
    one pipeline ends with 7 steps out of 6, a progress above 100. *)
Theorem progress_can_exceed_100 :
  (forall env input,
     let st := final (BioValueWorkflow env input) in
     (length (completedSteps st)
      <= 6 + length (PipelineResult.Pipelines (pipelineResult st)))%nat) /\
  (forall ps,
     let st := final (BioValueWorkflow (happyRun ps) sampleInput) in
     PipelineResult.Pipelines (pipelineResult st) = ps /\
     length (completedSteps st) = (6 + length ps)%nat /\
     (NoDup (DrugPipeline.DrugName <$> ps) ->
      ProgressInfo.TotalSteps (progressOf st) = 4 + 2 * len ps)) /\
  (let st := final (BioValueWorkflow (happyRun []) sampleInput) in
   completedSteps st
   = ["FinancialAuditor"; "PipelineScout"; "ClinicalAggregation";
      "MarketAggregation"; "ValuationActuary"; "ReportGenerator"] /\
   ProgressInfo.TotalSteps (progressOf st) = 4 /\
   ProgressInfo.Progress (progressOf st) = 150%float) /\
  (let st := final (BioValueWorkflow
                      (happyRun [drug "DrugA" "NSCLC" "Phase3"]) sampleInput) in
   completedSteps st
   = ["FinancialAuditor"; "PipelineScout"; "PipelineAnalysis:DrugA";
      "ClinicalAggregation"; "MarketAggregation"; "ValuationActuary";
      "ReportGenerator"] /\
   ProgressInfo.TotalSteps (progressOf st) = 6 /\
   (100 <? ProgressInfo.Progress (progressOf st))%float = true).
Proof.
  split; [apply completedSteps_bound|]. split; [|split].
  - intros ps. destruct (happyRun_final ps) as (_ & Hps & Hlen & _).
    cbv zeta. split; [exact Hps|]. split; [exact Hlen|].
    apply happyRun_totalSteps.
  - cbv zeta. split; [vm_compute; reflexivity|].
    split; vm_compute; reflexivity.
  - cbv zeta. split; [vm_compute; reflexivity|].
    split; vm_compute; reflexivity.
Qed.

Lemma progress_can_exceed_100_witness :
  ProgressInfo.TotalSteps
    (progressOf (final (BioValueWorkflow (happyRun twoDrugs) sampleInput)))
  = 8.
Proof.
  destruct progress_can_exceed_100 as (_ & Hhappy & _).
  destruct (Hhappy twoDrugs) as (_ & _ & Htotal).
  assert (Hnd : NoDup (DrugPipeline.DrugName <$> twoDrugs))
    by (apply (bool_decide_unpack _); vm_compute; exact I).
  exact (Htotal Hnd).
Defined.

(** * Further properties of the workflow layer *)

(** ** When the main workflow fails *)

Lemma valuationPhase_error env input st st' e :
  valuationPhase env input st = (st', Some e) ->
  exists e0,
    e = Wrap "valuation workflow failed" e0 /\
    valuationFuture env input st = Err e0 /\
    L2Intervention <= Level (classify e0).
Proof.
  unfold valuationPhase.
  change (valuationFuture env input
            (set_history _ (set_currentAgent "ValuationActuary" st)))
    with (valuationFuture env input st).
  destruct (valuationFuture env input st) as [r|e0]; [done|].
  destruct (Level (classify e0) >=? L2Intervention) eqn:Hge; [|done].
  intros [= _ <-]. exists e0. split; [done|]. split; [done|].
  by apply Z.geb_le.
Qed.

(** BioValueWorkflow returns an error in two cases only: the query handler
    could not be registered, or the valuation child workflow failed with an
    error of level L2 or higher. Failures of the financial audit, of the
    pipeline scan, of any per-pipeline child workflow and of the report
    never fail the workflow. *)
Theorem BioValueWorkflow_aborts_only_on_setup_or_valuation (env : Env)
    (input : WorkflowInput.t) (e : error) :
  outcome (BioValueWorkflow env input) = Aborted e ->
  (exists e0, SetQueryHandlerError env = Some e0 /\
              e = Wrap "failed to set query handler" e0) \/
  (exists st e0, valuationFuture env input st = Err e0 /\
                 L2Intervention <= Level (classify e0) /\
                 e = Wrap "valuation workflow failed" e0).
Proof.
  unfold BioValueWorkflow, throughFanOut.
  destruct (SetQueryHandlerError env) as [e0|].
  - simpl. intros [= <-]. left. by exists e0.
  - destruct (pauseCheck env 0 _) as [st1|st1]; cbn [checked]; [|done].
    unfold throughValuation.
    destruct (pauseCheck env 2 _) as [st3|st3]; cbn [checked]; [|done].
    destruct (valuationPhase env input st3) as [st4 [e1|]] eqn:Hval.
    + cbn [outcome]. intros [= <-].
      destruct (valuationPhase_error _ _ _ _ _ Hval) as (e0 & -> & Hfut & Hlevel).
      right. by exists st3, e0.
    + destruct (pauseCheck env 4 st4) as [st5|st5]; cbn [checked]; done.
Qed.

(** In [queryHandlerFailsRun] the workflow fails at the registration of the
    query handler. *)
Lemma BioValueWorkflow_aborts_only_on_setup_or_valuation_witness :
  (exists e0, SetQueryHandlerError queryHandlerFailsRun = Some e0 /\
              Wrap "failed to set query handler" (Other "query handler rejected")
              = Wrap "failed to set query handler" e0) \/
  (exists st e0, valuationFuture queryHandlerFailsRun sampleInput st = Err e0 /\
                 L2Intervention <= Level (classify e0) /\
                 Wrap "failed to set query handler" (Other "query handler rejected")
                 = Wrap "valuation workflow failed" e0).
Proof.
  apply (BioValueWorkflow_aborts_only_on_setup_or_valuation queryHandlerFailsRun
           sampleInput).
  vm_compute. reflexivity.
Defined.

(** A valuation failure below L2 is tolerated: the Saga does not run, the
    workflow does not fail, completed_steps and the output are left as they
    were, and the report input carries the ValuationResult variable as it was
    before the phase (in a run: its zero value). *)
Theorem valuation_failure_below_L2_is_tolerated (env : Env)
    (input : WorkflowInput.t) (st : State) (e : error) :
  valuationFuture env input st = Err e ->
  Level (classify e) < L2Intervention ->
  exists st',
    valuationPhase env input st = (st', None) /\
    history st'
    = history st ++
      [ExecuteChildWorkflow
         ("valuation-" +:+ WorkflowInput.Ticker input +:+ "-" +:+ RunID env)
         (ValuationChild (valuationInput input st))] /\
    completedSteps st' = completedSteps st /\
    output st' = output st /\
    valuationResult st' = valuationResult st /\
    ReportGeneratorInput.Valuation (reportInput input st') = valuationResult st.
Proof.
  intros Hfut Hlevel. unfold valuationPhase.
  change (valuationFuture env input
            (set_history _ (set_currentAgent "ValuationActuary" st)))
    with (valuationFuture env input st).
  rewrite Hfut.
  assert (Hge : (Level (classify e) >=? L2Intervention) = false).
  { destruct (Level (classify e) >=? L2Intervention) eqn:H; [|done].
    apply Z.geb_le in H. lia. }
  rewrite Hge. eexists. split; [reflexivity|]. repeat split.
Qed.

Lemma valuation_failure_below_L2_is_tolerated_witness :
  exists st',
    valuationPhase
      (runWith [] noFailure [] (Err (Other "connection reset")))
      sampleInput
      (initialState (runWith [] noFailure [] (Err (Other "connection reset")))
         sampleInput)
    = (st', None) /\
    WorkflowOutput.Valuation (output st') = None.
Proof.
  destruct (valuation_failure_below_L2_is_tolerated
              (runWith [] noFailure [] (Err (Other "connection reset")))
              sampleInput
              (initialState
                 (runWith [] noFailure [] (Err (Other "connection reset")))
                 sampleInput)
              (Wrap "child workflow execution error" (Other "connection reset")))
    as (st' & Hphase & _ & _ & Hout & _).
  - vm_compute. reflexivity.
  - vm_compute. reflexivity.
  - exists st'. split; [exact Hphase|]. rewrite Hout. reflexivity.
Defined.

(** ** The Saga of the main workflow *)

(** After the parallel phase the Saga holds one step per activity that
    succeeded, named financial and pipeline, the one whose future the
    selector delivered last coming first: the cleanup order of a later
    Execute depends on the completion order of the two activities. *)
Theorem phaseA_saga_order (env : Env) (input : WorkflowInput.t) :
  let st := phaseA env input (initialState env input) in
  let fin :=
    match FinancialAuditorOutcome env (financialInput input) with
    | Ok _ => ["financial"]
    | Err _ => []
    end in
  let pip :=
    match PipelineScoutOutcome env (scoutInput input) with
    | Ok _ => ["pipeline"]
    | Err _ => []
    end in
  map Name (steps (saga st))
  = (if financialFirst env then pip ++ fin else fin ++ pip) /\
  Len (saga st) = len (completedSteps st) /\
  rev (map Name (steps (saga st)))
  = map (fun s => if String.eqb s "FinancialAuditor" then "financial"
                  else "pipeline") (completedSteps st).
Proof.
  cbv zeta. unfold phaseA, onFinancial, onPipeline.
  destruct (financialFirst env), (FinancialAuditorOutcome env _),
    (PipelineScoutOutcome env _); done.
Qed.

(** ** The fan-out, whatever the drug names *)

Lemma collect_values (n : nat) (picks : list nat)
    (pending : list (string * result PipelineAnalysisResult.t)) (st : State)
    (name v : string) :
  n = length pending ->
  pipelineProgress (collect n picks pending st) !! name = Some v ->
  v = "completed" \/ v = "failed" \/
  ((name ∉ pending.*1) /\ pipelineProgress st !! name = Some v).
Proof.
  revert picks pending st.
  induction n as [|n IH]; intros picks pending st Hn Hv.
  - destruct pending; [|done]. right. right. split; [apply not_elem_of_nil|done].
  - assert (Hne : pending <> []) by (destruct pending; done).
    destruct (selectOne_Some (hd O picks) pending Hne)
      as ([name0 future0] & rest & Hsel & Hperm).
    simpl in Hv. rewrite Hsel in Hv.
    assert (Hlen : n = length rest).
    { apply Permutation_length in Hperm. simpl in Hperm. lia. }
    destruct (IH _ _ _ Hlen Hv) as [H|[H|[Hnot Hbefore]]]; [by left|by right; left|].
    rewrite onAnalysis_progress in Hbefore.
    destruct (decide (name0 = name)) as [->|Hneq].
    + rewrite lookup_insert_eq in Hbefore. injection Hbefore as <-.
      destruct future0; [by left|by right; left].
    + rewrite lookup_insert_ne in Hbefore by done. right. right.
      split; [|done]. rewrite Hperm. simpl. by apply not_elem_of_cons.
Qed.

Lemma phaseA_history env input :
  history (phaseA env input (initialState env input))
  = [ExecuteActivity (FinancialAuditorCall (financialInput input));
     ExecuteActivity (PipelineScoutCall (scoutInput input))].
Proof.
  unfold phaseA, onFinancial, onPipeline.
  destruct (financialFirst env), (FinancialAuditorOutcome env _),
    (PipelineScoutOutcome env _); done.
Qed.

Lemma fanOut_history env input st0 :
  history (fanOut env input st0)
  = history st0 ++
    imap (fun i p =>
            ExecuteChildWorkflow (analysisWorkflowID env input i)
              (PipelineAnalysisChild (analysisInput input p)))
      (PipelineResult.Pipelines (pipelineResult st0)).
Proof.
  rewrite fanOut_collect.
  pose proof (collect_uncollected
                (length (PipelineResult.Pipelines (pipelineResult st0)))
                (selectorPicks env)
                (register (PipelineResult.Pipelines (pipelineResult st0))
                   (analysisFutures env input
                      (PipelineResult.Pipelines (pipelineResult st0))))
                (launched env input st0)) as Hu.
  unfold uncollected in Hu. injection Hu as _ _ _ _ _ _ _ _ _ _ _ Hh.
  rewrite Hh. reflexivity.
Qed.

(** At the end of the fan-out phase, whatever the drug names, the selector
    order and the outcomes: the keys of the progress map are exactly the
    drug names of the PipelineResult, and every marker is completed or
    failed; none is left pending or in_progress. *)
Theorem fanOut_leaves_final_markers (env : Env) (input : WorkflowInput.t)
    (st : State) :
  throughFanOut env input = Continue st ->
  dom (pipelineProgress st)
  = list_to_set (DrugPipeline.DrugName
                   <$> PipelineResult.Pipelines (pipelineResult st)) /\
  (forall name v,
     pipelineProgress st !! name = Some v -> v = "completed" \/ v = "failed").
Proof.
  intros Hrun.
  destruct (throughFanOut_Continue _ _ _ Hrun) as (st0 & -> & Hempty & _).
  split.
  - rewrite fanOut_dom, fanOut_pipelineResult, Hempty, dom_empty_L.
    apply (left_id_L ∅ (∪)).
  - intros name v Hv. rewrite fanOut_collect in Hv.
    apply collect_values in Hv; [|apply register_length].
    destruct Hv as [H|[H|[Hnot Hbefore]]]; [by left|by right|].
    exfalso. unfold analysisFutures in Hnot. rewrite register_names in Hnot.
    simpl in Hbefore. rewrite inProgress_lookup in Hbefore.
    destruct (decide (name ∈ DrugPipeline.DrugName
                        <$> PipelineResult.Pipelines (pipelineResult st0)));
      [done|].
    rewrite initProgress_lookup in Hbefore.
    destruct (decide (name ∈ DrugPipeline.DrugName
                        <$> PipelineResult.Pipelines (pipelineResult st0)));
      [done|].
    by rewrite Hempty in Hbefore.
Qed.

(** In [duplicateNameRun], where two pipelines share a name, the progress
    map has one key for both. *)
Lemma fanOut_leaves_final_markers_witness :
  dom (pipelineProgress
         (fanOut duplicateNameRun sampleInput
            (phaseA duplicateNameRun sampleInput
               (initialState duplicateNameRun sampleInput))))
  = list_to_set
      (DrugPipeline.DrugName
         <$> PipelineResult.Pipelines
               (pipelineResult
                  (fanOut duplicateNameRun sampleInput
                     (phaseA duplicateNameRun sampleInput
                        (initialState duplicateNameRun sampleInput))))).
Proof.
  assert (Hrun : throughFanOut duplicateNameRun sampleInput
                 = Continue (fanOut duplicateNameRun sampleInput
                     (phaseA duplicateNameRun sampleInput
                        (initialState duplicateNameRun sampleInput))))
    by (vm_compute; reflexivity).
  exact (proj1 (fanOut_leaves_final_markers duplicateNameRun sampleInput _
                  Hrun)).
Defined.

(** The history of a run that reaches the end of the fan-out phase: the two
    activities of the parallel phase, financial audit first, then one child
    workflow per pipeline, started in pipeline order, the i-th one under the
    ID pipeline-analysis-{ticker}-{run id}-{i} and with the i-th pipeline as
    input. *)
Theorem fanOut_starts_one_child_per_pipeline (env : Env)
    (input : WorkflowInput.t) (st : State) :
  throughFanOut env input = Continue st ->
  history st
  = [ExecuteActivity (FinancialAuditorCall (financialInput input));
     ExecuteActivity (PipelineScoutCall (scoutInput input))] ++
    imap (fun i p =>
            ExecuteChildWorkflow
              ("pipeline-analysis-" +:+ WorkflowInput.Ticker input +:+ "-"
               +:+ RunID env +:+ "-" +:+ pretty (Z.of_nat i))
              (PipelineAnalysisChild
                 {| PipelineAnalysisInput.Ticker := WorkflowInput.Ticker input;
                    PipelineAnalysisInput.Pipeline := p |}))
      (PipelineResult.Pipelines (pipelineResult st)).
Proof.
  unfold throughFanOut. destruct (SetQueryHandlerError env); [done|].
  destruct (pauseCheck env 0 (phaseA env input (initialState env input)))
    as [st0|st0] eqn:Hcheck; cbn [checked]; [|done].
  intros [= <-].
  assert (Hu := pauseCheck_unsignalled _ _ _ _ (or_introl Hcheck)).
  unfold unsignalled in Hu. injection Hu as _ _ _ _ _ _ _ _ _ _ _ Hh.
  rewrite fanOut_history, fanOut_pipelineResult, Hh, phaseA_history.
  reflexivity.
Qed.

Lemma fanOut_starts_one_child_per_pipeline_witness :
  length (history (fanOut distinctNameRun sampleInput
                     (phaseA distinctNameRun sampleInput
                        (initialState distinctNameRun sampleInput))))
  = 4%nat.
Proof.
  rewrite (fanOut_starts_one_child_per_pipeline distinctNameRun sampleInput).
  - vm_compute. reflexivity.
  - vm_compute. reflexivity.
Defined.

Lemma collect_fifo (n : nat)
    (pending : list (string * result PipelineAnalysisResult.t)) (st : State) :
  n = length pending ->
  pipelineAnalyses (collect n [] pending st)
  = pipelineAnalyses st ++ succeeded pending.*2.
Proof.
  revert pending st. induction n as [|n IH]; intros pending st Hn.
  - destruct pending; [|done]. simpl. by rewrite app_nil_r.
  - destruct pending as [|[name future] rest]; [done|].
    cbn [collect hd tl]. unfold selectOne. cbn [length].
    rewrite Nat.Div0.mod_0_l. cbn [lookup list_lookup delete list_delete].
    rewrite IH by (simpl in Hn; lia).
    rewrite onAnalysis_analyses, <- app_assoc. f_equal.
    unfold succeeded. by destruct future.
Qed.

Lemma succeeded_pipelines_sublist
    (F : nat -> DrugPipeline.t -> result PipelineAnalysisResult.t)
    (ps : list DrugPipeline.t) :
  (forall i p r, F i p = Ok r -> PipelineAnalysisResult.Pipeline r = p) ->
  sublist (PipelineAnalysisResult.Pipeline <$> succeeded (imap F ps)) ps.
Proof.
  revert F. induction ps as [|p ps IH]; intros F HF; [constructor|].
  rewrite imap_cons. unfold succeeded in *. cbn [omap list_omap].
  specialize (IH (F ∘ S) (fun i q r H => HF (S i) q r H)).
  destruct (F O p) as [r|e] eqn:HFp.
  - rewrite fmap_cons, (HF O p r HFp). by constructor.
  - by constructor.
Qed.

Lemma analysisFuture_Ok env input i p r :
  analysisFuture env input i p = Ok r -> PipelineAnalysisResult.Pipeline r = p.
Proof.
  unfold analysisFuture, childGet. destruct (childFailure env i); [done|].
  simpl. by intros [= <-].
Qed.

(** When the selector delivers the child futures in the order in which they
    were started, the collected analyses (and so the rows of both
    aggregates) are the results of the successful children in pipeline
    order; each row carries the pipeline it was computed for. With another
    delivery order the rows come in that order instead. *)
Theorem fanOut_in_dispatch_order_keeps_pipeline_order (env : Env)
    (input : WorkflowInput.t) (st : State) :
  throughFanOut env input = Continue st ->
  selectorPicks env = [] ->
  let ps := PipelineResult.Pipelines (pipelineResult st) in
  pipelineAnalyses st = succeeded (analysisFutures env input ps) /\
  sublist (PipelineAnalysisResult.Pipeline <$> pipelineAnalyses st) ps /\
  ClinicalResult.Assessments (clinicalResult (aggregate input st))
  = PipelineAnalysisResult.Clinical <$> succeeded (analysisFutures env input ps).
Proof.
  intros Hrun Hpicks ps.
  destruct (throughFanOut_Continue _ _ _ Hrun) as (st0 & -> & _).
  unfold ps. rewrite fanOut_pipelineResult.
  assert (Ha : pipelineAnalyses (fanOut env input st0)
               = succeeded (analysisFutures env input
                              (PipelineResult.Pipelines (pipelineResult st0)))).
  { rewrite fanOut_collect, Hpicks, collect_fifo by apply register_length.
    unfold analysisFutures. by rewrite register_futures. }
  split; [exact Ha|]. split.
  - rewrite Ha. apply succeeded_pipelines_sublist. apply analysisFuture_Ok.
  - change (clinicalResult (aggregate input (fanOut env input st0)))
      with (aggregateClinicalResults (WorkflowInput.Ticker input)
              (pipelineAnalyses (fanOut env input st0))).
    by rewrite aggregateClinical_assessments, Ha.
Qed.

Lemma fanOut_in_dispatch_order_keeps_pipeline_order_witness :
  PipelineAnalysisResult.Pipeline
    <$> pipelineAnalyses
          (fanOut (happyRun twoDrugs) sampleInput
             (phaseA (happyRun twoDrugs) sampleInput
                (initialState (happyRun twoDrugs) sampleInput)))
  = twoDrugs.
Proof.
  destruct (fanOut_in_dispatch_order_keeps_pipeline_order (happyRun twoDrugs)
              sampleInput
              (fanOut (happyRun twoDrugs) sampleInput
                 (phaseA (happyRun twoDrugs) sampleInput
                    (initialState (happyRun twoDrugs) sampleInput))))
    as (Ha & _).
  - vm_compute. reflexivity.
  - reflexivity.
  - rewrite Ha. vm_compute. reflexivity.
Defined.

(** In [distinctNameRun] with both children working and the second future
    delivered first, the rows come in delivery order, not in pipeline
    order. *)
Example fanOut_delivery_order :
  PipelineAnalysisResult.Pipeline
    <$> pipelineAnalyses
          (final (BioValueWorkflow
                    (runWith twoDrugs noFailure [1%nat; 0%nat]
                       (Ok ValuationResult.zero)) sampleInput))
  = rev twoDrugs.
Proof. vm_compute. reflexivity. Qed.

(** ** Signals *)

Lemma handleSignal_cancelled st signal :
  cancelled (handleSignal st signal) = cancelled st.
Proof.
  unfold handleSignal. destruct (listening st); [|done].
  repeat match goal with |- context [String.eqb ?a ?b] => destruct (String.eqb a b) end;
    done.
Qed.

Lemma deliver_cancelled sigs st : cancelled (deliver sigs st) = cancelled st.
Proof.
  unfold deliver. revert st. induction sigs as [|s sigs IH]; intros st; simpl; [done|].
  by rewrite IH, handleSignal_cancelled.
Qed.

(** Only a cancellation closes ctx.Done(). *)
Lemma arrive_cancelled tasks st :
  Forall isSignals tasks -> cancelled (arrive tasks st) = cancelled st.
Proof.
  intros Hall. revert st. unfold arrive.
  induction Hall as [|task tasks Ht Hall IH]; intros st; [done|].
  cbn [foldl]. rewrite IH. destruct task; [apply deliver_cancelled|done].
Qed.

Lemma handleArrival_cancelled_mono st task :
  cancelled st = true -> cancelled (handleArrival st task) = true.
Proof.
  intros Hc. destruct task; simpl; [by rewrite deliver_cancelled|done].
Qed.

(** Await returns when the predicate holds or the context is done. *)
Lemma waitForResume_Proceed tasks st st' :
  waitForResume tasks st = Proceed st' ->
  isPaused st' = false \/ cancelled st' = true.
Proof.
  revert st. induction tasks as [|task tasks IH]; intros st;
    cbn [waitForResume];
    destruct (isPaused st) eqn:Hp; cbn [negb];
    destruct (cancelled st) eqn:Hc; try done;
    try (intros [= <-]; auto).
  apply IH.
Qed.

(** Without a cancellation, Await returns only when the predicate holds. *)
Lemma waitForResume_Proceed_signals tasks st st' :
  Forall isSignals tasks ->
  cancelled st = false ->
  waitForResume tasks st = Proceed st' ->
  isPaused st' = false /\ cancelled st' = false.
Proof.
  intros Hall. revert st.
  induction Hall as [|task tasks Ht Hall IH]; intros st Hc;
    cbn [waitForResume];
    destruct (isPaused st) eqn:Hp; cbn [negb]; rewrite ?Hc; try done;
    try (intros [= <-]; auto).
  apply IH. destruct task; [|done]. cbn [handleArrival].
  by rewrite deliver_cancelled.
Qed.

(** The workflow goes past a pause check either unpaused or cancelled: the
    check lets a paused workflow through only when the cancellation of the
    workflow has been requested (Await then returns a CanceledError, which
    the code discards). As long as no cancellation arrives, the state with
    which the workflow proceeds is unpaused. Apart from the pause flag, the
    listener and the cancellation it is the state the phase left. *)
Theorem pauseCheck_proceeds_unpaused_or_cancelled (env : Env) (k : nat)
    (st st' : State) :
  pauseCheck env k st = Proceed st' ->
  (isPaused st' = false \/ cancelled st' = true) /\
  unsignalled st' = unsignalled st /\
  (cancelled st = false ->
   Forall isSignals (arrivals env k) ->
   Forall isSignals (arrivals env (S k)) ->
   isPaused st' = false /\ cancelled st' = false).
Proof.
  intros Hc. split; [|split; [eapply pauseCheck_unsignalled; eauto|]].
  - unfold pauseCheck in Hc.
    destruct (isPaused (arrive (arrivals env k) st)) eqn:Hp.
    + by apply waitForResume_Proceed in Hc.
    + injection Hc as <-. by left.
  - intros Hcancel Hk HSk. unfold pauseCheck in Hc.
    pose proof (arrive_cancelled _ st Hk) as Hc0. rewrite Hcancel in Hc0.
    destruct (isPaused (arrive (arrivals env k) st)) eqn:Hp.
    + by apply (waitForResume_Proceed_signals _ _ _ HSk Hc0).
    + injection Hc as <-. by split.
Qed.

(** In [pausedRun] the workflow is paused when it reaches the first pause
    check; the first task (a resume followed by a pause) leaves it paused,
    the second one (a resume) lets it through, unpaused. *)
Lemma pauseCheck_proceeds_unpaused_or_cancelled_witness :
  isPaused (arrive (arrivals pausedRun 0)
              (phaseA pausedRun sampleInput (initialState pausedRun sampleInput)))
  = true /\
  isPaused (arrive [Signals [signalOf "resume"; signalOf "pause"]]
              (arrive (arrivals pausedRun 0)
                 (phaseA pausedRun sampleInput
                    (initialState pausedRun sampleInput))))
  = true /\
  exists st',
    pauseCheck pausedRun 0
      (phaseA pausedRun sampleInput (initialState pausedRun sampleInput))
    = Proceed st' /\
    isPaused st' = false.
Proof.
  split; [vm_compute; reflexivity|]. split; [vm_compute; reflexivity|].
  exists (arrive (arrivals pausedRun 1)
            (arrive (arrivals pausedRun 0)
               (phaseA pausedRun sampleInput
                  (initialState pausedRun sampleInput)))).
  assert (Hc : pauseCheck pausedRun 0
                 (phaseA pausedRun sampleInput
                    (initialState pausedRun sampleInput))
               = Proceed (arrive (arrivals pausedRun 1)
                            (arrive (arrivals pausedRun 0)
                               (phaseA pausedRun sampleInput
                                  (initialState pausedRun sampleInput)))))
    by (vm_compute; reflexivity).
  split; [exact Hc|].
  destruct (pauseCheck_proceeds_unpaused_or_cancelled pausedRun 0 _ _ Hc)
    as (_ & _ & Hquiet).
  apply Hquiet.
  - vm_compute. reflexivity.
  - repeat constructor.
  - repeat constructor.
Defined.

Lemma deliver_app sigs1 sigs2 st :
  deliver (sigs1 ++ sigs2) st = deliver sigs2 (deliver sigs1 st).
Proof. unfold deliver. apply foldl_app. Qed.

Lemma deliver_pauses sigs st :
  Forall (fun s => InterventionSignal.Type_ s = "pause") sigs ->
  listening st = true ->
  listening (deliver sigs st) = true /\
  (sigs <> [] -> isPaused (deliver sigs st) = true).
Proof.
  intros Hall. revert st.
  induction Hall as [|s sigs Hs Hall IH]; intros st Hl; [done|].
  unfold deliver. cbn [foldl]. fold (deliver sigs (handleSignal st s)).
  assert (Hst : handleSignal st s = set_isPaused true st).
  { unfold handleSignal. by rewrite Hl, Hs. }
  rewrite Hst. destruct (IH (set_isPaused true st) Hl) as [Hl' Hp'].
  split; [done|]. intros _. destruct sigs as [|s' sigs']; [done|].
  by apply Hp'.
Qed.

(** Pause is idempotent: while the listener runs, any positive number of
    pause signals leaves the workflow paused, and one resume after them
    unpauses it, however many pauses came before. At a pause check the
    workflow then goes on with the flag cleared (a workflow that has been
    cancelled goes on without waiting for the resume). *)
Theorem repeated_pause_then_one_resume (st : State)
    (pauses : list InterventionSignal.t) (resume : InterventionSignal.t) :
  listening st = true ->
  pauses <> [] ->
  Forall (fun s => InterventionSignal.Type_ s = "pause") pauses ->
  InterventionSignal.Type_ resume = "resume" ->
  isPaused (deliver pauses st) = true /\
  isPaused (deliver (pauses ++ [resume]) st) = false /\
  waitForResume [Signals [resume]] (deliver pauses st)
  = Proceed (if cancelled st then deliver pauses st
             else set_isPaused false (deliver pauses st)).
Proof.
  intros Hl Hne Hall Hr.
  destruct (deliver_pauses pauses st Hall Hl) as [Hl' Hp'].
  specialize (Hp' Hne).
  assert (Hres : handleSignal (deliver pauses st) resume
                 = set_isPaused false (deliver pauses st)).
  { unfold handleSignal. by rewrite Hl', Hr. }
  split; [done|]. split.
  - rewrite deliver_app. unfold deliver at 1. cbn [foldl]. by rewrite Hres.
  - pose proof (deliver_cancelled pauses st) as Hc'.
    assert (Hbatch : deliver [resume] (deliver pauses st)
                     = set_isPaused false (deliver pauses st))
      by (unfold deliver at 1; cbn [foldl]; exact Hres).
    cbn [waitForResume handleArrival]. rewrite Hp', Hc'. cbn [negb].
    destruct (cancelled st); [reflexivity|].
    rewrite Hbatch. reflexivity.
Qed.

Lemma repeated_pause_then_one_resume_witness :
  isPaused
    (deliver
       [{| InterventionSignal.Type_ := "pause"; InterventionSignal.AgentID := "";
           InterventionSignal.Data := ∅ |};
        {| InterventionSignal.Type_ := "pause"; InterventionSignal.AgentID := "";
           InterventionSignal.Data := ∅ |}]
       (initialState distinctNameRun sampleInput)) = true.
Proof.
  apply (repeated_pause_then_one_resume
           (initialState distinctNameRun sampleInput) _
           {| InterventionSignal.Type_ := "resume";
              InterventionSignal.AgentID := ""; InterventionSignal.Data := ∅ |}).
  - reflexivity.
  - discriminate.
  - repeat constructor.
  - reflexivity.
Defined.

Lemma handleSignal_deaf st signal :
  listening st = false -> handleSignal st signal = st.
Proof. intros Hl. unfold handleSignal. by rewrite Hl. Qed.

Lemma deliver_deaf sigs st : listening st = false -> deliver sigs st = st.
Proof.
  intros Hl. unfold deliver. induction sigs as [|s sigs IH]; [done|].
  cbn [foldl]. by rewrite handleSignal_deaf.
Qed.

(** Once the listener has returned, signals do not end the wait. *)
Lemma waitForResume_deaf tasks st :
  listening st = false -> isPaused st = true -> cancelled st = false ->
  Forall isSignals tasks ->
  waitForResume tasks st = Stuck st.
Proof.
  intros Hl Hp Hc Hall.
  induction Hall as [|task tasks Ht Hall IH]; cbn [waitForResume];
    rewrite Hp, Hc; cbn [negb]; [done|].
  destruct task; [|done]. cbn [handleArrival]. by rewrite deliver_deaf.
Qed.

(** The cancellation of the workflow does. *)
Lemma waitForResume_deaf_cancelled before after st :
  listening st = false -> isPaused st = true -> cancelled st = false ->
  Forall isSignals before ->
  waitForResume (before ++ Cancellation :: after) st
  = Proceed (set_cancelled true st).
Proof.
  intros Hl Hp Hc Hall.
  induction Hall as [|task tasks Ht Hall IH]; cbn [app waitForResume];
    rewrite Hp, Hc; cbn [negb].
  - cbn [handleArrival]. by destruct after; cbn [waitForResume]; simpl; rewrite Hp.
  - destruct task; [|done]. cbn [handleArrival]. by rewrite deliver_deaf.
Qed.

(** A cancel signal does not stop the workflow: it changes no variable of
    the workflow and only ends the listener, after which pause and resume
    signals are ignored. A workflow that is paused when the cancel signal
    arrives can therefore no longer be resumed by a signal: it stays at the
    pause check as long as only signals arrive, and it goes on, still
    paused, once the cancellation of the workflow itself is requested. *)
Theorem cancel_signal_only_stops_the_listener (st : State)
    (cancel : InterventionSignal.t) (later : list InterventionSignal.t)
    (tasks after : list Arrival) :
  listening st = true ->
  InterventionSignal.Type_ cancel = "cancel" ->
  let st' := handleSignal st cancel in
  st' = set_listening false st /\
  unsignalled st' = unsignalled st /\
  isPaused st' = isPaused st /\
  deliver later st' = st' /\
  (isPaused st = true -> cancelled st = false -> Forall isSignals tasks ->
   waitForResume (Signals (cancel :: later) :: tasks) st = Stuck st' /\
   waitForResume (Signals (cancel :: later) :: tasks ++ Cancellation :: after) st
   = Proceed (set_cancelled true st') /\
   isPaused (set_cancelled true st') = true).
Proof.
  intros Hl Hc st'.
  assert (Hst : st' = set_listening false st).
  { unfold st', handleSignal. by rewrite Hl, Hc. }
  split; [done|]. rewrite Hst. split; [done|]. split; [done|].
  split; [by apply deliver_deaf|].
  intros Hp Hcancel Hall.
  assert (Hfirst : handleArrival st (Signals (cancel :: later))
                   = set_listening false st).
  { cbn [handleArrival]. unfold deliver. cbn [foldl].
    fold (deliver later (handleSignal st cancel)). fold st'. rewrite Hst.
    by apply deliver_deaf. }
  split; [|split; [|done]].
  - cbn [waitForResume]. rewrite Hp, Hcancel. cbn [negb]. rewrite Hfirst.
    by apply waitForResume_deaf.
  - cbn [app waitForResume]. rewrite Hp, Hcancel. cbn [negb]. rewrite Hfirst.
    by apply waitForResume_deaf_cancelled.
Qed.

(** In [cancelledWhilePausedRun] the workflow is paused when it reaches the
    first pause check; there it gets a cancel signal, then a resume signal,
    which is ignored, then the cancellation of the workflow: it goes past
    the check still paused, with the listener gone. *)
Lemma cancel_signal_only_stops_the_listener_witness :
  exists st',
    pauseCheck cancelledWhilePausedRun 0
      (phaseA cancelledWhilePausedRun sampleInput
         (initialState cancelledWhilePausedRun sampleInput))
    = Proceed st' /\
    isPaused st' = true /\ listening st' = false /\ cancelled st' = true.
Proof.
  set (st1 := arrive (arrivals cancelledWhilePausedRun 0)
                (phaseA cancelledWhilePausedRun sampleInput
                   (initialState cancelledWhilePausedRun sampleInput))).
  assert (Hl : listening st1 = true) by (vm_compute; reflexivity).
  assert (Hp : isPaused st1 = true) by (vm_compute; reflexivity).
  assert (Hc : cancelled st1 = false) by (vm_compute; reflexivity).
  destruct (cancel_signal_only_stops_the_listener st1 (signalOf "cancel") []
              [Signals [signalOf "resume"]] [] Hl eq_refl)
    as (Hst & _ & _ & _ & Hwait).
  assert (Hall : Forall isSignals [Signals [signalOf "resume"]])
    by (repeat constructor).
  destruct (Hwait Hp Hc Hall) as (_ & Hgo & Hpaused).
  exists (set_cancelled true (handleSignal st1 (signalOf "cancel"))).
  split; [|split; [exact Hpaused|split]].
  - change (pauseCheck cancelledWhilePausedRun 0
              (phaseA cancelledWhilePausedRun sampleInput
                 (initialState cancelledWhilePausedRun sampleInput)))
      with (if isPaused st1
            then waitForResume (arrivals cancelledWhilePausedRun 1) st1
            else Proceed st1).
    rewrite Hp. exact Hgo.
  - rewrite Hst. reflexivity.
  - reflexivity.
Defined.

(** ** The per-pipeline child workflow, further *)

(** When the market activity fails, the child workflow still returns a
    result: its market row is the zeroed default (TAM 0, risk-adjusted
    revenue 0, currency USD, BD region Unknown) and its clinical row is what
    the clinical step produced. Whatever happens, the child executes exactly
    two activities, clinical assessment then market analysis, and the market
    activity is given the clinical row that ends up in the result. *)
Theorem market_failure_substitutes_zero_row (acts : PipelineActivities)
    (input : PipelineAnalysisInput.t) :
  let pipeline := PipelineAnalysisInput.Pipeline input in
  let run := PipelineAnalysisWorkflow acts input in
  exists r,
    ret run = Some r /\
    hist run
    = [ExecuteActivity
         (ClinicalAssessorCall
            {| ClinicalAssessorInput.Ticker := PipelineAnalysisInput.Ticker input;
               ClinicalAssessorInput.Pipeline := pipeline |});
       ExecuteActivity
         (MarketStrategistCall
            {| MarketStrategistInput.Ticker := PipelineAnalysisInput.Ticker input;
               MarketStrategistInput.Pipeline := pipeline;
               MarketStrategistInput.Clinical :=
                 PipelineAnalysisResult.Clinical r |})] /\
    (forall e,
       MarketStrategistOutcome acts
         {| MarketStrategistInput.Ticker := PipelineAnalysisInput.Ticker input;
            MarketStrategistInput.Pipeline := pipeline;
            MarketStrategistInput.Clinical := PipelineAnalysisResult.Clinical r |}
       = Err e ->
       let m := PipelineAnalysisResult.Market r in
       m = defaultMarket pipeline /\
       MarketAssessment.DrugName m = DrugPipeline.DrugName pipeline /\
       MarketAssessment.RiskAdjustedRevenue m = 0%float /\
       MarketForecast.TAM (MarketAssessment.Domestic m) = 0%float /\
       MarketForecast.Currency (MarketAssessment.Domestic m) = "USD" /\
       BDForecast.TargetRegion (MarketAssessment.BDOutlook m) = "Unknown").
Proof.
  cbv zeta. eexists. split; [reflexivity|]. split; [reflexivity|].
  intros e He. cbn [PipelineAnalysisResult.Market PipelineAnalysisResult.Clinical] in *.
  rewrite He. repeat split.
Qed.

Lemma market_failure_substitutes_zero_row_witness :
  exists r,
    ret (PipelineAnalysisWorkflow
           {| ClinicalAssessorOutcome := fun i => Ok (sampleClinical i);
              MarketStrategistOutcome := fun _ => Err (New ErrRateLimited) |}
           (analysisInput sampleInput (drug "DrugB" "BC" "Phase2"))) = Some r /\
    MarketAssessment.RiskAdjustedRevenue (PipelineAnalysisResult.Market r)
    = 0%float.
Proof.
  destruct (market_failure_substitutes_zero_row
              {| ClinicalAssessorOutcome := fun i => Ok (sampleClinical i);
                 MarketStrategistOutcome := fun _ => Err (New ErrRateLimited) |}
              (analysisInput sampleInput (drug "DrugB" "BC" "Phase2")))
    as (r & Hret & _ & Hzero).
  exists r. split; [exact Hret|].
  exact (proj1 (proj2 (proj2 (Hzero (New ErrRateLimited) eq_refl)))).
Defined.

(** The default probability of success is a probability for every phase
    string, known or not: it lies between 0.05 and 1.0. Along the seven
    phases of the table it strictly increases, and an unknown phase gets
    0.20, more than Phase1_2 and less than Phase2. *)
Theorem getDefaultPOS_is_a_probability (phase : string) :
  (0.05 <=? getDefaultPOS phase)%float = true /\
  (getDefaultPOS phase <=? 1.0)%float = true /\
  (phase <> "Approved" -> (getDefaultPOS phase <=? 0.60)%float = true) /\
  StronglySorted (fun a b => (a <? b)%float = true)
    (getDefaultPOS <$> knownPhases) /\
  (getDefaultPOS "Phase1_2" <? getDefaultPOS "") %float = true /\
  (getDefaultPOS "" <? getDefaultPOS "Phase2")%float = true.
Proof.
  assert (Hcases : getDefaultPOS phase = 0.05%float \/
                   getDefaultPOS phase = 0.10%float \/
                   getDefaultPOS phase = 0.15%float \/
                   getDefaultPOS phase = 0.30%float \/
                   getDefaultPOS phase = 0.50%float \/
                   getDefaultPOS phase = 0.60%float \/
                   (phase = "Approved" /\ getDefaultPOS phase = 1.0%float) \/
                   getDefaultPOS phase = 0.20%float).
  { unfold getDefaultPOS.
    repeat match goal with
    | |- context [String.eqb phase ?s] =>
        destruct (String.eqb_spec phase s) as [->|_]; [simpl; tauto|]
    end.
    tauto. }
  split; [|split; [|split; [|split; [|split]]]].
  - destruct Hcases as [->|[->|[->|[->|[->|[->|[(_ & ->)| ->]]]]]]]; reflexivity.
  - destruct Hcases as [->|[->|[->|[->|[->|[->|[(_ & ->)| ->]]]]]]]; reflexivity.
  - intros Hne.
    destruct Hcases as [->|[->|[->|[->|[->|[->|[(? & _)| ->]]]]]]];
      try reflexivity; done.
  - vm_compute. repeat constructor.
  - reflexivity.
  - reflexivity.
Qed.

(** ** Aggregation, further *)

(** Both aggregates have one row per collected analysis, in the same order,
    so the i-th clinical row and the i-th market row belong to the i-th
    analysis; aggregating nothing gives no rows and a total of 0.0; and the
    total of a longer list continues the fold of its prefix. *)
Theorem aggregates_are_row_aligned (ticker : string)
    (analyses more : list PipelineAnalysisResult.t) :
  let c := aggregateClinicalResults ticker analyses in
  let m := aggregateMarketResults ticker analyses in
  length (ClinicalResult.Assessments c) = length analyses /\
  length (MarketResult.Assessments m) = length analyses /\
  (forall i a, analyses !! i = Some a ->
     ClinicalResult.Assessments c !! i = Some (PipelineAnalysisResult.Clinical a) /\
     MarketResult.Assessments m !! i = Some (PipelineAnalysisResult.Market a)) /\
  ClinicalResult.Ticker c = ticker /\
  aggregateClinicalResults ticker [] = {| ClinicalResult.Ticker := ticker;
                                         ClinicalResult.Assessments := [];
                                         ClinicalResult.UpdatedAt := 0 |} /\
  aggregateMarketResults ticker [] = {| MarketResult.Ticker := ticker;
                                       MarketResult.Assessments := [];
                                       MarketResult.TotalRiskAdjustedRevenue := 0;
                                       MarketResult.UpdatedAt := 0 |} /\
  MarketResult.TotalRiskAdjustedRevenue
    (aggregateMarketResults ticker (analyses ++ more))
  = foldl PrimFloat.add (MarketResult.TotalRiskAdjustedRevenue m)
      (map (fun a => MarketAssessment.RiskAdjustedRevenue
                       (PipelineAnalysisResult.Market a)) more).
Proof.
  cbv zeta. rewrite aggregateClinical_assessments, aggregateMarket_assessments.
  rewrite !length_map. split; [done|]. split; [done|]. split.
  - intros i a Hi. rewrite !list_lookup_fmap, Hi. done.
  - split; [done|]. split; [done|]. split; [done|].
    unfold aggregateMarketResults. rewrite !aggregateMarket_loop. simpl.
    by rewrite map_app, foldl_app.
Qed.

(** ** The output of a completed run *)

Lemma aggregate_output input st :
  let o := output (aggregate input st) in
  WorkflowOutput.Clinical o
  = Some (aggregateClinicalResults (WorkflowInput.Ticker input) (pipelineAnalyses st)) /\
  WorkflowOutput.Market o
  = Some (aggregateMarketResults (WorkflowInput.Ticker input) (pipelineAnalyses st)) /\
  WorkflowOutput.PipelineAnalyses o = pipelineAnalyses st /\
  WorkflowOutput.Ticker o = WorkflowOutput.Ticker (output st) /\
  WorkflowOutput.TraceID o = WorkflowOutput.TraceID (output st) /\
  WorkflowOutput.Financial o = WorkflowOutput.Financial (output st) /\
  WorkflowOutput.Pipeline o = WorkflowOutput.Pipeline (output st).
Proof. repeat split. Qed.

Lemma valuationPhase_aggregated env input st :
  aggregated (output (valuationPhase env input st).1) = aggregated (output st).
Proof.
  unfold valuationPhase.
  destruct (valuationFuture env input _) as [r|e]; [done|].
  by destruct (Level (classify e) >=? L2Intervention).
Qed.

Lemma reportPhase_output env input st :
  aggregated (output (reportPhase env input st)) = aggregated (output st) /\
  WorkflowOutput.CompletedAt (output (reportPhase env input st)) = Now env /\
  WorkflowOutput.Valuation (output (reportPhase env input st))
  = WorkflowOutput.Valuation (output st).
Proof.
  unfold reportPhase. by destruct (ReportGeneratorOutcome env _).
Qed.

Lemma phaseA_aggregated env input :
  let o := output (phaseA env input (initialState env input)) in
  WorkflowOutput.Ticker o = WorkflowInput.Ticker input /\
  WorkflowOutput.TraceID o = RunID env /\
  WorkflowOutput.Financial o
  = match FinancialAuditorOutcome env (financialInput input) with
    | Ok r => Some r
    | Err _ => None
    end /\
  WorkflowOutput.Pipeline o
  = match PipelineScoutOutcome env (scoutInput input) with
    | Ok r => Some r
    | Err _ => None
    end.
Proof.
  unfold phaseA, onFinancial, onPipeline.
  destruct (financialFirst env), (FinancialAuditorOutcome env _),
    (PipelineScoutOutcome env _); done.
Qed.

Lemma completed_output_shape_aux env input st0 st5 :
  output st0 = output (phaseA env input (initialState env input)) ->
  aggregated (output st5)
  = aggregated (output (aggregate input (fanOut env input st0))) ->
  let out := output (reportPhase env input st5) in
  WorkflowOutput.Ticker out = WorkflowInput.Ticker input /\
  WorkflowOutput.TraceID out = RunID env /\
  WorkflowOutput.CompletedAt out = Now env /\
  WorkflowOutput.Financial out
  = match FinancialAuditorOutcome env (financialInput input) with
    | Ok r => Some r
    | Err _ => None
    end /\
  WorkflowOutput.Pipeline out
  = match PipelineScoutOutcome env (scoutInput input) with
    | Ok r => Some r
    | Err _ => None
    end /\
  WorkflowOutput.Clinical out
  = Some (aggregateClinicalResults (WorkflowInput.Ticker input)
            (WorkflowOutput.PipelineAnalyses out)) /\
  WorkflowOutput.Market out
  = Some (aggregateMarketResults (WorkflowInput.Ticker input)
            (WorkflowOutput.PipelineAnalyses out)).
Proof.
  intros Hout0 Hagg out.
  destruct (reportPhase_output env input st5) as (Hrep & Hat & _).
  fold out in Hrep, Hat. rewrite Hagg in Hrep.
  destruct (aggregate_output input (fanOut env input st0))
    as (Hc & Hm & Ha & Ht & Hid & Hf & Hp).
  destruct (phaseA_aggregated env input) as (Ht0 & Hid0 & Hf0 & Hp0).
  rewrite fanOut_output, Hout0 in Ht, Hid, Hf, Hp.
  set (o2 := output (aggregate input (fanOut env input st0))) in *.
  clearbody out o2.
  unfold aggregated in Hrep.
  injection Hrep as Hticker Hfin Hpip Han Hcl Hmk Htr.
  rewrite Hticker, Htr, Hat, Hfin, Hpip, Hcl, Hmk, Han.
  rewrite Ht, Hid, Hf, Hp, Hc, Hm, Ha, Ht0, Hid0, Hf0, Hp0. done.
Qed.

(** A run that completes returns an output that carries the ticker of the
    input, the run ID as trace ID and the completion time; its financial and
    pipeline artifacts are present exactly when their activity succeeded;
    its clinical and market aggregates are always present, with one row per
    collected analysis, even when the pipeline scan failed or found
    nothing. *)
Theorem completed_output_shape (env : Env) (input : WorkflowInput.t)
    (out : WorkflowOutput.t) :
  outcome (BioValueWorkflow env input) = Completed out ->
  WorkflowOutput.Ticker out = WorkflowInput.Ticker input /\
  WorkflowOutput.TraceID out = RunID env /\
  WorkflowOutput.CompletedAt out = Now env /\
  WorkflowOutput.Financial out
  = match FinancialAuditorOutcome env (financialInput input) with
    | Ok r => Some r
    | Err _ => None
    end /\
  WorkflowOutput.Pipeline out
  = match PipelineScoutOutcome env (scoutInput input) with
    | Ok r => Some r
    | Err _ => None
    end /\
  WorkflowOutput.Clinical out
  = Some (aggregateClinicalResults (WorkflowInput.Ticker input)
            (WorkflowOutput.PipelineAnalyses out)) /\
  WorkflowOutput.Market out
  = Some (aggregateMarketResults (WorkflowInput.Ticker input)
            (WorkflowOutput.PipelineAnalyses out)).
Proof.
  unfold BioValueWorkflow.
  destruct (throughFanOut env input) as [st|r] eqn:Hrun.
  2:{ unfold throughFanOut in Hrun.
      destruct (SetQueryHandlerError env); [by injection Hrun as <-|].
      destruct (pauseCheck env 0 _); cbn [checked] in Hrun; [done|].
      by injection Hrun as <-. }
  destruct (throughFanOut_Continue _ _ _ Hrun) as (st0 & -> & _ & _ & _ & Hout0).
  unfold throughValuation.
  destruct (pauseCheck env 2 _) as [st3|st3] eqn:Hc2; cbn [checked]; [|done].
  pose proof (valuationPhase_aggregated env input st3) as Hval.
  destruct (valuationPhase env input st3) as [st4 [e|]]; [done|].
  destruct (pauseCheck env 4 st4) as [st5|st5] eqn:Hc4; cbn [checked]; [|done].
  assert (Hu4 := pauseCheck_unsignalled _ _ _ _ (or_introl Hc4)).
  assert (Hu2 := pauseCheck_unsignalled _ _ _ _ (or_introl Hc2)).
  unfold unsignalled in Hu4, Hu2.
  injection Hu4 as _ _ _ _ _ _ _ _ _ _ Ho4 _.
  injection Hu2 as _ _ _ _ _ _ _ _ _ _ Ho2 _.
  cbn [fst] in Hval. rewrite <- Ho4, Ho2 in Hval.
  pose proof (completed_output_shape_aux env input st0 st5 Hout0 Hval) as Haux.
  intros Heq. injection Heq as <-. exact Haux.
Qed.

Lemma completed_output_shape_witness :
  WorkflowOutput.Pipeline
    (output (final (BioValueWorkflow placeholderRun sampleInput))) = None /\
  WorkflowOutput.Clinical
    (output (final (BioValueWorkflow placeholderRun sampleInput)))
  = Some (aggregateClinicalResults "BGNE" []).
Proof.
  destruct (completed_output_shape placeholderRun sampleInput
              (output (final (BioValueWorkflow placeholderRun sampleInput))))
    as (_ & _ & _ & _ & Hp & Hc & _).
  - vm_compute. reflexivity.
  - split; [exact Hp|]. rewrite Hc. vm_compute. reflexivity.
Defined.

(** ** The Saga, further *)

Lemma executeLoop_app l1 l2 h :
  executeLoop (l1 ++ l2) h = executeLoop l2 (executeLoop l1 h).
Proof. revert h. induction l1 as [|s l1 IH]; intros h; simpl; [done|apply IH]. Qed.

Lemma executeLoop_extends l h : exists tail, executeLoop l h = h ++ tail.
Proof.
  revert h. induction l as [|s l IH]; intros h; simpl.
  - exists []. by rewrite app_nil_r.
  - destruct (IH (h ++ executeStep s h)) as [tail ->].
    exists (executeStep s h ++ tail). by rewrite app_assoc.
Qed.

(** The Saga counts its steps, forgets them on Clear, and Execute only ever
    appends to the history: Len grows by one with each addition; after Clear
    (and on a fresh Saga) Execute leaves the history as it is; in general the
    history Execute leaves extends the one it started from, with a nil
    error; and executing a Saga whose steps are l1 followed by l2 is
    executing l1 and then l2. *)
Theorem saga_len_clear_execute (s : SagaCompensation)
    (added : list CompensationStep) (name : string)
    (fn : History -> option error * list Event) (h : History) :
  Len NewSagaCompensation = 0 /\
  Len (AddCompensation s name fn) = Len s + 1 /\
  Len (addAll added) = len added /\
  Len (Clear s) = 0 /\
  Execute (Clear s) h = (None, h) /\
  Execute NewSagaCompensation h = (None, h) /\
  (exists tail, Execute s h = (None, h ++ tail)) /\
  (forall l1 l2,
     (Execute {| steps := l1 ++ l2 |} h).2
     = (Execute {| steps := l2 |} (Execute {| steps := l1 |} h).2).2).
Proof.
  split; [done|]. split.
  { unfold Len, len, AddCompensation. simpl. lia. }
  split.
  { unfold Len. rewrite addAll_steps. unfold len. by rewrite length_rev. }
  split; [done|]. split; [done|]. split; [done|]. split.
  - unfold Execute. destruct (executeLoop_extends (steps s) h) as [tail ->].
    by exists tail.
  - intros l1 l2. unfold Execute. simpl. apply executeLoop_app.
Qed.

(** ** ClassifyError, further *)

Lemma Is_unique (e : error) (s s' : Sentinel) :
  Is e s = true -> Is e s' = true -> s = s'.
Proof.
  revert e. fix IH 1. intros e.
  destruct e as [s0|msg|msg cause|level code message [cause|] r m md]; simpl.
  - intros H1 H2. apply bool_decide_eq_true in H1, H2. congruence.
  - done.
  - apply IH.
  - apply IH.
  - done.
Qed.

Lemma classify_toError c : classify (toError c) = c.
Proof. by destruct c. Qed.

Lemma As_wrapChain (msgs : list string) (e : error) :
  As (wrapChain msgs e) = As e.
Proof. induction msgs as [|msg msgs IH]; [done|]. exact IH. Qed.

Lemma As_toError (c : ClassifiedError) : As (toError c) = Some c.
Proof. by destruct c. Qed.

(** An error that is, or wraps at any depth, a ClassifiedError is classified
    as that ClassifiedError, unchanged: its level is not recomputed from the
    sentinels below it. This holds for a ClassifiedError under any number of
    fmt.Errorf wrappers, and in general for the first ClassifiedError that
    errors.As finds in the chain. So classification is idempotent, and
    wrapping a classified error with fmt.Errorf keeps its level, code and
    retry policy. *)
Theorem ClassifyError_keeps_classified (c : ClassifiedError) (e : error)
    (msg1 msg2 : string) (msgs : list string) :
  ClassifyError (Some (toError c)) = Some c /\
  ClassifyError (Some (Wrap msg1 (toError c))) = Some c /\
  ClassifyError (Some (Wrap msg1 (Wrap msg2 (toError c)))) = Some c /\
  ClassifyError (Some (wrapChain msgs (toError c))) = Some c /\
  (As e = Some c -> ClassifyError (Some e) = Some c) /\
  classify (toError (classify e)) = classify e /\
  ClassifyError None = None /\
  (forall inner,
     Cause c = Some inner -> Level (classify (toError c)) = Level c).
Proof.
  unfold ClassifyError. rewrite !classify_toError.
  split; [done|]. split; [by destruct c|]. split; [by destruct c|].
  split; [unfold classify; by rewrite As_wrapChain, As_toError|].
  split; [intros Has; unfold classify; by rewrite Has|].
  split; [done|]. split; done.
Qed.

Ltac sentinel_cases Hu :=
  simpl; unfold L1Recoverable, L2Intervention, L3Fatal in *;
  repeat split; intros;
  repeat match goal with H : _ \/ _ |- _ => destruct H end;
  try lia; try tauto; try congruence;
  try (match goal with
       | H1 : Is ?e ?s = true, H2 : Is ?e ?s' = true |- _ =>
           let E := fresh in pose proof (Hu s s' H1 H2) as E; discriminate E
       end).

Lemma classifySwitch_Level (e : error) :
  let l := Level (classifySwitch e) in
  (l = L3Fatal <-> Is e ErrConfigInvalid = true \/ Is e ErrAuthFailed = true) /\
  (l = L2Intervention
   <-> Is e ErrValidationFailed = true \/ Is e ErrHallucination = true) /\
  (Retryable (classifySwitch e) = false
   <-> Is e ErrValidationFailed = true \/ Is e ErrConfigInvalid = true \/
       Is e ErrAuthFailed = true) /\
  0 <= MaxRetries (classifySwitch e) <= 5 /\
  (Retryable (classifySwitch e) = false -> MaxRetries (classifySwitch e) = 0).
Proof.
  cbv zeta. unfold classifySwitch.
  pose proof (Is_unique e) as Hu.
  destruct (Is e DeadlineExceeded) eqn:H1; [sentinel_cases Hu|].
  destruct (Is e ErrRateLimited) eqn:H2; [sentinel_cases Hu|].
  destruct (Is e ErrCacheUnavailable) eqn:H3; [sentinel_cases Hu|].
  destruct (Is e ErrValidationFailed) eqn:H4; [sentinel_cases Hu|].
  destruct (Is e ErrHallucination) eqn:H5; [sentinel_cases Hu|].
  destruct (Is e ErrLLMUnavailable) eqn:H6; [sentinel_cases Hu|].
  destruct (Is e ErrToolFailed) eqn:H7; [sentinel_cases Hu|].
  destruct (Is e ErrConfigInvalid) eqn:H8; [sentinel_cases Hu|].
  destruct (Is e ErrAuthFailed) eqn:H9; sentinel_cases Hu.
Qed.

(** For an error that wraps no ClassifiedError the level is decided by the
    sentinel at the bottom of its chain: L3 exactly for an invalid
    configuration or a failed authentication, L2 exactly for a failed
    validation or a hallucination, L1 for everything else, unknown errors
    included; an error is not retryable exactly for a failed validation, an
    invalid configuration or a failed authentication, and then its retry
    budget is 0; no retry budget exceeds 5. *)
Theorem ClassifyError_levels (e : error) :
  As e = None ->
  let c := classify e in
  Cause c = Some e /\
  (Level c = L1Recoverable \/ Level c = L2Intervention \/ Level c = L3Fatal) /\
  (Level c = L3Fatal
   <-> Is e ErrConfigInvalid = true \/ Is e ErrAuthFailed = true) /\
  (Level c = L2Intervention
   <-> Is e ErrValidationFailed = true \/ Is e ErrHallucination = true) /\
  (Retryable c = false
   <-> Is e ErrValidationFailed = true \/ Is e ErrConfigInvalid = true \/
       Is e ErrAuthFailed = true) /\
  0 <= MaxRetries c <= 5 /\
  (Retryable c = false -> MaxRetries c = 0).
Proof.
  intros Has c. unfold c, classify. rewrite Has.
  destruct (classifySwitch_Level e) as (H3 & H2 & Hr & Hm & Hz).
  split.
  { unfold classifySwitch.
    repeat match goal with |- context [if ?b then _ else _] => destruct b end;
      reflexivity. }
  split; [|done].
  unfold classifySwitch.
  repeat match goal with |- context [if ?b then _ else _] => destruct b end;
    simpl; tauto.
Qed.

Lemma ClassifyError_levels_witness :
  Level (classify (Wrap "LLM inference failed" (New ErrHallucination)))
  = L2Intervention.
Proof.
  destruct (ClassifyError_levels
              (Wrap "LLM inference failed" (New ErrHallucination)) eq_refl)
    as (_ & _ & _ & H2 & _).
  apply H2. right. reflexivity.
Defined.


(** An error built with NewClassifiedError is never retryable and has no
    retry budget, whatever its level; and the names of the three levels are
    pairwise distinct, every other number being printed UNKNOWN. *)
Theorem NewClassifiedError_and_level_names (level : ErrorLevel)
    (code message : string) (cause : option error) :
  let c := NewClassifiedError level code message cause in
  Retryable c = false /\ MaxRetries c = 0 /\ Level c = level /\
  classify (toError c) = c /\
  ErrorLevel_String L1Recoverable = "L1_RECOVERABLE" /\
  ErrorLevel_String L2Intervention = "L2_INTERVENTION" /\
  ErrorLevel_String L3Fatal = "L3_FATAL" /\
  (level < 1 \/ 3 < level -> ErrorLevel_String level = "UNKNOWN") /\
  (ErrorLevel_String level <> "UNKNOWN" ->
   level = L1Recoverable \/ level = L2Intervention \/ level = L3Fatal).
Proof.
  cbv zeta. repeat split.
  - intros Hout. unfold ErrorLevel_String, L1Recoverable, L2Intervention, L3Fatal.
    repeat match goal with |- context [?a =? ?b] =>
      destruct (Z.eqb_spec a b); [lia|] end. done.
  - unfold ErrorLevel_String.
    repeat match goal with |- context [?a =? ?b] =>
      destruct (Z.eqb_spec a b); [tauto|] end. done.
Qed.

(** * Further properties of the activities *)

Section CacheProperties.

Context (now : Z) (RunID : string).
Context (Infer : llm.InferRequest -> result llm.InferResponse).
Context {jsonFinancial : JSON FinancialResult.t}
        {jsonPipelineResult : JSON PipelineResult.t}
        {jsonPipelines : JSON (list DrugPipeline.t)}
        {jsonClinical : JSON ClinicalAssessment.t}
        {jsonMarket : JSON MarketAssessment.t}
        {jsonValuation : JSON ValuationResult.t}.

Lemma Get_dead (w : World) (key : string) (e : error) :
  cacheError w = Some e -> cache.Get w key = ("", Some e).
Proof. intros He. unfold cache.Get. by rewrite He. Qed.

Lemma Get_emptied (w : World) (key : string) :
  cache.Get (emptied w) key = ("", None).
Proof. unfold cache.Get. simpl. by rewrite lookup_empty. Qed.

Ltac dead_cache He :=
  rewrite ?(Get_dead _ _ _ He), ?Get_emptied; simpl;
  destruct (Infer _) as [response|e1]; simpl; try done;
  destruct (Unmarshal (llm.FinalAnswer response)) as [v|e2]; simpl; try done;
  unfold cache.Set_; simpl; rewrite He; simpl; done.

(** Cache unavailability is bypassed: while Redis is unreachable, each of
    the four cacheable activities returns what it returns on an empty cache
    (it recomputes through the LLM client), and neither the read error nor
    the write error of the cache makes the activity fail. *)
Theorem unreachable_cache_is_bypassed :
  bypassesDeadCache (Activities.FinancialAuditorActivity now RunID Infer)
    (Activities.financialRequest RunID) /\
  bypassesDeadCache (Activities.PipelineScoutActivity now RunID Infer)
    (Activities.pipelineRequest RunID) /\
  bypassesDeadCache (Activities.ClinicalAssessorActivity RunID Infer)
    (Activities.clinicalRequest RunID) /\
  bypassesDeadCache (Activities.MarketStrategistActivity RunID Infer)
    (Activities.marketRequest RunID).
Proof.
  split; [|split; [|split]]; intros input w e He.
  - unfold Activities.FinancialAuditorActivity. dead_cache He.
  - unfold Activities.PipelineScoutActivity. dead_cache He.
  - unfold Activities.ClinicalAssessorActivity. dead_cache He.
  - unfold Activities.MarketStrategistActivity. dead_cache He.
Qed.

Lemma eqb_nonempty (s : string) : s <> "" -> String.eqb s "" = false.
Proof. intros Hne. by apply String.eqb_neq. Qed.

(** A cache hit short-circuits the collaborator: a cached value that parses
    is returned as it is by the financial, clinical and market activities,
    and by the pipeline scan when its data_as_of is less than 24 hours old;
    no request is sent to the LLM client and the store is not written. *)
Theorem cache_hit_skips_the_collaborator :
  servesFromCache (Activities.FinancialAuditorActivity now RunID Infer)
    (fun i => Activities.financialKey (FinancialAuditorInput.Ticker i))
    (fun _ => True) /\
  servesFromCache (Activities.PipelineScoutActivity now RunID Infer)
    (fun i => Activities.pipelineKey (PipelineScoutInput.Ticker i))
    (fun v => now - PipelineResult.DataAsOf v < 24 * Hour) /\
  servesFromCache (Activities.ClinicalAssessorActivity RunID Infer)
    (fun i => Activities.clinicalKey (ClinicalAssessorInput.Ticker i)
                (DrugPipeline.DrugName (ClinicalAssessorInput.Pipeline i)))
    (fun _ => True) /\
  servesFromCache (Activities.MarketStrategistActivity RunID Infer)
    (fun i => Activities.marketKey (MarketStrategistInput.Ticker i)
                (DrugPipeline.DrugName (MarketStrategistInput.Pipeline i)))
    (fun _ => True).
Proof.
  split; [|split; [|split]]; intros input w cached ttl0 v He Hs Hne Hok Hfresh.
  - unfold Activities.FinancialAuditorActivity.
    rewrite (Get_corrupted _ _ _ _ He Hs), (eqb_nonempty _ Hne), Hok. done.
  - unfold Activities.PipelineScoutActivity.
    rewrite (Get_corrupted _ _ _ _ He Hs), (eqb_nonempty _ Hne), Hok. simpl.
    assert (Hlt : (now - PipelineResult.DataAsOf v <? 24 * Hour) = true)
      by (by apply Z.ltb_lt).
    rewrite Hlt. done.
  - unfold Activities.ClinicalAssessorActivity.
    rewrite (Get_corrupted _ _ _ _ He Hs), (eqb_nonempty _ Hne), Hok. done.
  - unfold Activities.MarketStrategistActivity.
    rewrite (Get_corrupted _ _ _ _ He Hs), (eqb_nonempty _ Hne), Hok. done.
Qed.

(** The freshness override of the pipeline scan: a cached PipelineResult
    that parses but whose data_as_of is 24 hours old or more is treated as a
    miss, although its key has not expired: the activity returns what it
    returns when the key is absent, asks the LLM client again, and on
    success overwrites the entry with a result stamped with the current
    time. The same holds for a key that holds the empty string. *)
Theorem stale_pipeline_cache_is_refreshed (input : PipelineScoutInput.t)
    (w : World) (cached : string) (ttl0 : Z) (old : PipelineResult.t) :
  cacheError w = None ->
  store w !! Activities.pipelineKey (PipelineScoutInput.Ticker input)
  = Some (cached, ttl0) ->
  cached = "" \/
  (Unmarshal cached = Ok old /\ 24 * Hour <= now - PipelineResult.DataAsOf old) ->
  let key := Activities.pipelineKey (PipelineScoutInput.Ticker input) in
  let run := Activities.PipelineScoutActivity now RunID Infer input w in
  run.1 = (Activities.PipelineScoutActivity now RunID Infer input
             (set_store (delete key (store w)) w)).1 /\
  llmCalls run.2 = llmCalls w ++ [Activities.pipelineRequest RunID input] /\
  (forall v, run.1 = Ok v ->
     PipelineResult.DataAsOf v = now /\
     PipelineResult.Ticker v = PipelineScoutInput.Ticker input /\
     store run.2 = <[key := (Marshal v, 24 * Hour)]> (store w)).
Proof.
  intros He Hs Hstale key run. unfold run, key.
  unfold Activities.PipelineScoutActivity.
  rewrite (Get_corrupted _ _ _ _ He Hs), (Get_deleted _ _ He).
  assert (Hset : forall k v t,
    cache.Set_ (sent (Activities.pipelineRequest RunID input) (incMiss w)) k v t
    = (None, set_store (<[k := (v, t)]> (store w))
               (sent (Activities.pipelineRequest RunID input) (incMiss w)))).
  { intros k v t. unfold cache.Set_. simpl. by rewrite He. }
  assert (Hset' : forall k v t,
    cache.Set_ (sent (Activities.pipelineRequest RunID input) (incMiss (incHit w))) k v t
    = (None, set_store (<[k := (v, t)]> (store w))
               (sent (Activities.pipelineRequest RunID input)
                  (incMiss (incHit w))))).
  { intros k v t. unfold cache.Set_. simpl. by rewrite He. }
  destruct Hstale as [->|[Hok Hold]].
  - simpl.
    destruct (Infer _) as [response|e1]; simpl; [|done].
    destruct (Unmarshal (llm.FinalAnswer response)) as [v|e2]; simpl; [|done].
    unfold cache.Set_; simpl; rewrite He; simpl.
    split; [done|]. split; [done|]. by intros v' [= <-].
  - assert (Hlt : (now - PipelineResult.DataAsOf old <? 24 * Hour) = false)
      by (apply Z.ltb_ge; lia).
    rewrite Hok, Hlt.
    destruct (String.eqb cached ""); simpl;
      (destruct (Infer _) as [response|e1]; simpl; [|done]);
      (destruct (Unmarshal (llm.FinalAnswer response)) as [v|e2]; simpl; [|done]);
      unfold cache.Set_; simpl; rewrite He; simpl;
      (split; [done|]); (split; [done|]); by intros v' [= <-].
Qed.

Ltac failing_activity :=
  let HI := fresh "HI" in
  let HU := fresh "HU" in
  destruct (cache.Get _ _) as [cached [err|]]; simpl;
  repeat match goal with
  | |- context [String.eqb cached ""] => destruct (String.eqb cached ""); simpl
  | |- context [Unmarshal cached] => destruct (Unmarshal cached); simpl
  | |- context [_ <? _] => destruct (_ <? _); simpl
  end;
  try done;
  (destruct (Infer _) as [response|e1] eqn:HI; simpl;
   [ destruct (Unmarshal (llm.FinalAnswer response)) as [answer|e2] eqn:HU; simpl;
     [ unfold cache.Set_; destruct (cacheError _); simpl; done
     | intros [= <-]; (split; [done|]); (split; [done|]);
       right; eexists _, _; (split; [reflexivity|]); (split; [exact HU|]);
       (split; [reflexivity|apply classify_Wrap_Level]) ]
   | intros [= <-]; (split; [done|]); (split; [done|]);
     left; eexists; (split; [reflexivity|]);
     (split; [reflexivity|apply classify_Wrap_Level]) ]).

(** A failing activity caches nothing: when one of the four cacheable
    activities returns an error, whatever the state of the cache, it has
    asked the LLM client, the store is what it was, and its error is the
    error of the inference, or else of the decoding of the client's answer,
    wrapped in the activity's message for that step; this cause decides the
    level ClassifyError gives it. So an error of the cache, or a cached value
    that does not parse, never is the activity's error. *)
Theorem failed_activity_caches_nothing :
  failsWithoutCaching FinancialResult.t Infer
    (Activities.FinancialAuditorActivity now RunID Infer)
    (Activities.financialRequest RunID) plainInferMsg financialParseMsg /\
  failsWithoutCaching (list DrugPipeline.t) Infer
    (Activities.PipelineScoutActivity now RunID Infer)
    (Activities.pipelineRequest RunID) plainInferMsg pipelineParseMsg /\
  failsWithoutCaching ClinicalAssessment.t Infer
    (Activities.ClinicalAssessorActivity RunID Infer)
    (Activities.clinicalRequest RunID) clinicalInferMsg clinicalParseMsg /\
  failsWithoutCaching MarketAssessment.t Infer
    (Activities.MarketStrategistActivity RunID Infer)
    (Activities.marketRequest RunID) marketInferMsg marketParseMsg.
Proof.
  split; [|split; [|split]]; intros input w e.
  - unfold Activities.FinancialAuditorActivity. failing_activity.
  - unfold Activities.PipelineScoutActivity. failing_activity.
  - unfold Activities.ClinicalAssessorActivity. failing_activity.
  - unfold Activities.MarketStrategistActivity. failing_activity.
Qed.

End CacheProperties.

(** ** Redis, as time goes by *)

Lemma elapse_lookup (d : Z) (w : World) (key : string) :
  store (cache.elapse d w) !! key = store w !! key ≫= cache.age d.
Proof. unfold cache.elapse. simpl. apply lookup_omap. Qed.

(** A key that is still there holds the value it held. *)
Lemma elapse_Some (d : Z) (w : World) (key value : string) (ttl : Z) :
  store (cache.elapse d w) !! key = Some (value, ttl) ->
  exists ttl0, store w !! key = Some (value, ttl0).
Proof.
  rewrite elapse_lookup.
  destruct (store w !! key) as [[value0 ttl0]|]; simpl; [|done].
  destruct (ttl0 <=? 0); [|destruct (d <? ttl0)]; intros [= <- _]; eauto.
Qed.

(** A key set with a positive time to live is there until that time has
    passed. *)
Lemma elapse_fresh_key (d : Z) (w : World) (key value : string) (ttl : Z) :
  0 < ttl ->
  store w !! key = Some (value, ttl) ->
  d < ttl <-> is_Some (store (cache.elapse d w) !! key).
Proof.
  intros Hpos Hs. rewrite elapse_lookup, Hs. simpl.
  assert (Hle : (ttl <=? 0) = false) by (apply Z.leb_gt; lia).
  rewrite Hle. destruct (Z.ltb_spec d ttl); split; try done; try lia.
Qed.

(** An expired key reads as a miss. *)
Lemma Get_expired (d : Z) (w : World) (key value : string) (ttl : Z) :
  cacheError w = None ->
  store w !! key = Some (value, ttl) ->
  0 < ttl <= d ->
  cache.Get (cache.elapse d w) key = ("", None).
Proof.
  intros He Hs Hd. unfold cache.Get.
  change (cacheError (cache.elapse d w)) with (cacheError w).
  rewrite He, elapse_lookup, Hs. simpl.
  assert (Hle : (ttl <=? 0) = false) by (apply Z.leb_gt; lia).
  assert (Hlt : (d <? ttl) = false) by (apply Z.ltb_ge; lia).
  by rewrite Hle, Hlt.
Qed.

Section CacheLemmas.

Context (now : Z) (RunID : string).
Context (Infer : llm.InferRequest -> result llm.InferResponse).
Context {jsonFinancial : JSON FinancialResult.t}
        {jsonPipelineResult : JSON PipelineResult.t}
        {jsonPipelines : JSON (list DrugPipeline.t)}
        {jsonClinical : JSON ClinicalAssessment.t}
        {jsonMarket : JSON MarketAssessment.t}.

Lemma Get_cases (w : World) (key : string) :
  cacheError w = None ->
  (exists cached ttl0,
     store w !! key = Some (cached, ttl0) /\ cache.Get w key = (cached, None)) \/
  (store w !! key = None /\ cache.Get w key = ("", None)).
Proof.
  intros He. unfold cache.Get. rewrite He.
  destruct (store w !! key) as [[cached ttl0]|]; [left|right]; eauto.
Qed.

(** The activity had to compute: it leaves the result under the key. *)
Ltac computed He :=
  (destruct (Infer _); simpl; [|done]);
  (destruct (Unmarshal (llm.FinalAnswer _)); simpl; [|done]);
  unfold cache.Set_; simpl; rewrite He; simpl;
  intros [= <-]; (split; [exact He|]); right; split; reflexivity.

(** The activity answered from the entry [Hs]. *)
Ltac served He Hs Hempty Hold :=
  intros [= <-]; (split; [exact He|]); left; eexists _, _;
  (split; [exact Hs|]); (split; [by apply String.eqb_neq|]);
  (split; [exact Hold|]); split; reflexivity.

Ltac first_call He :=
  let cached := fresh "cached" in
  let ttl0 := fresh "ttl0" in
  let Hs := fresh "Hs" in
  let Hget := fresh "Hget" in
  let Hempty := fresh "Hempty" in
  let Hold := fresh "Hold" in
  match goal with
  | |- context [cache.Get ?w ?k] =>
      destruct (Get_cases w k He) as [(cached & ttl0 & Hs & Hget)|[Hs Hget]];
      rewrite Hget; simpl
  end;
  [ destruct (String.eqb cached "") eqn:Hempty; simpl;
    [ computed He
    | destruct (Unmarshal cached) eqn:Hold; simpl;
      [ first [ served He Hs Hempty Hold
              | destruct (now - _ <? _); simpl;
                [ served He Hs Hempty Hold | computed He ] ]
      | computed He ] ]
  | computed He ].

Lemma financial_caches :
  cachesResult (Activities.FinancialAuditorActivity now RunID Infer)
    financialKeyOf (Activities.financialRequest RunID) (24 * Hour).
Proof.
  intros input w v He. unfold financialKeyOf.
  unfold Activities.FinancialAuditorActivity. first_call He.
Qed.

Lemma pipeline_caches :
  cachesResult (Activities.PipelineScoutActivity now RunID Infer)
    pipelineKeyOf (Activities.pipelineRequest RunID) (24 * Hour).
Proof.
  intros input w v He. unfold pipelineKeyOf.
  unfold Activities.PipelineScoutActivity. first_call He.
Qed.

Lemma clinical_caches :
  cachesResult (Activities.ClinicalAssessorActivity RunID Infer)
    clinicalKeyOf (Activities.clinicalRequest RunID) (12 * Hour).
Proof.
  intros input w v He. unfold clinicalKeyOf.
  unfold Activities.ClinicalAssessorActivity. first_call He.
Qed.

Lemma market_caches :
  cachesResult (Activities.MarketStrategistActivity RunID Infer)
    marketKeyOf (Activities.marketRequest RunID) (6 * Hour).
Proof.
  intros input w v He. unfold marketKeyOf.
  unfold Activities.MarketStrategistActivity. first_call He.
Qed.

Lemma financial_serves :
  servesFromCache (Activities.FinancialAuditorActivity now RunID Infer)
    financialKeyOf (fun _ => True).
Proof.
  intros input w cached ttl0 v He Hs Hne Hok _.
  unfold Activities.FinancialAuditorActivity. unfold financialKeyOf in Hs.
  rewrite (Get_corrupted _ _ _ _ He Hs), (eqb_nonempty _ Hne), Hok. done.
Qed.

Lemma pipeline_serves :
  servesFromCache (Activities.PipelineScoutActivity now RunID Infer)
    pipelineKeyOf (fun v => now - PipelineResult.DataAsOf v < 24 * Hour).
Proof.
  intros input w cached ttl0 v He Hs Hne Hok Hfresh.
  unfold Activities.PipelineScoutActivity. unfold pipelineKeyOf in Hs.
  rewrite (Get_corrupted _ _ _ _ He Hs), (eqb_nonempty _ Hne), Hok. simpl.
  assert (Hlt : (now - PipelineResult.DataAsOf v <? 24 * Hour) = true)
    by (by apply Z.ltb_lt).
  rewrite Hlt. done.
Qed.

Lemma clinical_serves :
  servesFromCache (Activities.ClinicalAssessorActivity RunID Infer)
    clinicalKeyOf (fun _ => True).
Proof.
  intros input w cached ttl0 v He Hs Hne Hok _.
  unfold Activities.ClinicalAssessorActivity. unfold clinicalKeyOf in Hs.
  rewrite (Get_corrupted _ _ _ _ He Hs), (eqb_nonempty _ Hne), Hok. done.
Qed.

Lemma market_serves :
  servesFromCache (Activities.MarketStrategistActivity RunID Infer)
    marketKeyOf (fun _ => True).
Proof.
  intros input w cached ttl0 v He Hs Hne Hok _.
  unfold Activities.MarketStrategistActivity. unfold marketKeyOf in Hs.
  rewrite (Get_corrupted _ _ _ _ He Hs), (eqb_nonempty _ Hne), Hok. done.
Qed.

Lemma Get_absent (w : World) (key : string) :
  cacheError w = None -> store w !! key = None -> cache.Get w key = ("", None).
Proof. intros He Hs. unfold cache.Get. by rewrite He, Hs. Qed.

Ltac asks He Hs :=
  rewrite (Get_absent _ _ He Hs); simpl;
  (destruct (Infer _); simpl; [|done]);
  (destruct (Unmarshal (llm.FinalAnswer _)); simpl; [|done]);
  unfold cache.Set_; simpl; rewrite He; done.

Lemma financial_asks :
  asksWhenAbsent (Activities.FinancialAuditorActivity now RunID Infer)
    financialKeyOf (Activities.financialRequest RunID).
Proof.
  intros input w He Hs. unfold financialKeyOf in Hs.
  unfold Activities.FinancialAuditorActivity. asks He Hs.
Qed.

Lemma pipeline_asks :
  asksWhenAbsent (Activities.PipelineScoutActivity now RunID Infer)
    pipelineKeyOf (Activities.pipelineRequest RunID).
Proof.
  intros input w He Hs. unfold pipelineKeyOf in Hs.
  unfold Activities.PipelineScoutActivity. asks He Hs.
Qed.

Lemma clinical_asks :
  asksWhenAbsent (Activities.ClinicalAssessorActivity RunID Infer)
    clinicalKeyOf (Activities.clinicalRequest RunID).
Proof.
  intros input w He Hs. unfold clinicalKeyOf in Hs.
  unfold Activities.ClinicalAssessorActivity. asks He Hs.
Qed.

Lemma market_asks :
  asksWhenAbsent (Activities.MarketStrategistActivity RunID Infer)
    marketKeyOf (Activities.marketRequest RunID).
Proof.
  intros input w He Hs. unfold marketKeyOf in Hs.
  unfold Activities.MarketStrategistActivity. asks He Hs.
Qed.

End CacheLemmas.

(** From what the first call leaves and what the second call does on a hit
    and on an absent key. *)
Lemma secondCallHits_from {I T : Type} `{!JSON T}
    (first second : I -> World -> result T * World) (key : I -> string)
    (request1 request2 : I -> llm.InferRequest) (ttl d : Z)
    (fresh : T -> Prop) :
  0 < ttl ->
  cachesResult first key request1 ttl ->
  servesFromCache second key fresh ->
  asksWhenAbsent second key request2 ->
  secondCallHits first second key request2 ttl d fresh.
Proof.
  intros Hpos Hfirst Hserves Hasks input w v He Hd Hok Hrt Hne Hfresh w1 w2.
  destruct (Hfirst input w v He Hok) as [He1 Hleft]. fold w1 in He1, Hleft.
  assert (He2 : cacheError w2 = None) by exact He1.
  assert (Hcalls2 : llmCalls w2 = llmCalls w1) by reflexivity.
  split; [|split].
  - intros [[cached ttl2] Hs2].
    destruct (elapse_Some _ _ _ _ _ Hs2) as [ttl1 Hs1].
    assert (Hcached : cached <> "" /\ Unmarshal cached = Ok v).
    { destruct Hleft as [(c & t & Hs & Hc & Hu & Hstore & _)|[Hstore _]].
      - rewrite Hstore, Hs in Hs1. by injection Hs1 as <- _.
      - rewrite Hstore, lookup_insert_eq in Hs1. by injection Hs1 as <- _. }
    destruct Hcached as [Hc Hu].
    destruct (Hserves input w2 cached ttl2 v He2 Hs2 Hc Hu Hfresh)
      as (Hres & Hcalls & Hstore & _).
    split; [exact Hres|]. split; [by rewrite Hcalls|exact Hstore].
  - intros Habsent.
    destruct Hleft as [(c & t & Hs & _)|[Hstore _]]; [congruence|].
    apply (elapse_fresh_key d w1 (key input) (Marshal v) ttl Hpos).
    by rewrite Hstore, lookup_insert_eq.
  - intros Hgone. rewrite (Hasks input w2 He2 Hgone). by rewrite Hcalls2.
Qed.

Section CacheIdempotence.

Context (now now' : Z) (RunID RunID' : string).
Context (Infer Infer' : llm.InferRequest -> result llm.InferResponse).
Context {jsonFinancial : JSON FinancialResult.t}
        {jsonPipelineResult : JSON PipelineResult.t}
        {jsonPipelines : JSON (list DrugPipeline.t)}
        {jsonClinical : JSON ClinicalAssessment.t}
        {jsonMarket : JSON MarketAssessment.t}.

(** Idempotence through the cache, within the time to live. Once one of
    the four cacheable activities has returned a value at time now, a second
    call for the same input at time now', in any run and whatever the LLM
    client would answer, returns the same value from the cache and sends no
    request, as long as Redis still holds the key, the store answers and the
    value survives encoding and decoding (for the pipeline scan the value
    must also be less than 24 hours old at the second call). A key the first
    call had to write is held for the time to live of its namespace (24 h,
    24 h, 12 h, 6 h) and is gone once now' - now reaches it; and when the
    key is gone the second call asks the LLM client again. *)
Theorem second_call_is_served_within_ttl :
  secondCallHits (Activities.FinancialAuditorActivity now RunID Infer)
    (Activities.FinancialAuditorActivity now' RunID' Infer')
    financialKeyOf (Activities.financialRequest RunID')
    (24 * Hour) (now' - now) (fun _ => True) /\
  secondCallHits (Activities.PipelineScoutActivity now RunID Infer)
    (Activities.PipelineScoutActivity now' RunID' Infer')
    pipelineKeyOf (Activities.pipelineRequest RunID')
    (24 * Hour) (now' - now)
    (fun v => now' - PipelineResult.DataAsOf v < 24 * Hour) /\
  secondCallHits (Activities.ClinicalAssessorActivity RunID Infer)
    (Activities.ClinicalAssessorActivity RunID' Infer')
    clinicalKeyOf (Activities.clinicalRequest RunID')
    (12 * Hour) (now' - now) (fun _ => True) /\
  secondCallHits (Activities.MarketStrategistActivity RunID Infer)
    (Activities.MarketStrategistActivity RunID' Infer')
    marketKeyOf (Activities.marketRequest RunID')
    (6 * Hour) (now' - now) (fun _ => True).
Proof.
  split; [|split; [|split]].
  - apply (secondCallHits_from _ _ _ (Activities.financialRequest RunID));
      [done|apply financial_caches|apply financial_serves|apply financial_asks].
  - apply (secondCallHits_from _ _ _ (Activities.pipelineRequest RunID));
      [done|apply pipeline_caches|apply pipeline_serves|apply pipeline_asks].
  - apply (secondCallHits_from _ _ _ (Activities.clinicalRequest RunID));
      [done|apply clinical_caches|apply clinical_serves|apply clinical_asks].
  - apply (secondCallHits_from _ _ _ (Activities.marketRequest RunID));
      [done|apply market_caches|apply market_serves|apply market_asks].
Qed.

End CacheIdempotence.

(** Witness of the dead-cache bypass: with Redis down and the repository's
    placeholder LLM client, the financial activity still returns its result,
    after one request, and stores nothing. *)
Lemma unreachable_cache_is_bypassed_witness :
  (Activities.FinancialAuditorActivity
     (jsonFinancial := placeholderJSON FinancialResult.zero)
     sampleNow "run-1" llm.Infer sampleFinancialInput deadWorld).1
  = Ok computedFinancial /\
  length (llmCalls (Activities.FinancialAuditorActivity
     (jsonFinancial := placeholderJSON FinancialResult.zero)
     sampleNow "run-1" llm.Infer sampleFinancialInput deadWorld).2) = 1%nat /\
  store (Activities.FinancialAuditorActivity
     (jsonFinancial := placeholderJSON FinancialResult.zero)
     sampleNow "run-1" llm.Infer sampleFinancialInput deadWorld).2 = ∅.
Proof.
  destruct (unreachable_cache_is_bypassed sampleNow "run-1" llm.Infer
              (jsonFinancial := placeholderJSON FinancialResult.zero)
              (jsonPipelineResult := placeholderJSON PipelineResult.zero)
              (jsonPipelines := pipelinesJSON)
              (jsonClinical := placeholderJSON ClinicalAssessment.zero)
              (jsonMarket := placeholderJSON MarketAssessment.zero))
    as (Hfin & _).
  destruct (Hfin sampleFinancialInput deadWorld (New ErrCacheUnavailable)
              eq_refl) as (Hres & Hcalls & Hstore & _).
  split; [|split].
  - rewrite Hres. vm_compute. reflexivity.
  - rewrite Hcalls. reflexivity.
  - rewrite Hstore. reflexivity.
Defined.

(** Witness of the cache hit: the entry of [staleWorld], read by a codec
    that decodes it to a scan made at [sampleNow], is served at [sampleNow]
    although the LLM client is down. *)
Lemma cache_hit_skips_the_collaborator_witness :
  (Activities.PipelineScoutActivity
     (jsonPipelineResult := constantJSON (scanAt sampleNow))
     (jsonPipelines := pipelinesJSON)
     sampleNow "run-1" downInfer samplePipelineInput staleWorld).1
  = Ok (scanAt sampleNow) /\
  llmCalls (Activities.PipelineScoutActivity
     (jsonPipelineResult := constantJSON (scanAt sampleNow))
     (jsonPipelines := pipelinesJSON)
     sampleNow "run-1" downInfer samplePipelineInput staleWorld).2 = [].
Proof.
  destruct (cache_hit_skips_the_collaborator sampleNow "run-1" downInfer
              (jsonFinancial := placeholderJSON FinancialResult.zero)
              (jsonPipelineResult := constantJSON (scanAt sampleNow))
              (jsonPipelines := pipelinesJSON)
              (jsonClinical := placeholderJSON ClinicalAssessment.zero)
              (jsonMarket := placeholderJSON MarketAssessment.zero))
    as (_ & Hpipe & _).
  assert (Hne : "x" <> "") by discriminate.
  assert (Hage : sampleNow - PipelineResult.DataAsOf (scanAt sampleNow)
                 < 24 * Hour) by (vm_compute; reflexivity).
  destruct (Hpipe samplePipelineInput staleWorld "x" 0 (scanAt sampleNow)
              eq_refl eq_refl Hne eq_refl Hage) as (Hres & Hcalls & _).
  split; [exact Hres | exact Hcalls].
Defined.

(** Witness of the refresh: the same entry, decoded to a scan made two days
    before [sampleNow], is replaced by a scan stamped [sampleNow]. *)
Lemma stale_pipeline_cache_is_refreshed_witness :
  (Activities.PipelineScoutActivity
     (jsonPipelineResult := constantJSON (scanAt (sampleNow - 48 * Hour)))
     (jsonPipelines := pipelinesJSON)
     sampleNow "run-1" emptyArrayInfer samplePipelineInput staleWorld).1
  = Ok (scanAt sampleNow) /\
  length (llmCalls (Activities.PipelineScoutActivity
     (jsonPipelineResult := constantJSON (scanAt (sampleNow - 48 * Hour)))
     (jsonPipelines := pipelinesJSON)
     sampleNow "run-1" emptyArrayInfer samplePipelineInput staleWorld).2)
  = 1%nat /\
  store (Activities.PipelineScoutActivity
     (jsonPipelineResult := constantJSON (scanAt (sampleNow - 48 * Hour)))
     (jsonPipelines := pipelinesJSON)
     sampleNow "run-1" emptyArrayInfer samplePipelineInput staleWorld).2
  !! "company:BGNE:pipeline:raw" = Some ("x", 24 * Hour).
Proof.
  assert (Hold : 24 * Hour
                 <= sampleNow
                    - PipelineResult.DataAsOf (scanAt (sampleNow - 48 * Hour)))
    by (vm_compute; discriminate).
  destruct (stale_pipeline_cache_is_refreshed sampleNow "run-1" emptyArrayInfer
              (jsonPipelineResult := constantJSON (scanAt (sampleNow - 48 * Hour)))
              (jsonPipelines := pipelinesJSON)
              samplePipelineInput staleWorld "x" 0
              (scanAt (sampleNow - 48 * Hour))
              eq_refl eq_refl (or_intror (conj eq_refl Hold)))
    as (_ & Hcalls & Hstore).
  assert (Hres : (Activities.PipelineScoutActivity
     (jsonPipelineResult := constantJSON (scanAt (sampleNow - 48 * Hour)))
     (jsonPipelines := pipelinesJSON)
     sampleNow "run-1" emptyArrayInfer samplePipelineInput staleWorld).1
     = Ok (scanAt sampleNow)) by (vm_compute; reflexivity).
  split; [exact Hres|]. split.
  - rewrite Hcalls. reflexivity.
  - destruct (Hstore _ Hres) as (_ & _ & ->).
    apply lookup_insert_eq.
Defined.

(** Witness of the failure case: with the LLM client down, the financial
    activity fails on an empty store, after one request, and leaves the
    store empty. *)
Lemma failed_activity_caches_nothing_witness :
  store (Activities.FinancialAuditorActivity
     (jsonFinancial := placeholderJSON FinancialResult.zero)
     sampleNow "run-1" downInfer sampleFinancialInput emptyWorld).2 = ∅ /\
  llmCalls (Activities.FinancialAuditorActivity
     (jsonFinancial := placeholderJSON FinancialResult.zero)
     sampleNow "run-1" downInfer sampleFinancialInput emptyWorld).2
  = [Activities.financialRequest "run-1" sampleFinancialInput].
Proof.
  destruct (failed_activity_caches_nothing sampleNow "run-1" downInfer
              (jsonFinancial := placeholderJSON FinancialResult.zero)
              (jsonPipelineResult := placeholderJSON PipelineResult.zero)
              (jsonPipelines := pipelinesJSON)
              (jsonClinical := placeholderJSON ClinicalAssessment.zero)
              (jsonMarket := placeholderJSON MarketAssessment.zero))
    as (Hfin & _).
  destruct (Hfin sampleFinancialInput emptyWorld
              (Wrap "LLM inference failed" (New ErrLLMUnavailable)) eq_refl)
    as (Hstore & Hcalls & _).
  split; [exact Hstore|exact Hcalls].
Defined.

(** Witness of the idempotence: the financial result computed at
    [sampleNow] from the placeholder answer is returned again one hour
    later, in another run, although the LLM client is then down; 25 hours
    later the key has expired and the activity asks the LLM client again. *)
Lemma second_call_is_served_within_ttl_witness :
  (Activities.FinancialAuditorActivity
     (jsonFinancial := constantJSON computedFinancial)
     (sampleNow + Hour) "run-2" downInfer sampleFinancialInput
     (cache.elapse Hour
        (Activities.FinancialAuditorActivity
           (jsonFinancial := constantJSON computedFinancial)
           sampleNow "run-1" llm.Infer sampleFinancialInput emptyWorld).2)).1
  = Ok computedFinancial /\
  length
    (llmCalls
       (Activities.FinancialAuditorActivity
          (jsonFinancial := constantJSON computedFinancial)
          (sampleNow + 25 * Hour) "run-2" downInfer sampleFinancialInput
          (cache.elapse (25 * Hour)
             (Activities.FinancialAuditorActivity
                (jsonFinancial := constantJSON computedFinancial)
                sampleNow "run-1" llm.Infer sampleFinancialInput
                emptyWorld).2)).2)
  = 2%nat.
Proof.
  assert (Hne : Marshal (JSON := constantJSON computedFinancial)
                  computedFinancial <> "") by discriminate.
  split.
  - destruct (second_call_is_served_within_ttl sampleNow (sampleNow + Hour)
                "run-1" "run-2" llm.Infer downInfer
                (jsonFinancial := constantJSON computedFinancial)
                (jsonPipelineResult := placeholderJSON PipelineResult.zero)
                (jsonPipelines := pipelinesJSON)
                (jsonClinical := placeholderJSON ClinicalAssessment.zero)
                (jsonMarket := placeholderJSON MarketAssessment.zero))
      as (Hfin & _).
    assert (Hd : 0 <= sampleNow + Hour - sampleNow) by (vm_compute; discriminate).
    destruct (Hfin sampleFinancialInput emptyWorld computedFinancial
                eq_refl Hd eq_refl eq_refl Hne I) as (Hhit & Hlive & _).
    assert (Hlt : sampleNow + Hour - sampleNow < 24 * Hour)
      by (vm_compute; reflexivity).
    exact (proj1 (Hhit (proj1 (Hlive eq_refl) Hlt))).
  - destruct (second_call_is_served_within_ttl sampleNow
                (sampleNow + 25 * Hour)
                "run-1" "run-2" llm.Infer downInfer
                (jsonFinancial := constantJSON computedFinancial)
                (jsonPipelineResult := placeholderJSON PipelineResult.zero)
                (jsonPipelines := pipelinesJSON)
                (jsonClinical := placeholderJSON ClinicalAssessment.zero)
                (jsonMarket := placeholderJSON MarketAssessment.zero))
      as (Hfin & _).
    assert (Hd : 0 <= sampleNow + 25 * Hour - sampleNow)
      by (vm_compute; discriminate).
    destruct (Hfin sampleFinancialInput emptyWorld computedFinancial
                eq_refl Hd eq_refl eq_refl Hne I) as (_ & _ & Hasks).
    assert (Hgone :
      store (cache.elapse (sampleNow + 25 * Hour - sampleNow)
               (Activities.FinancialAuditorActivity
                  (jsonFinancial := constantJSON computedFinancial)
                  sampleNow "run-1" llm.Infer sampleFinancialInput
                  emptyWorld).2)
      !! financialKeyOf sampleFinancialInput = None)
      by (vm_compute; reflexivity).
    pose proof (Hasks Hgone) as Hcalls.
    change (sampleNow + 25 * Hour - sampleNow) with (25 * Hour) in Hcalls.
    rewrite Hcalls. reflexivity.
Defined.

(** * The report activity *)

Section Report.

Context (now : Z) (RunID : string).
Context (Infer : llm.InferRequest -> result llm.InferResponse).
Context {jsonReport : JSON ReportResult.t}.

(** The report is never served from the cache and its verdict is not read
    from the answer: whatever the store holds and whether or not it answers,
    ReportGeneratorActivity sends exactly one request; it fails exactly when
    the inference fails, with the inference error wrapped; otherwise the
    report carries the answer as its content, the recommendation 持有 and the
    same four key risks for every answer, and is stored for seven days
    when the store answers. *)
Theorem ReportGeneratorActivity_always_asks_and_always_holds
    (input : ReportGeneratorInput.t) (w : World) :
  let run := ReportGeneratorActivity now RunID Infer input w in
  llmCalls run.2 = llmCalls w ++ [reportRequest RunID input] /\
  (forall w', (ReportGeneratorActivity now RunID Infer input w').1 = run.1) /\
  (forall e, Infer (reportRequest RunID input) = Err e ->
     run.1 = Err (Wrap "LLM inference failed" e) /\ store run.2 = store w) /\
  (forall response, Infer (reportRequest RunID input) = Ok response ->
     exists r, run.1 = Ok r /\
       ReportResult.Ticker r = ReportGeneratorInput.Ticker input /\
       ReportResult.MarkdownContent r = llm.FinalAnswer response /\
       ReportResult.Recommendation r = "持有" /\
       length (ReportResult.KeyRisks r) = 4%nat /\
       ReportResult.GeneratedAt r = now /\
       (cacheError w = None ->
        store run.2
        = <[reportKey (ReportGeneratorInput.Ticker input)
            := (Marshal r, 7 * 24 * Hour)]> (store w)) /\
       (cacheError w <> None -> store run.2 = store w)).
Proof.
  intros run. unfold run, ReportGeneratorActivity.
  destruct (Infer (reportRequest RunID input)) as [response|e] eqn:Hinfer.
  - unfold cache.Set_. simpl.
    destruct (cacheError w) as [e|] eqn:He; simpl.
    + split; [done|]. split.
      { intros w'. by destruct (cacheError w'). }
      split; [done|]. intros ? [= <-]. eexists. split; [reflexivity|].
      simpl. repeat (split; [reflexivity|]). split; [done|]. done.
    + split; [done|]. split.
      { intros w'. by destruct (cacheError w'). }
      split; [done|]. intros ? [= <-]. eexists. split; [reflexivity|].
      simpl. repeat (split; [reflexivity|]).
      intros Hdead. by destruct Hdead.
  - simpl. split; [done|]. split; [done|]. split; [|done].
    by intros ? [= <-].
Qed.

End Report.

(** * Logging helpers *)

Lemma sanitizeEntry_lookup (k : string) (v : logging.Any)
    (r : gmap string logging.Any) :
  logging.sanitizeEntry k v r
  = <[k := if default false (logging.sensitiveFields !! k)
           then logging.redacted else v]> r.
Proof.
  unfold logging.sanitizeEntry.
  by destruct (default false (logging.sensitiveFields !! k)).
Qed.

Lemma SanitizeForLog_lookup (data : gmap string logging.Any) (k : string) :
  logging.SanitizeForLog data !! k
  = (fun v => if default false (logging.sensitiveFields !! k)
              then logging.redacted else v) <$> data !! k.
Proof.
  unfold logging.SanitizeForLog.
  apply (map_fold_weak_ind
    (fun r m => r !! k
       = (fun v => if default false (logging.sensitiveFields !! k)
                   then logging.redacted else v) <$> m !! k)).
  - by rewrite !lookup_empty.
  - intros i x m r Hi IH. rewrite sanitizeEntry_lookup.
    destruct (decide (i = k)) as [->|Hne].
    + by rewrite !lookup_insert_eq.
    + by rewrite !lookup_insert_ne.
Qed.

Lemma sensitive_iff (k : string) :
  default false (logging.sensitiveFields !! k) = true
  <-> k ∈ ["api_key"; "password"; "token"; "secret"; "key"].
Proof.
  rewrite !elem_of_cons, elem_of_nil.
  destruct (decide (k = "api_key")) as [->|H1];
    [split; [intros _; auto 10 | intros _; vm_compute; reflexivity]|].
  destruct (decide (k = "password")) as [->|H2];
    [split; [intros _; auto 10 | intros _; vm_compute; reflexivity]|].
  destruct (decide (k = "token")) as [->|H3];
    [split; [intros _; auto 10 | intros _; vm_compute; reflexivity]|].
  destruct (decide (k = "secret")) as [->|H4];
    [split; [intros _; auto 10 | intros _; vm_compute; reflexivity]|].
  destruct (decide (k = "key")) as [->|H5];
    [split; [intros _; auto 10 | intros _; vm_compute; reflexivity]|].
  unfold logging.sensitiveFields. cbn [list_to_map foldr uncurry fst snd].
  rewrite !lookup_insert_ne, lookup_empty by done. simpl. naive_solver.
Qed.

(** SanitizeForLog redacts by exact top-level key only: the result has the
    keys of the data; the value of a key is replaced by the redaction marker
    exactly when the key is one of api_key, password, token, secret and key,
    spelled so; every other value, a nested map that holds secrets included,
    is kept as it is; and sanitising twice is sanitising once. *)
Theorem SanitizeForLog_redacts_exact_top_level_keys
    (data : gmap string logging.Any) :
  dom (logging.SanitizeForLog data) = dom data /\
  (forall k v, data !! k = Some v ->
     k ∈ ["api_key"; "password"; "token"; "secret"; "key"] ->
     logging.SanitizeForLog data !! k = Some logging.redacted) /\
  (forall k v, data !! k = Some v ->
     k ∉ ["api_key"; "password"; "token"; "secret"; "key"] ->
     logging.SanitizeForLog data !! k = Some v) /\
  logging.SanitizeForLog (logging.SanitizeForLog data)
  = logging.SanitizeForLog data.
Proof.
  split; [|split; [|split]].
  - apply set_eq. intros k. rewrite !elem_of_dom, SanitizeForLog_lookup.
    by rewrite fmap_is_Some.
  - intros k v Hk Hin. rewrite SanitizeForLog_lookup, Hk. simpl.
    apply sensitive_iff in Hin. by rewrite Hin.
  - intros k v Hk Hnin. rewrite SanitizeForLog_lookup, Hk. simpl.
    destruct (default false (logging.sensitiveFields !! k)) eqn:Hs; [|done].
    apply sensitive_iff in Hs. done.
  - apply map_eq. intros k. rewrite !SanitizeForLog_lookup.
    destruct (data !! k) as [v|]; simpl; [|done].
    by destruct (default false (logging.sensitiveFields !! k)).
Qed.

(** On [sampleLogData] only the password is redacted. *)
Lemma SanitizeForLog_redacts_exact_top_level_keys_witness :
  logging.SanitizeForLog sampleLogData !! "password" = Some logging.redacted /\
  logging.SanitizeForLog sampleLogData !! "API_KEY"
  = Some (logging.AnyString "sk-1") /\
  logging.SanitizeForLog sampleLogData !! "llm"
  = Some (logging.AnyMap {["api_key" := logging.AnyString "sk-2"]}).
Proof.
  destruct (SanitizeForLog_redacts_exact_top_level_keys sampleLogData)
    as (_ & Hred & Hkeep & _).
  split; [|split].
  - apply (Hred "password" (logging.AnyString "hunter2")).
    + reflexivity.
    + apply (bool_decide_unpack _). vm_compute. exact I.
  - apply (Hkeep "API_KEY" (logging.AnyString "sk-1")).
    + reflexivity.
    + apply (bool_decide_unpack _). vm_compute. exact I.
  - apply (Hkeep "llm").
    + reflexivity.
    + apply (bool_decide_unpack _). vm_compute. exact I.
Defined.

Lemma keyvalsOf_even (fields : list logging.Field) :
  Nat.even (length (keyvalsOf fields)) = true.
Proof. induction fields as [|[k v] fields IH]; [done|]. exact IH. Qed.

Lemma pairFields_keyvalsOf (fields : list logging.Field) :
  logging.pairFields (keyvalsOf fields) = fields.
Proof.
  induction fields as [|[k v] fields IH]; [done|].
  unfold keyvalsOf in *. cbn [map concat app logging.pairFields fst snd].
  by rewrite IH.
Qed.

Lemma pairFields_length (keyvals : list logging.Any) :
  (2 * length (logging.pairFields keyvals) <= length keyvals)%nat.
Proof.
  induction keyvals as [keyvals IH] using (induction_ltof1 _ (@length _)).
  unfold ltof in IH.
  destruct keyvals as [|key [|value rest]]; cbn [logging.pairFields length];
    [lia..|].
  specialize (IH rest ltac:(simpl; lia)).
  destruct key; cbn [length]; lia.
Qed.

(** toZapFields pairs keys with values: the alternating list of well-formed
    fields gives back these fields, in order; one trailing value too many
    and every field is dropped, the well-formed ones included; and no list
    gives more fields than half its length. *)
Theorem toZapFields_pairs_or_drops_all (fields : list logging.Field)
    (extra : logging.Any) (keyvals : list logging.Any) :
  logging.toZapFields (keyvalsOf fields) = fields /\
  logging.toZapFields (keyvalsOf fields ++ [extra]) = [] /\
  (2 * length (logging.toZapFields keyvals) <= length keyvals)%nat.
Proof.
  split; [|split].
  - unfold logging.toZapFields. rewrite keyvalsOf_even. simpl.
    apply pairFields_keyvalsOf.
  - unfold logging.toZapFields.
    rewrite length_app, Nat.add_1_r, Nat.even_succ, <- Nat.negb_even.
    by rewrite keyvalsOf_even.
  - unfold logging.toZapFields.
    destruct (negb (Nat.even (length keyvals))); [simpl; lia|].
    apply pairFields_length.
Qed.

(** * The retry loop of the LLM client *)

Lemma wrap64_small (z : Z) : - 2 ^ 63 <= z < 2 ^ 63 -> retry.wrap64 z = z.
Proof. intros Hz. unfold retry.wrap64. rewrite Z.mod_small; lia. Qed.

Lemma backoff_small (i : Z) :
  0 <= i < 34 -> retry.backoff i = 2 ^ i * retry.Second.
Proof.
  intros Hi. unfold retry.backoff.
  assert (Hlt : (i <? 64) = true) by (apply Z.ltb_lt; lia).
  rewrite Hlt.
  assert (Hpow : 0 < 2 ^ i <= 2 ^ 33).
  { split; [apply Z.pow_pos_nonneg; lia|apply Z.pow_le_mono_r; lia]. }
  assert (H33 : 2 ^ 33 = 8589934592) by reflexivity.
  assert (H63 : 2 ^ 63 = 9223372036854775808) by reflexivity.
  rewrite (wrap64_small (2 ^ i)) by lia.
  apply wrap64_small. unfold retry.Second. lia.
Qed.

Lemma total_backoff (k : nat) :
  (k <= 34)%nat ->
  retry.total (map (fun i => retry.slept (retry.backoff i))
                 (seqZ 0 (Z.of_nat k)))
  = (2 ^ Z.of_nat k - 1) * retry.Second.
Proof.
  induction k as [|k IH]; intros Hk; [reflexivity|].
  replace (Z.of_nat (S k)) with (Z.of_nat k + 1) by lia.
  rewrite seqZ_app by lia. rewrite map_app. unfold retry.total in *.
  rewrite foldr_app. cbn [seqZ map foldr].
  replace (seqZ (0 + Z.of_nat k) 1) with [Z.of_nat k] by (by rewrite Z.add_0_l).
  cbn [map foldr].
  assert (Hsum : forall (l : list Z) (a : Z),
            foldr Z.add a l = foldr Z.add 0 l + a).
  { induction l as [|x l IHl]; intros a; cbn [foldr]; [lia|].
    rewrite IHl. lia. }
  rewrite Hsum, IH by lia.
  rewrite backoff_small by lia.
  assert (Hpos : 0 < 2 ^ Z.of_nat k) by (apply Z.pow_pos_nonneg; lia).
  unfold retry.slept, retry.Second.
  rewrite Z.pow_add_r by lia. lia.
Qed.

Lemma loop_first_success (attempt : Z -> result llm.InferResponse)
    (maxRetries : Z) (resp : llm.InferResponse) (k n : nat) (i : Z)
    (lastErr : option error) :
  (k < n)%nat ->
  (forall j, i <= j < i + Z.of_nat k -> exists e, attempt j = Err e) ->
  attempt (i + Z.of_nat k) = Ok resp ->
  retry.loop attempt maxRetries n i lastErr
  = {| retry.outcome := Ok resp; retry.calls := S k;
       retry.sleeps :=
         map (fun i => retry.slept (retry.backoff i)) (seqZ i (Z.of_nat k)) |}.
Proof.
  revert n i lastErr.
  induction k as [|k IH]; intros n i lastErr Hk Hfail Hok.
  - destruct n as [|n]; [lia|]. cbn [retry.loop].
    replace (i + Z.of_nat 0) with i in Hok by lia. by rewrite Hok.
  - destruct n as [|n]; [lia|]. cbn [retry.loop].
    destruct (Hfail i ltac:(lia)) as [e He]. rewrite He.
    rewrite (IH n (i + 1) (Some e)); [| lia | |].
    + cbn [retry.outcome retry.calls retry.sleeps].
      replace (Z.of_nat (S k)) with (Z.succ (Z.of_nat k)) by lia.
      rewrite (seqZ_cons i) by lia. cbn [map].
      replace (Z.pred (Z.succ (Z.of_nat k))) with (Z.of_nat k) by lia.
      by replace (Z.succ i) with (i + 1) by lia.
    + intros j Hj. apply Hfail. lia.
    + by replace (i + 1 + Z.of_nat k) with (i + Z.of_nat (S k)) by lia.
Qed.

Lemma loop_exhausted (attempt : Z -> result llm.InferResponse)
    (errs : Z -> error) (maxRetries : Z) (n : nat) (i : Z)
    (lastErr : option error) :
  (forall j, i <= j < i + Z.of_nat n -> attempt j = Err (errs j)) ->
  retry.loop attempt maxRetries n i lastErr
  = {| retry.outcome :=
         Err match (if n is O then lastErr
                    else Some (errs (i + Z.of_nat n - 1))) with
             | Some e =>
                 Wrap ("failed after " +:+ pretty maxRetries +:+ " retries") e
             | None =>
                 Other ("failed after " +:+ pretty maxRetries
                        +:+ " retries: %!w(<nil>)")
             end;
       retry.calls := n;
       retry.sleeps :=
         map (fun i => retry.slept (retry.backoff i)) (seqZ i (Z.of_nat n)) |}.
Proof.
  revert i lastErr. induction n as [|n IH]; intros i lastErr Hfail.
  - reflexivity.
  - cbn [retry.loop]. rewrite (Hfail i) by lia.
    rewrite (IH (i + 1) (Some (errs i))) by (intros j Hj; apply Hfail; lia).
    cbn [retry.outcome retry.calls retry.sleeps].
    replace (Z.of_nat (S n)) with (Z.succ (Z.of_nat n)) by lia.
    rewrite (seqZ_cons i) by lia. cbn [map].
    replace (Z.pred (Z.succ (Z.of_nat n))) with (Z.of_nat n) by lia.
    replace (Z.succ i) with (i + 1) by lia.
    destruct n as [|n]; [|do 4 f_equal; lia].
    do 4 f_equal. lia.
Qed.

(** InferWithRetry stops at the first success: when the attempts before
    attempt k fail and attempt k succeeds, with k below maxRetries, it
    returns that response after k + 1 calls of Infer, having slept after each
    failure: 1, 2, 4, ... seconds, in all 2^k - 1 seconds (for k up to 34,
    where the duration still fits 64 bits). *)
Theorem InferWithRetry_returns_first_success
    (attempt : Z -> result llm.InferResponse) (maxRetries k : Z)
    (resp : llm.InferResponse) :
  0 <= k < maxRetries ->
  (forall j, 0 <= j < k -> exists e, attempt j = Err e) ->
  attempt k = Ok resp ->
  let run := retry.InferWithRetry attempt maxRetries in
  retry.outcome run = Ok resp /\
  retry.calls run = S (Z.to_nat k) /\
  length (retry.sleeps run) = Z.to_nat k /\
  (k <= 34 -> retry.total (retry.sleeps run) = (2 ^ k - 1) * retry.Second).
Proof.
  intros Hk Hfail Hok run. unfold run, retry.InferWithRetry.
  rewrite (loop_first_success attempt maxRetries resp (Z.to_nat k)
             (Z.to_nat maxRetries) 0 None).
  - cbn [retry.outcome retry.calls retry.sleeps].
    split; [done|]. split; [done|]. split.
    + rewrite length_map, length_seqZ. lia.
    + intros Hle. rewrite total_backoff by lia.
      by rewrite Z2Nat.id by lia.
  - lia.
  - intros j Hj. apply Hfail. lia.
  - by replace (0 + Z.of_nat (Z.to_nat k)) with k by lia.
Qed.

(** With two failures before the success: three calls and three seconds. *)
Lemma InferWithRetry_returns_first_success_witness :
  retry.calls (retry.InferWithRetry thirdTimeLucky 5) = 3%nat /\
  retry.total (retry.sleeps (retry.InferWithRetry thirdTimeLucky 5))
  = 3 * retry.Second.
Proof.
  assert (Hfail : forall j, 0 <= j < 2 -> exists e, thirdTimeLucky j = Err e).
  { intros j Hj. unfold thirdTimeLucky.
    assert (Hlt : (j <? 2) = true) by (apply Z.ltb_lt; lia).
    rewrite Hlt. eauto. }
  destruct (InferWithRetry_returns_first_success thirdTimeLucky 5 2
              {| llm.RespTraceID := "t"; llm.FinalAnswer := "ok" |}
              ltac:(lia) Hfail eq_refl) as (_ & Hcalls & _ & Htotal).
  split; [exact Hcalls | exact (Htotal ltac:(lia))].
Defined.

(** InferWithRetry gives up after maxRetries attempts: when all of them
    fail, it has called Infer maxRetries times, it has slept after every
    failure, the last one included (2^maxRetries - 1 seconds in all, up to 34
    attempts), and its error wraps the error of the last attempt, not of the
    first, so that ClassifyError gives it the level of that last error. *)
Theorem InferWithRetry_exhausted_wraps_last_error
    (attempt : Z -> result llm.InferResponse) (errs : Z -> error)
    (maxRetries : Z) :
  0 < maxRetries ->
  (forall j, 0 <= j < maxRetries -> attempt j = Err (errs j)) ->
  let run := retry.InferWithRetry attempt maxRetries in
  let e := Wrap ("failed after " +:+ pretty maxRetries +:+ " retries")
             (errs (maxRetries - 1)) in
  retry.outcome run = Err e /\
  Level (classify e) = Level (classify (errs (maxRetries - 1))) /\
  retry.calls run = Z.to_nat maxRetries /\
  length (retry.sleeps run) = Z.to_nat maxRetries /\
  (maxRetries <= 34 ->
   retry.total (retry.sleeps run) = (2 ^ maxRetries - 1) * retry.Second).
Proof.
  intros Hpos Hfail run e. unfold run, retry.InferWithRetry.
  rewrite (loop_exhausted attempt errs maxRetries (Z.to_nat maxRetries) 0 None)
    by (intros j Hj; apply Hfail; lia).
  cbn [retry.outcome retry.calls retry.sleeps].
  destruct (Z.to_nat maxRetries) as [|n] eqn:Hn; [lia|].
  split.
  { unfold e. do 3 f_equal. lia. }
  split; [apply classify_Wrap_Level|]. split; [done|]. split.
  - rewrite length_map, length_seqZ. lia.
  - intros Hle. rewrite <- Hn. rewrite total_backoff by lia.
    by rewrite Z2Nat.id by lia.
Qed.

(** Three failures: three calls, seven seconds, and the error of the third
    attempt. *)
Lemma InferWithRetry_exhausted_wraps_last_error_witness :
  retry.outcome (retry.InferWithRetry alwaysFails 3)
  = Err (Wrap "failed after 3 retries" (Other "attempt 2")) /\
  retry.total (retry.sleeps (retry.InferWithRetry alwaysFails 3))
  = 7 * retry.Second.
Proof.
  destruct (InferWithRetry_exhausted_wraps_last_error alwaysFails
              (fun i => Other ("attempt " +:+ pretty i)) 3
              ltac:(lia) (fun j _ => eq_refl))
    as (Hout & _ & _ & _ & Htotal).
  split; [exact Hout | exact (Htotal ltac:(lia))].
Defined.

(** InferWithRetry with no attempt allowed: for maxRetries of zero or less,
    Infer is never called and nothing is slept, and the call still fails,
    with an error that has no cause: no sentinel is found in it, so that
    ClassifyError falls to the default of its switch. *)
Theorem InferWithRetry_without_attempts
    (attempt : Z -> result llm.InferResponse) (maxRetries : Z) :
  maxRetries <= 0 ->
  let run := retry.InferWithRetry attempt maxRetries in
  retry.calls run = 0%nat /\ retry.sleeps run = [] /\
  exists e, retry.outcome run = Err e /\
    (forall s, Is e s = false) /\ As e = None /\
    classify e = classifySwitch e.
Proof.
  intros Hle run. unfold run, retry.InferWithRetry.
  replace (Z.to_nat maxRetries) with 0%nat by lia.
  cbn [retry.loop retry.calls retry.sleeps retry.outcome].
  split; [done|]. split; [done|]. eexists. split; [reflexivity|].
  split; [done|]. split; done.
Qed.

Lemma InferWithRetry_without_attempts_witness :
  retry.calls (retry.InferWithRetry thirdTimeLucky 0) = 0%nat.
Proof.
  exact (proj1 (InferWithRetry_without_attempts thirdTimeLucky 0 ltac:(lia))).
Defined.

(** * The configuration defaults *)

(** setDefaults fills exactly the zero fields: a field that is not zero, a
    negative one included, is kept; afterwards none of the seven fields is
    zero, so that a zero cannot be configured; and the defaults applied
    twice are the defaults applied once. *)
Theorem setDefaults_fills_zero_fields (cfg : config.Config) :
  let cfg' := config.setDefaults cfg in
  (config.MaxConcurrency cfg <> 0 ->
   config.MaxConcurrency cfg' = config.MaxConcurrency cfg) /\
  (config.ShutdownTimeout cfg <> 0 ->
   config.ShutdownTimeout cfg' = config.ShutdownTimeout cfg) /\
  (config.MaxConcurrentActivities cfg <> 0 ->
   config.MaxConcurrentActivities cfg' = config.MaxConcurrentActivities cfg) /\
  (config.MaxConcurrentWorkflows cfg <> 0 ->
   config.MaxConcurrentWorkflows cfg' = config.MaxConcurrentWorkflows cfg) /\
  (config.PoolSize cfg <> 0 -> config.PoolSize cfg' = config.PoolSize cfg) /\
  (config.LLMTimeout cfg <> 0 ->
   config.LLMTimeout cfg' = config.LLMTimeout cfg) /\
  (config.MetricsPort cfg <> 0 ->
   config.MetricsPort cfg' = config.MetricsPort cfg) /\
  (config.MaxConcurrency cfg' <> 0 /\ config.ShutdownTimeout cfg' <> 0 /\
   config.MaxConcurrentActivities cfg' <> 0 /\
   config.MaxConcurrentWorkflows cfg' <> 0 /\ config.PoolSize cfg' <> 0 /\
   config.LLMTimeout cfg' <> 0 /\ config.MetricsPort cfg' <> 0) /\
  config.setDefaults cfg' = cfg'.
Proof.
  destruct cfg as [a b c d e f g]. unfold config.setDefaults, config.orDefault.
  cbn -[Z.mul]. unfold retry.Second.
  destruct (Z.eqb_spec a 0), (Z.eqb_spec b 0), (Z.eqb_spec c 0),
    (Z.eqb_spec d 0), (Z.eqb_spec e 0), (Z.eqb_spec f 0), (Z.eqb_spec g 0);
    subst; cbn;
    repeat match goal with
    | |- context [?x =? 0] => destruct (Z.eqb_spec x 0); [lia|]
    end;
    repeat split; (lia || reflexivity).
Qed.
